(** * OGC application-package generator: a shallow embedding

    The development follows the two scripts of the repository:

    - [build_cwl_workflow.py]: [process_value], [set_path_value],
      [add_input_default] and [yaml_to_cwl] (module [Build], and module
      [Store] for [set_path_value] on the objects it mutates);
    - [deploy_app_pack.py]: [submit_request] (module [Deploy]),
      [deploy_app_pack] and the script around it (module [DeployPack]).

    Module [Py] holds the fragment of Python's data model the scripts run on:
    the values [yaml.safe_load] and [response.json()] produce, insertion-ordered
    dictionaries, subscripting, [str] and [repr], and exceptions as results.

    Modules [Paths], [Runs], [Registry], [Demo] and [Reports] hold the
    vocabulary of the statements and the example documents; [PyFacts],
    [PathFacts], [StoreFacts], [BuildFacts] and [MoreFacts] the lemmas;
    [Spec] and [DeploySpec] the statements of the specification;
    [BuildProps], [PathProps] and [DeployProps] further properties of the
    code. *)

From Stdlib Require Import ZArith NArith List String Ascii Bool Lia DecimalString.
Import ListNotations.

Local Open Scope list_scope.
Local Open Scope string_scope.
Local Open Scope Z_scope.

(* ================================================================== *)
(** * Python values *)
(* ================================================================== *)

Module Py.

(** Hashable leaves of a loaded document.  Characters are code points below
    256, one [ascii] each.  Floats are not part of the model. *)
Inductive scalar : Type :=
| PyNone
| PyBool (b : bool)
| PyInt (n : Z)
| PyStr (s : string)
| PyDate (y m d : Z).

(** A document: a leaf, a list, or a dictionary in insertion order.  Documents
    are trees; module [Store] has the objects behind them, where a YAML
    alias makes two places hold one object. *)
#[warnings="-register-all"]
Inductive value : Type :=
| Atom (a : scalar)
| PyList (l : list value)
| PyDict (d : list (scalar * value)).

Definition dict : Type := list (scalar * value).

Coercion Atom : scalar >-> value.
Coercion PyStr : string >-> scalar.

(** The exceptions the two scripts can meet.  [KeyError] and [IndexError] are
    the two subclasses of [LookupError]. *)
Inductive exn : Type :=
| KeyError
| IndexError
| TypeError
| AttributeError
| OSError
| ValueError (msg : string).

Inductive result (A : Type) : Type :=
| Ok (a : A)
| Raise (e : exn).
Arguments Ok {A} a.
Arguments Raise {A} e.

Definition is_lookup_error (e : exn) : bool :=
  match e with
  | KeyError | IndexError => true
  | _ => false
  end.

Definition rbind {A B} (r : result A) (k : A -> result B) : result B :=
  match r with
  | Ok a => k a
  | Raise e => Raise e
  end.

(** ** Equality and hashing of leaves

    [True == 1] and [False == 0] in Python, with equal hashes, so the two
    address the same dictionary entry. *)
Definition canon (a : scalar) : scalar :=
  match a with
  | PyBool b => PyInt (if b then 1 else 0)
  | _ => a
  end.

Definition scalar_eqb (a b : scalar) : bool :=
  match canon a, canon b with
  | PyNone, PyNone => true
  | PyInt x, PyInt y => Z.eqb x y
  | PyStr s, PyStr t => String.eqb s t
  | PyDate y1 m1 d1, PyDate y2 m2 d2 => Z.eqb y1 y2 && Z.eqb m1 m2 && Z.eqb d1 d2
  | _, _ => false
  end.

(** [v == "literal"], as a [match] statement with a string pattern tests it. *)
Definition value_eq_str (v : value) (s : string) : bool :=
  match v with
  | Atom a => scalar_eqb a (PyStr s)
  | _ => false
  end.

(** [hash(v)]: lists and dictionaries are unhashable. *)
Definition hashable (v : value) : result scalar :=
  match v with
  | Atom a => Ok a
  | _ => Raise TypeError
  end.

(** ** Dictionaries in insertion order *)

Fixpoint dict_get (d : dict) (k : scalar) : option value :=
  match d with
  | [] => None
  | (k', v) :: d' => if scalar_eqb k' k then Some v else dict_get d' k
  end.

(** [d[k] = v]: an existing entry keeps its place and its key object, a new
    entry goes last. *)
Fixpoint dict_set (d : dict) (k : scalar) (v : value) : dict :=
  match d with
  | [] => [(k, v)]
  | (k', v') :: d' =>
      if scalar_eqb k' k then (k', v) :: d' else (k', v') :: dict_set d' k v
  end.

Definition dict_keys (d : dict) : list scalar := map fst d.

(** [{k: v for d in ds for k, v in d.items()}] *)
Definition merge_dicts (ds : list dict) : dict :=
  fold_left (fun acc kv => dict_set acc (fst kv) (snd kv)) (List.concat ds) [].

(** ** Subscripting *)

(** An index of a sequence: an [int], or a [bool] (a subclass of [int]). *)
Definition as_index (k : scalar) : option Z :=
  match k with
  | PyInt n => Some n
  | PyBool b => Some (if b then 1 else 0)
  | _ => None
  end.

(** A negative index counts from the end. *)
Definition resolve (len : nat) (i : Z) : option nat :=
  let j := if i <? 0 then i + Z.of_nat len else i in
  if (0 <=? j) && (j <? Z.of_nat len) then Some (Z.to_nat j) else None.

Fixpoint list_update (l : list value) (n : nat) (v : value) : list value :=
  match l, n with
  | [], _ => []
  | _ :: l', O => v :: l'
  | x :: l', S n' => x :: list_update l' n' v
  end.

(** [c[k]] *)
Definition getitem (c : value) (k : scalar) : result value :=
  match c with
  | PyDict d =>
      match dict_get d k with
      | Some v => Ok v
      | None => Raise KeyError
      end
  | PyList l =>
      match as_index k with
      | None => Raise TypeError
      | Some i =>
          match resolve (List.length l) i with
          | None => Raise IndexError
          | Some n =>
              match nth_error l n with
              | Some v => Ok v
              | None => Raise IndexError
              end
          end
      end
  | Atom (PyStr s) =>
      match as_index k with
      | None => Raise TypeError
      | Some i =>
          match resolve (String.length s) i with
          | None => Raise IndexError
          | Some n =>
              match String.get n s with
              | Some c => Ok (Atom (PyStr (String c EmptyString)))
              | None => Raise IndexError
              end
          end
      end
  | Atom _ => Raise TypeError
  end.

(** The integers a [Py_ssize_t] holds on a 64-bit build. *)
Definition fits_index (i : Z) : bool := (- 2 ^ 63 <=? i) && (i <? 2 ^ 63).

(** What [a[k] = v] raises on a leaf: none supports item assignment.  A
    string is a sequence, so CPython converts an integer key to an index
    before it finds that out, and an integer too large for an index raises
    [IndexError]. *)
Definition leaf_setitem (a k : scalar) : exn :=
  match a with
  | PyStr _ =>
      match as_index k with
      | Some i => if fits_index i then TypeError else IndexError
      | None => TypeError
      end
  | _ => TypeError
  end.

(** [c[k] = v], returning the container after the assignment.  A list does
    not grow. *)
Definition setitem (c : value) (k : scalar) (v : value) : result value :=
  match c with
  | PyDict d => Ok (PyDict (dict_set d k v))
  | PyList l =>
      match as_index k with
      | None => Raise TypeError
      | Some i =>
          match resolve (List.length l) i with
          | None => Raise IndexError
          | Some n => Ok (PyList (list_update l n v))
          end
      end
  | Atom a => Raise (leaf_setitem a k)
  end.

(** [c[k1][k2]...[kn]] *)
Fixpoint get_path (c : value) (path : list scalar) : result value :=
  match path with
  | [] => Ok c
  | k :: rest => rbind (getitem c k) (fun c' => get_path c' rest)
  end.

(** [k in c] *)
Definition contains (c : value) (k : string) : result bool :=
  match c with
  | PyDict d =>
      Ok (match dict_get d (PyStr k) with Some _ => true | None => false end)
  | PyList l => Ok (existsb (fun x => value_eq_str x k) l)
  | Atom (PyStr s) =>
      Ok (match String.index 0 k s with Some _ => true | None => false end)
  | Atom _ => Raise TypeError
  end.

(** [c.get(k, default)]: only a dictionary has the method. *)
Definition dict_method_get (c : value) (k : string) (default : value)
  : result value :=
  match c with
  | PyDict d =>
      Ok (match dict_get d (PyStr k) with Some v => v | None => default end)
  | _ => Raise AttributeError
  end.

(** [for x in c]: the elements the loop visits. *)
Definition iterate (c : value) : result (list value) :=
  match c with
  | PyList l => Ok l
  | PyDict d => Ok (map (fun kv => Atom (fst kv)) d)
  | Atom (PyStr s) =>
      Ok (map (fun c => Atom (PyStr (String c EmptyString)))
              (list_ascii_of_string s))
  | Atom _ => Raise TypeError
  end.

(** ** [str] and [repr] *)

Definition str_of_Z (n : Z) : string := NilZero.string_of_int (Z.to_int n).

(** [s.zfill(width)] on the text of a number without a sign. *)
Definition zfill (width : nat) (s : string) : string :=
  string_of_list_ascii (repeat "0"%char (width - String.length s)) ++ s.

Definition dquote : ascii := ascii_of_nat 34.
Definition squote : ascii := ascii_of_nat 39.
Definition backslash : ascii := ascii_of_nat 92.

Definition hex_digit (n : N) : ascii :=
  match String.get (N.to_nat n) "0123456789abcdef" with
  | Some c => c
  | None => "0"%char
  end.

(** Code points below 256 that [str.isprintable] rejects. *)
Definition unprintable (n : N) : bool :=
  ((n <? 32) || (n =? 127) || ((128 <=? n) && (n <=? 160)) || (n =? 173))%N.

Definition repr_char (quote c : ascii) : string :=
  let n := N_of_ascii c in
  if Ascii.eqb c quote || Ascii.eqb c backslash then
    String backslash (String c EmptyString)
  else if (n =? 9)%N then String backslash "t"
  else if (n =? 10)%N then String backslash "n"
  else if (n =? 13)%N then String backslash "r"
  else if unprintable n then
    String backslash
      (String "x" (String (hex_digit (n / 16)) (String (hex_digit (n mod 16)) EmptyString)))
  else String c EmptyString.

Definition has_char (c : ascii) (s : string) : bool :=
  existsb (Ascii.eqb c) (list_ascii_of_string s).

(** [repr] of a string: double quotes only when the text has a single quote
    and no double quote. *)
Definition repr_str (s : string) : string :=
  let q := if has_char squote s && negb (has_char dquote s) then dquote else squote in
  String q (String.concat EmptyString (map (repr_char q) (list_ascii_of_string s))
            ++ String q EmptyString).

Definition repr_scalar (a : scalar) : string :=
  match a with
  | PyNone => "None"
  | PyBool true => "True"
  | PyBool false => "False"
  | PyInt n => str_of_Z n
  | PyStr s => repr_str s
  | PyDate y m d =>
      "datetime.date(" ++ str_of_Z y ++ ", " ++ str_of_Z m ++ ", " ++ str_of_Z d ++ ")"
  end.

Definition str_scalar (a : scalar) : string :=
  match a with
  | PyStr s => s
  | PyDate y m d =>
      zfill 4 (str_of_Z y) ++ "-" ++ zfill 2 (str_of_Z m) ++ "-" ++ zfill 2 (str_of_Z d)
  | _ => repr_scalar a
  end.

Fixpoint py_repr (v : value) : string :=
  match v with
  | Atom a => repr_scalar a
  | PyList l => "[" ++ String.concat ", " (map py_repr l) ++ "]"
  | PyDict d =>
      "{" ++ String.concat ", "
               (map (fun kv => match kv with
                               | (k, x) => repr_scalar k ++ ": " ++ py_repr x
                               end) d) ++ "}"
  end.

(** [str(v)], which is also what an f-string field [{v}] formats to. *)
Definition py_str (v : value) : string :=
  match v with
  | Atom a => str_scalar a
  | _ => py_repr v
  end.

(** ** Slots *)

(** Two keys that address the same item of container [c]. *)
Definition same_slot (c : value) (k k' : scalar) : bool :=
  match c with
  | PyDict _ => scalar_eqb k k'
  | PyList l =>
      match as_index k, as_index k' with
      | Some i, Some j =>
          match resolve (List.length l) i, resolve (List.length l) j with
          | Some n, Some m => Nat.eqb n m
          | _, _ => false
          end
      | _, _ => false
      end
  | Atom _ => false
  end.

End Py.

(* ================================================================== *)
(** * build_cwl_workflow.py *)
(* ================================================================== *)

Module Build.
Import Py.

(** ** The leaf helpers *)

Definition allowed_char (c : ascii) : bool :=
  let n := nat_of_ascii c in
  ((65 <=? n) && (n <=? 90) || (97 <=? n) && (n <=? 122)
   || (48 <=? n) && (n <=? 57) || (n =? 32))%nat.

(** [re.sub(r'[^a-zA-Z0-9 ]', '_', s)] *)
Fixpoint re_sub_non_alnum (s : string) : string :=
  match s with
  | EmptyString => EmptyString
  | String c s' =>
      String (if allowed_char c then c else "_"%char) (re_sub_non_alnum s')
  end.

(** [process_value(target, value)]: [target[-1]] raises on an empty tuple. *)
Definition process_value (target : list scalar) (v : value) : result value :=
  match rev target with
  | [] => Raise IndexError
  | final :: _ =>
      if scalar_eqb final (PyStr "s:version")
      then Ok (Atom (PyStr (re_sub_non_alnum (py_str v))))
      else Ok v
  end.

(** [set_path_value(workflow, path, value)].  The source rebinds [workflow] to
    the item under each key of [path[:-1]] and assigns in place under
    [path[-1]]; here the document is a tree, so the function returns the
    document after the assignment.  The two agree on a document no list or
    dictionary of which is shared between two places, that is a document
    loaded from YAML without aliases: [Store.set_path_value] is the
    assignment in place, [StoreFacts.assign_agrees] the agreement. *)
Fixpoint set_path_value (workflow : value) (path : list scalar) (v : value)
  : result value :=
  match path with
  | [] => Raise IndexError
  | [final] => setitem workflow final v
  | key :: rest =>
      rbind (getitem workflow key) (fun inner =>
      rbind (set_path_value inner rest v) (fun inner' =>
      setitem workflow key inner'))
  end.

(** [add_input_default(input_type, input_default)] *)
Definition add_input_default (input_type input_default : value) : value :=
  if value_eq_str input_type "Directory" || value_eq_str input_type "File"
  then PyDict [(PyStr "class", input_type); (PyStr "path", input_default)]
  else input_default.

(** ** The outside world of [yaml_to_cwl] *)

(** What the operating system refuses for a file beyond what the directory
    tree decides. *)
Inductive fault : Type :=
| Denied    (* the file cannot be opened for writing: permissions *)
| Broken.   (* the file opens and the write fails: a full device, an I/O error *)

(** Paths are compared as written, a trailing slash on a directory aside:
    [.], [..], repeated slashes and links are not interpreted, so a world
    lists a directory under the name a run uses for it.  A regular file is
    listed without a trailing slash.  Permissions on directories are not
    part of the model. *)
Record world : Type := mkWorld {
  files : list (string * value);     (* regular files, by path, as loaded *)
  dirs : list string;                (* existing directories *)
  faults : list (string * fault);    (* what the system refuses, by path *)
  environ : list (string * string);  (* os.environ *)
  today : scalar;                    (* date.today() *)
  warnings : list string;            (* logging.warning, oldest first *)
  stdout : list string               (* print, oldest first *)
}.

Definition M (A : Type) : Type := world -> result A * world.

Definition ret {A} (a : A) : M A := fun w => (Ok a, w).
Definition raise {A} (e : exn) : M A := fun w => (Raise e, w).
Definition bind {A B} (m : M A) (k : A -> M B) : M B :=
  fun w => match m w with
           | (Ok a, w') => k a w'
           | (Raise e, w') => (Raise e, w')
           end.
Definition lift {A} (r : result A) : M A := fun w => (r, w).

Notation "x <- m ;; k" := (bind m (fun x => k))
  (at level 61, m at next level, right associativity).
Notation "m ;;; k" := (bind m (fun _ => k))
  (at level 61, right associativity).

Fixpoint lookup {A} (k : string) (l : list (string * A)) : option A :=
  match l with
  | [] => None
  | (k', a) :: l' => if String.eqb k' k then Some a else lookup k l'
  end.

Definition logging_warning (msg : string) : M unit :=
  fun w => (Ok tt, mkWorld (files w) (dirs w) (faults w) (environ w) (today w)
                           (warnings w ++ [msg])%list (stdout w)).

Definition print (msg : string) : M unit :=
  fun w => (Ok tt, mkWorld (files w) (dirs w) (faults w) (environ w) (today w)
                           (warnings w) (stdout w ++ [msg])%list).

(** [yaml.safe_load(open(path))] *)
Definition safe_load (path : string) : M value :=
  fun w => match lookup path (files w) with
           | Some doc => (Ok doc, w)
           | None => (Raise OSError, w)
           end.

(** ** Paths and the directory tree *)

Definition ends_with_slash (s : string) : bool :=
  match rev (list_ascii_of_string s) with
  | c :: _ => Ascii.eqb c "/"%char
  | [] => false
  end.

Fixpoint drop_slashes (l : list ascii) : list ascii :=
  match l with
  | c :: l' => if Ascii.eqb c "/"%char then drop_slashes l' else l
  | [] => []
  end.

(** [path.rstrip('/')] *)
Definition trim (path : string) : string :=
  string_of_list_ascii (rev (drop_slashes (rev (list_ascii_of_string path)))).

(** A reversed path without its last component: what is left starts with
    the last slash. *)
Fixpoint drop_name (l : list ascii) : list ascii :=
  match l with
  | c :: l' => if Ascii.eqb c "/"%char then l else drop_name l'
  | [] => []
  end.

(** [os.path.dirname(path)]: the text up to the last slash, without the
    slashes it ends in unless it is made of slashes only. *)
Definition dirname (path : string) : string :=
  let head := string_of_list_ascii (rev (drop_name (rev (list_ascii_of_string path)))) in
  if String.eqb (trim head) EmptyString then head else trim head.

(** The directories above a path, innermost first: [a/b] and [a] for
    [a/b/c].  The root and the working directory are always there and are
    not listed. *)
Fixpoint ancestors_upto (fuel : nat) (path : string) : list string :=
  match fuel with
  | O => []
  | S fuel' =>
      let head := dirname (trim path) in
      if String.eqb (trim head) EmptyString then []
      else head :: ancestors_upto fuel' head
  end.

Definition ancestors (path : string) : list string :=
  ancestors_upto (String.length path) path.

Definition is_file (path : string) (w : world) : bool :=
  match lookup path (files w) with
  | Some _ => true
  | None => false
  end.

(** [os.path.isdir(path)]: the root, or a listed directory. *)
Definition is_dir (path : string) (w : world) : bool :=
  negb (String.eqb path EmptyString)
  && (String.eqb (trim path) EmptyString
      || existsb (fun d => String.eqb (trim d) (trim path)) (dirs w)).

Definition exists_at (path : string) (w : world) : bool :=
  is_dir path w || is_file path w.

Definition fault_eqb (f g : fault) : bool :=
  match f, g with
  | Denied, Denied | Broken, Broken => true
  | _, _ => false
  end.

Definition has_fault (f : fault) (path : string) (w : world) : bool :=
  existsb (fun pf => String.eqb (fst pf) path && fault_eqb (snd pf) f) (faults w).

(** [os.path.exists(path)] *)
Definition path_exists (path : string) : M bool :=
  fun w => (Ok (exists_at path w), w).

(** The directories above a path that [os.makedirs] has to make first:
    those below the innermost one that exists. *)
Fixpoint missing_above (above : list string) (w : world) : list string :=
  match above with
  | [] => []
  | a :: rest => if exists_at a w then [] else a :: missing_above rest w
  end.

(** The innermost one that exists is a regular file. *)
Fixpoint blocked_above (above : list string) (w : world) : bool :=
  match above with
  | [] => false
  | a :: rest => if exists_at a w then negb (is_dir a w) else blocked_above rest w
  end.

(** The directories [os.makedirs(path)] creates. *)
Definition new_dirs (path : string) (w : world) : list string :=
  path :: missing_above (ancestors path) w.

(** [os.makedirs(path)] raises when the path is empty
    ([FileNotFoundError]), when it exists already ([FileExistsError]) and
    when the path without its trailing slashes, or the innermost existing
    directory above it, is a regular file ([FileExistsError],
    [NotADirectoryError]); nothing has been created then. *)
Definition makedirs_fails (path : string) (w : world) : bool :=
  String.eqb path EmptyString
  || is_dir path w
  || is_file (trim path) w
  || blocked_above (ancestors path) w.

Definition makedirs (path : string) : M unit :=
  fun w => if makedirs_fails path w
           then (Raise OSError, w)
           else (Ok tt, mkWorld (files w) (new_dirs path w ++ dirs w)%list
                                (faults w) (environ w) (today w)
                                (warnings w) (stdout w)).

(** [open(path, 'w')] succeeds when the path names no directory, the
    directory it lies in is there, and the system does not refuse it
    ([IsADirectoryError], [NotADirectoryError], [FileNotFoundError],
    [PermissionError] otherwise). *)
Definition can_open (path : string) (w : world) : bool :=
  negb (String.eqb path EmptyString)
  && negb (ends_with_slash path)
  && negb (is_dir path w)
  && (String.eqb (dirname path) EmptyString || is_dir (dirname path) w)
  && negb (has_fault Denied path w).

Definition put_file (path : string) (content : value) (w : world) : world :=
  mkWorld ((path, content) :: files w) (dirs w) (faults w) (environ w)
          (today w) (warnings w) (stdout w).

(** What [yaml.safe_load] makes of a file that [open(path, 'w')] has
    created or truncated and nothing was written to. *)
Definition truncated : value := Atom PyNone.

(** [with open(path, 'w') as f: yaml.dump(doc, f)].  The file is created or
    truncated when it is opened; a write that fails leaves it as it was
    opened, or with a part of the text: the model keeps it empty. *)
Definition dump (path : string) (doc : value) : M unit :=
  fun w => if can_open path w
           then if has_fault Broken path w
                then (Raise OSError, put_file path truncated w)
                else (Ok tt, put_file path doc w)
           else (Raise OSError, w).

(** [os.getenv(name)] as a document value: [None] when unset. *)
Definition getenv (name : string) : M value :=
  fun w => (Ok (match lookup name (environ w) with
                | Some s => Atom (PyStr s)
                | None => Atom PyNone
                end), w).

Definition getenv_default (name default : string) : M string :=
  fun w => (Ok (match lookup name (environ w) with
                | Some s => s
                | None => default
                end), w).

Definition date_today : M value := fun w => (Ok (Atom (today w)), w).

(** [os.path.join(a, b)] on a POSIX system. *)
Definition path_join (a b : string) : string :=
  match b with
  | String "/"%char _ => b
  | _ => if match a with EmptyString => true | _ => ends_with_slash a end
         then a ++ b else a ++ "/" ++ b
  end.

(** ** The field mapping table *)

Definition OGC_CWL_KEY_MAP : list (string * list (list scalar)) :=
  let s (x : string) : scalar := PyStr x in
  let resource (x : string) : list scalar :=
    [s "$graph"; PyInt 1; s "requirements"; s "ResourceRequirement"; s x] in
  [ ("algorithm_description", [[s "$graph"; PyInt 0; s "doc"]]);
    ("algorithm_name", [[s "$graph"; PyInt 0; s "label"]; [s "$graph"; PyInt 0; s "id"]]);
    ("algorithm_version", [[s "s:version"]]);
    ("author", [[s "s:author"; PyInt 0; s "s:name"]]);
    ("citation", [[s "s:citation"]]);
    ("code_repository", [[s "s:codeRepository"]]);
    ("contributor", [[s "s:contributor"; PyInt 0; s "s:name"]]);
    ("cores_min", [resource "coresMin"]);
    ("keywords", [[s "s:keywords"]]);
    ("license", [[s "s:license"]]);
    ("outdir_max", [resource "outdirMax"]);
    ("ram_min", [resource "ramMin"]);
    ("release_notes", [[s "s:releaseNotes"]]);
    ("run_command", [[s "$graph"; PyInt 1; s "baseCommand"]]) ].

(** The inner loop [for target in targets], with [config[key]] read anew for
    each target. *)
Fixpoint assign_targets (config : value) (key : string)
    (targets : list (list scalar)) (workflow : value) : result value :=
  match targets with
  | [] => Ok workflow
  | target :: rest =>
      rbind (getitem config (PyStr key)) (fun raw =>
      rbind (process_value target raw) (fun v =>
      rbind (set_path_value workflow target v) (fun workflow' =>
      assign_targets config key rest workflow')))
  end.

(** The loop [for key in OGC_CWL_KEY_MAP]. *)
Fixpoint map_fields (table : list (string * list (list scalar)))
    (config workflow : value) : M value :=
  match table with
  | [] => ret workflow
  | (key, targets) :: rest =>
      present <- lift (contains config key) ;;
      workflow' <-
        (if present : bool
         then lift (assign_targets config key targets workflow)
         else logging_warning
                ("Expected key `" ++ key ++ "` not found in algorithm config.") ;;;
              ret workflow) ;;
      map_fields rest config workflow'
  end.

(** ** Inputs and outputs *)

Definition is_none (v : value) : bool :=
  match v with
  | Atom PyNone => true
  | _ => false
  end.

(** The local lists of [yaml_to_cwl] the input loop appends to, and the set of
    names seen so far. *)
Record inputs_acc : Type := mkInputs {
  input_param_names : list scalar;
  workflow_inputs : list dict;
  step_inputs : list dict;
  process_inputs : list dict
}.

Definition name_seen (name : scalar) (seen : list scalar) : bool :=
  existsb (scalar_eqb name) seen.

Definition duplicate_message (input_name : value) : string :=
  "Duplicate input parameter name '" ++ py_str input_name
    ++ "'. Input parameters must be unique.".

(** The value under an input's name among the workflow-level inputs.  The
    source appends the dictionary first and adds ["default"] to it afterwards;
    the list holds that same object, so the entry has the default. *)
Definition workflow_entry (input_doc input_label input_type input_default : value)
  : dict :=
  let base := [(PyStr "doc", input_doc); (PyStr "label", input_label);
               (PyStr "type", input_type)] in
  if is_none input_default then base
  else dict_set base (PyStr "default") (add_input_default input_type input_default).

Definition process_entry (position : Z) (input_name input_type input_default : value)
  : dict :=
  let base := [(PyStr "type", input_type);
               (PyStr "inputBinding",
                PyDict [(PyStr "position", Atom (PyInt position));
                        (PyStr "prefix", Atom (PyStr ("--" ++ py_str input_name)))])] in
  if is_none input_default then base
  else dict_set base (PyStr "default") (add_input_default input_type input_default).

(** One round of [for input in config.get("inputs", [])]. *)
Definition input_step (acc : inputs_acc) (input : value) : M inputs_acc :=
  input_name <- lift (dict_method_get input "name" PyNone) ;;
  name <- lift (hashable input_name) ;;
  if name_seen name (input_param_names acc)
  then raise (ValueError (duplicate_message input_name))
  else
    input_type <- lift (dict_method_get input "type" PyNone) ;;
    input_doc <- lift (dict_method_get input "doc" PyNone) ;;
    input_label <- lift (dict_method_get input "label" PyNone) ;;
    input_default <- lift (dict_method_get input "default" PyNone) ;;
    (if is_none input_name || is_none input_type
     then logging_warning
            "Expected both input type and input name to be provided for input."
     else ret tt) ;;;
    let workflow_tmp :=
      [(name, PyDict (workflow_entry input_doc input_label input_type input_default))] in
    let process_tmp :=
      [(name, PyDict (process_entry (Z.of_nat (List.length (process_inputs acc)) + 1)
                                    input_name input_type input_default))] in
    let step_tmp := [(name, input_name)] in
    ret (mkInputs (name :: input_param_names acc)
                  (workflow_inputs acc ++ [workflow_tmp])%list
                  (step_inputs acc ++ [step_tmp])%list
                  (process_inputs acc ++ [process_tmp])%list).

Fixpoint input_loop (acc : inputs_acc) (inputs : list value) : M inputs_acc :=
  match inputs with
  | [] => ret acc
  | input :: rest => acc' <- input_step acc input ;; input_loop acc' rest
  end.

Record outputs_acc : Type := mkOutputs {
  workflow_outputs : list dict;
  step_outputs : list value;
  process_outputs : list dict
}.

(** One round of [for output in config.get("outputs", [])].  The dictionary
    display [{output_name: ...}] hashes the name. *)
Definition output_step (acc : outputs_acc) (output : value) : M outputs_acc :=
  output_name <- lift (dict_method_get output "name" PyNone) ;;
  output_type <- lift (dict_method_get output "type" PyNone) ;;
  (if is_none output_name || is_none output_type
   then logging_warning "Expected output name and output type to be specified."
   else ret tt) ;;;
  name <- lift (hashable output_name) ;;
  let workflow_tmp :=
    [(name, PyDict [(PyStr "type", output_type);
                    (PyStr "outputSource", Atom (PyStr "process/outputs_result"))])] in
  let process_tmp :=
    [(PyStr "outputs_result",
      PyDict [(PyStr "outputBinding",
               PyDict [(PyStr "glob", Atom (PyStr "./output*"))]);
              (PyStr "type", output_type)])] in
  ret (mkOutputs (workflow_outputs acc ++ [workflow_tmp])%list
                 (step_outputs acc ++ [Atom (PyStr "outputs_result")])%list
                 (process_outputs acc ++ [process_tmp])%list).

Fixpoint output_loop (acc : outputs_acc) (outputs : list value) : M outputs_acc :=
  match outputs with
  | [] => ret acc
  | output :: rest => acc' <- output_step acc output ;; output_loop acc' rest
  end.

(** ** The document assembler *)

Definition graph (node : Z) (rest : list scalar) : list scalar :=
  PyStr "$graph" :: PyInt node :: rest.

(** [yaml_to_cwl(yaml_file, workflow_output_dir, template_file)].  A chain
    [workflow[k1]...[kn] = v] reads and assigns as [set_path_value] does. *)
Definition yaml_to_cwl (yaml_file workflow_output_dir template_file : string)
  : M unit :=
  config <- safe_load yaml_file ;;
  workflow <- safe_load template_file ;;
  there <- path_exists workflow_output_dir ;;
  (if there : bool then ret tt else makedirs workflow_output_dir) ;;;
  workflow <- map_fields OGC_CWL_KEY_MAP config workflow ;;
  inputs <- lift (dict_method_get config "inputs" (PyList [])) ;;
  inputs <- lift (iterate inputs) ;;
  ins <- input_loop (mkInputs [] [] [] []) inputs ;;
  workflow <- lift (set_path_value workflow
                      (graph 0 [PyStr "inputs"])
                      (PyDict (merge_dicts (workflow_inputs ins)))) ;;
  workflow <- lift (set_path_value workflow
                      (graph 1 [PyStr "inputs"])
                      (PyDict (merge_dicts (process_inputs ins)))) ;;
  workflow <- lift (set_path_value workflow
                      (graph 0 [PyStr "steps"; PyStr "process"; PyStr "in"])
                      (PyDict (merge_dicts (step_inputs ins)))) ;;
  outputs <- lift (dict_method_get config "outputs" (PyList [])) ;;
  outputs <- lift (iterate outputs) ;;
  outs <- output_loop (mkOutputs [] [] []) outputs ;;
  workflow <- lift (set_path_value workflow
                      (graph 0 [PyStr "outputs"])
                      (PyDict (merge_dicts (workflow_outputs outs)))) ;;
  workflow <- lift (set_path_value workflow
                      (graph 1 [PyStr "outputs"])
                      (PyDict (merge_dicts (process_outputs outs)))) ;;
  workflow <- lift (set_path_value workflow
                      (graph 0 [PyStr "steps"; PyStr "process"; PyStr "out"])
                      (PyList (step_outputs outs))) ;;
  date <- date_today ;;
  workflow <- lift (set_path_value workflow [PyStr "s:dateCreated"] date) ;;
  workflow <- lift (set_path_value workflow [PyStr "s:softwareVersion"]
                      (Atom (PyStr "1.0.0"))) ;;
  docker_tag <- getenv "DOCKER_TAG" ;;
  workflow <- lift (set_path_value workflow
                      (graph 1 [PyStr "requirements"; PyStr "DockerRequirement";
                                PyStr "dockerPull"])
                      docker_tag) ;;
  commit <- getenv "GIT_COMMIT_HASH" ;;
  workflow <- lift (set_path_value workflow [PyStr "s:commitHash"] commit) ;;
  file_name <- getenv_default "WORKFLOW_FILE_NAME" "process.cwl" ;;
  let workflow_file := path_join workflow_output_dir file_name in
  dump workflow_file workflow ;;;
  print ("CWL workflow saved to " ++ workflow_file).

End Build.

(* ================================================================== *)
(** * Path assignment in place *)
(* ================================================================== *)

(** [set_path_value] on the objects themselves.  A loaded document is a
    graph of list and dictionary objects: a YAML alias makes two places hold
    one object, and an assignment mutates the object it reaches, whichever
    way it was reached. *)
Module Store.
Import Py.

(** What a variable, a list item or a dictionary value holds: a leaf, which
    is immutable and held by value, or a reference to a list or a
    dictionary. *)
Inductive item : Type :=
| Leaf (a : scalar)
| Ref (r : nat).

Inductive object : Type :=
| ListObj (items : list item)
| DictObj (entries : list (scalar * item)).

(** The objects, by address. *)
Definition store : Type := list object.

Fixpoint entry_get (es : list (scalar * item)) (k : scalar) : option item :=
  match es with
  | [] => None
  | (k', c) :: es' => if scalar_eqb k' k then Some c else entry_get es' k
  end.

Fixpoint entry_set (es : list (scalar * item)) (k : scalar) (c : item)
  : list (scalar * item) :=
  match es with
  | [] => [(k, c)]
  | (k', c') :: es' =>
      if scalar_eqb k' k then (k', c) :: es' else (k', c') :: entry_set es' k c
  end.

Fixpoint item_update (l : list item) (n : nat) (c : item) : list item :=
  match l, n with
  | [], _ => []
  | _ :: l', O => c :: l'
  | x :: l', S n' => x :: item_update l' n' c
  end.

(** The store with object [o] at address [r]. *)
Fixpoint put (st : store) (r : nat) (o : object) : store :=
  match st, r with
  | [], _ => []
  | _ :: st', O => o :: st'
  | x :: st', S r' => x :: put st' r' o
  end.

(** [o[k]] on a list or a dictionary. *)
Definition object_get (o : object) (k : scalar) : result item :=
  match o with
  | DictObj es =>
      match entry_get es k with
      | Some c => Ok c
      | None => Raise KeyError
      end
  | ListObj items =>
      match as_index k with
      | None => Raise TypeError
      | Some i =>
          match resolve (List.length items) i with
          | None => Raise IndexError
          | Some n =>
              match nth_error items n with
              | Some c => Ok c
              | None => Raise IndexError
              end
          end
      end
  end.

(** [o[k] = v]: the object after the assignment.  A list does not grow. *)
Definition object_set (o : object) (k : scalar) (v : item) : result object :=
  match o with
  | DictObj es => Ok (DictObj (entry_set es k v))
  | ListObj items =>
      match as_index k with
      | None => Raise TypeError
      | Some i =>
          match resolve (List.length items) i with
          | None => Raise IndexError
          | Some n => Ok (ListObj (item_update items n v))
          end
      end
  end.

(** [c[k]].  A leaf is subscripted as in [Py]; a reference without an object
    does not occur in a loaded document. *)
Definition getitem (st : store) (c : item) (k : scalar) : result item :=
  match c with
  | Leaf a =>
      match Py.getitem (Atom a) k with
      | Ok (Atom b) => Ok (Leaf b)
      | Ok _ => Raise TypeError
      | Raise e => Raise e
      end
  | Ref r =>
      match nth_error st r with
      | Some o => object_get o k
      | None => Raise TypeError
      end
  end.

(** [c[k] = v]: the object [c] refers to is changed where it is. *)
Definition setitem (st : store) (c : item) (k : scalar) (v : item) : result store :=
  match c with
  | Leaf a => Raise (leaf_setitem a k)
  | Ref r =>
      match nth_error st r with
      | Some o =>
          match object_set o k v with
          | Ok o' => Ok (put st r o')
          | Raise e => Raise e
          end
      | None => Raise TypeError
      end
  end.

(** [set_path_value(workflow, path, value)]: the loop rebinds [workflow] to
    the item under each key of [path[:-1]], the last line assigns under
    [path[-1]]. *)
Fixpoint set_path_value (st : store) (workflow : item) (path : list scalar)
    (value : item) : result store :=
  match path with
  | [] => Raise IndexError
  | [final] => setitem st workflow final value
  | key :: rest =>
      rbind (getitem st workflow key) (fun inner =>
      set_path_value st inner rest value)
  end.

(** [c[k1][k2]...[kn]] *)
Fixpoint get_path (st : store) (c : item) (path : list scalar) : result item :=
  match path with
  | [] => Ok c
  | k :: rest => rbind (getitem st c k) (fun c' => get_path st c' rest)
  end.

(** ** The document an item stands for *)

Fixpoint all {A} (l : list (option A)) : option (list A) :=
  match l with
  | [] => Some []
  | Some a :: l' =>
      match all l' with
      | Some r => Some (a :: r)
      | None => None
      end
  | None :: _ => None
  end.

Definition children (o : object) : list item :=
  match o with
  | ListObj items => items
  | DictObj es => map snd es
  end.

(** The list or the dictionary with the documents [l] for its items. *)
Definition rebuild (o : object) (l : list value) : value :=
  match o with
  | ListObj _ => PyList l
  | DictObj es => PyDict (combine (map fst es) l)
  end.

(** The document below an item, read as a tree: [None] when [fuel] does not
    reach its leaves (it never does on a cycle) or a reference has no
    object. *)
Fixpoint load (fuel : nat) (st : store) (c : item) : option value :=
  match c with
  | Leaf a => Some (Atom a)
  | Ref r =>
      match fuel with
      | O => None
      | S n =>
          match nth_error st r with
          | Some o =>
              match all (map (load n st) (children o)) with
              | Some l => Some (rebuild o l)
              | None => None
              end
          | None => None
          end
      end
  end.

(** The addresses of the lists and dictionaries below an item, one for each
    way down to them. *)
Fixpoint reach (fuel : nat) (st : store) (c : item) : list nat :=
  match c with
  | Leaf _ => []
  | Ref r =>
      r :: match fuel with
           | O => []
           | S n =>
               match nth_error st r with
               | Some o => flat_map (reach n st) (children o)
               | None => []
               end
           end
  end.

Fixpoint distinct (l : list nat) : bool :=
  match l with
  | [] => true
  | a :: l' => negb (existsb (Nat.eqb a) l') && distinct l'
  end.

(** No list or dictionary below the item is reached along two paths: the
    document has no alias. *)
Definition unshared (fuel : nat) (st : store) (c : item) : bool :=
  distinct (reach fuel st c).

(** No list or dictionary below [v] lies below [c]. *)
Definition separate (n m : nat) (st : store) (c v : item) : bool :=
  forallb (fun a => negb (existsb (Nat.eqb a) (reach m st v))) (reach n st c).

(** The items of an object at the slots other than the one [k] addresses. *)
Fixpoint other_entries (es : list (scalar * item)) (k : scalar) : list item :=
  match es with
  | [] => []
  | (k', c) :: es' =>
      if scalar_eqb k' k then map snd es' else c :: other_entries es' k
  end.

Fixpoint other_items (l : list item) (n : nat) : list item :=
  match l, n with
  | [], _ => []
  | _ :: l', O => l'
  | x :: l', S n' => x :: other_items l' n'
  end.

Definition others (o : object) (k : scalar) : list item :=
  match o with
  | DictObj es => other_entries es k
  | ListObj items =>
      match as_index k with
      | Some i =>
          match resolve (List.length items) i with
          | Some n => other_items items n
          | None => items
          end
      | None => items
      end
  end.

End Store.

(* ================================================================== *)
(** * deploy_app_pack.py *)
(* ================================================================== *)

Module Deploy.
Import Py.

(** What [submit_request] reads of a [requests.Response]: the status, the body
    text, and the body as [response.json()] parses it ([None] when the body is
    not JSON). *)
Record response : Type := mkResponse {
  status_code : Z;
  text : string;
  json_body : option value
}.

(** The exception classes [submit_request] tells apart.  [HTTPError] is a
    [RequestException]; [JSONDecodeError] of [requests] is a [RequestException]
    and a [ValueError]. *)
Inductive exc : Type :=
| HTTPError (r : response)
| RequestException
| JSONDecodeError
| Builtin (e : exn).

Inductive outcome (A : Type) : Type :=
| Return (a : A)
| Propagate (e : exc).
Arguments Return {A} a.
Arguments Propagate {A} e.

Inductive method : Type := POST | PUT.

Record request : Type := mkRequest {
  req_method : method;
  req_url : string;
  req_body : string;
  req_headers : list (string * string)
}.

(** What the HTTP layer does with a request: a response, or an exception. *)
Inductive reply : Type :=
| Response (r : response)
| Failure (e : exc).

(** A computation that sends requests: the requests sent so far, oldest
    first, are threaded through. *)
Definition Net (A : Type) : Type := list request -> outcome A * list request.

Definition nret {A} (a : A) : Net A := fun sent => (Return a, sent).
Definition nraise {A} (e : exc) : Net A := fun sent => (Propagate e, sent).
Definition nbind {A B} (m : Net A) (k : A -> Net B) : Net B :=
  fun sent => match m sent with
              | (Return a, sent') => k a sent'
              | (Propagate e, sent') => (Propagate e, sent')
              end.
Definition nlift {A} (r : result A) : Net A :=
  match r with
  | Ok a => nret a
  | Raise e => nraise (Builtin e)
  end.

(** [try: body except <handler>] *)
Definition try_except {A} (body : Net A) (handler : exc -> Net A) : Net A :=
  fun sent => match body sent with
              | (Return a, sent') => (Return a, sent')
              | (Propagate e, sent') => handler e sent'
              end.

Notation "x <- m ;; k" := (nbind m (fun x => k))
  (at level 61, m at next level, right associativity).
Notation "m ;;; k" := (nbind m (fun _ => k))
  (at level 61, right associativity).

(** [response.raise_for_status()]: [requests] raises for 4xx and 5xx only. *)
Definition raise_for_status (r : response) : Net unit :=
  if (400 <=? status_code r) && (status_code r <? 600)
  then nraise (HTTPError r) else nret tt.

(** [response.json()] *)
Definition response_json (r : response) : Net value :=
  match json_body r with
  | Some v => nret v
  | None => nraise JSONDecodeError
  end.

(** [except (KeyError, requests.exceptions.RequestException, ValueError)] *)
Definition fallback_catches (e : exc) : bool :=
  match e with
  | HTTPError _ | RequestException | JSONDecodeError => true
  | Builtin KeyError | Builtin (ValueError _) => true
  | Builtin _ => false
  end.

Section HTTP.

(** [json.dumps], and the HTTP layer behind [requests.post] and
    [requests.put]. *)
Variable json_dumps : value -> result string.
Variable http : request -> reply.

Definition send (m : method) (url body : string) (headers : list (string * string))
  : Net response :=
  fun sent =>
    let rq := mkRequest m url body headers in
    match http rq with
    | Response r => (Return r, sent ++ [rq])%list
    | Failure e => (Propagate e, sent ++ [rq])%list
    end.

(** The body of the inner [try] of the 409 branch. *)
Definition put_fallback (url : string) (data : value)
    (headers : list (string * string)) (conflict : response) : Net bool :=
  r <- response_json conflict ;;
  nlift (dict_method_get r "detail" PyNone) ;;;
  props <- nlift (getitem r (PyStr "additionalProperties")) ;;
  process_id <- nlift (getitem props (PyStr "processID")) ;;
  let url := url ++ "/" ++ py_str process_id in
  body <- nlift (json_dumps data) ;;
  response <- send PUT url body headers ;;
  raise_for_status response ;;;
  nret true.

(** [submit_request(url, data, headers)].  Console output is left out. *)
Definition submit_request (url : string) (data : value)
    (headers : list (string * string)) : Net bool :=
  try_except
    (body <- nlift (json_dumps data) ;;
     response <- send POST url body headers ;;
     raise_for_status response ;;;
     nret true)
    (fun e =>
       match e with
       | HTTPError r =>
           if status_code r =? 409
           then try_except (put_fallback url data headers r)
                  (fun e' => if fallback_catches e' then nret false else nraise e')
           else nret false
       | _ => nret false
       end).

End HTTP.

End Deploy.

(* ================================================================== *)
(** * The vocabulary of the statements *)
(* ================================================================== *)

(** Locations in a document. *)
Module Paths.
Import Py Build.

(** [apart c p q]: descending [c] along [p] and along [q] parts ways at some
    container, where the two paths address different items.  Neither path is
    then a prefix of the other: [q] is a location other than [p], not above
    it and not inside it. *)
Fixpoint apart (c : value) (p q : list scalar) : bool :=
  match p, q with
  | k :: p', k' :: q' =>
      if same_slot c k k'
      then match getitem c k with
           | Ok c' => apart c' p' q'
           | Raise _ => false
           end
      else true
  | _, _ => false
  end.

(** The last segment can be assigned under [parent]: any key of a mapping, an
    index within a list. *)
Definition assignable (parent : value) (k : scalar) : bool :=
  match parent with
  | PyDict _ => true
  | PyList l =>
      match as_index k with
      | Some i => match resolve (List.length l) i with Some _ => true | None => false end
      | None => false
      end
  | Atom _ => false
  end.

(** Descending [c] along [p] meets a mapping without the key, or a sequence
    without the index. *)
Fixpoint missing_segment (c : value) (p : list scalar) : bool :=
  match p with
  | [] => false
  | k :: rest =>
      match c with
      | PyDict d =>
          match dict_get d k with
          | Some c' => missing_segment c' rest
          | None => true
          end
      | PyList l =>
          match as_index k with
          | Some i =>
              match resolve (List.length l) i with
              | Some n =>
                  match nth_error l n with
                  | Some c' => missing_segment c' rest
                  | None => true
                  end
              | None => true
              end
          | None => false
          end
      | Atom (PyStr s) =>
          match as_index k with
          | Some i =>
              match resolve (String.length s) i with
              | Some n =>
                  match String.get n s with
                  | Some ch => missing_segment (Atom (PyStr (String ch EmptyString))) rest
                  | None => true
                  end
              | None => true
              end
          | None => false
          end
      | Atom _ => false
      end
  end.

(** Segments whose slot does not depend on the container: a string key, a
    non-negative index. *)
Definition plain (k : scalar) : bool :=
  match k with
  | PyStr _ => true
  | PyInt n => 0 <=? n
  | _ => false
  end.

(** [p] and [q] part ways at plain segments, whatever the document. *)
Fixpoint diverge (p q : list scalar) : bool :=
  match p, q with
  | k :: p', k' :: q' =>
      plain k && plain k' && (if scalar_eqb k k' then diverge p' q' else true)
  | _, _ => false
  end.

(** Assigning at [p] leaves the kind of what is at [q]: [q] is above [p], or
    the two part ways. *)
Fixpoint keeps (p q : list scalar) : bool :=
  match p, q with
  | _ :: _, [] => true
  | [], _ => false
  | k :: p', k' :: q' =>
      plain k && plain k' && (if scalar_eqb k k' then keeps p' q' else true)
  end.

(** The document has a mapping at [p]. *)
Definition is_dict_at (w : value) (p : list scalar) : bool :=
  match get_path w p with
  | Ok (PyDict _) => true
  | _ => false
  end.

End Paths.

(** Configuration Documents, templates and runs. *)
Module Runs.
Import Py Build Paths.

(** ** Reading the Configuration Document *)

(** [record.get(k)] *)
Definition field (d : dict) (k : string) : value :=
  match dict_get d (PyStr k) with
  | Some v => v
  | None => Atom PyNone
  end.

(** A section of the configuration, [config.get(k, [])], when it is a list of
    mappings. *)
Fixpoint all_dicts (l : list value) : option (list dict) :=
  match l with
  | [] => Some []
  | PyDict d :: rest =>
      match all_dicts rest with
      | Some ds => Some (d :: ds)
      | None => None
      end
  | _ :: _ => None
  end.

Definition records (c : dict) (k : string) : option (list dict) :=
  match dict_get c (PyStr k) with
  | Some (PyList l) => all_dicts l
  | Some _ => None
  | None => Some []
  end.

(** The name of a record as a dictionary key; [None] when the record has no
    name. *)
Definition key_of (d : dict) : scalar :=
  match field d "name" with
  | Atom a => a
  | _ => PyNone
  end.

Definition hashable_name (d : dict) : bool :=
  match field d "name" with
  | Atom _ => true
  | _ => false
  end.

(** No name equals, as Python compares, a name of [seen] or an earlier name
    of the list. *)
Fixpoint fresh_names (seen names : list scalar) : bool :=
  match names with
  | [] => true
  | n :: rest => negb (name_seen n seen) && fresh_names (n :: seen) rest
  end.

Definition unique (names : list scalar) : bool := fresh_names [] names.

(** ** The shape of the Workflow Template *)

(** The places of the template that [yaml_to_cwl] assigns under. *)
Definition dict_holes : list (list scalar) :=
  [ [];
    graph 0 [];
    graph 1 [];
    graph 0 [PyStr "steps"; PyStr "process"];
    graph 1 [PyStr "requirements"; PyStr "ResourceRequirement"];
    graph 1 [PyStr "requirements"; PyStr "DockerRequirement"];
    [PyStr "s:author"; PyInt 0];
    [PyStr "s:contributor"; PyInt 0] ].

(** The template has a mapping at each of these places. *)
Definition template_ok (w : value) : bool := forallb (is_dict_at w) dict_holes.

(** Equality of paths as written, segment by segment. *)
Definition scalar_eq_dec (a b : scalar) : {a = b} + {a <> b}.
Proof.
  decide equality; try apply Z.eq_dec; try apply string_dec; apply bool_dec.
Defined.

Definition path_eqb (p q : list scalar) : bool :=
  if list_eq_dec scalar_eq_dec p q then true else false.

(** A path the assembler can always assign at: it ends under a hole, and the
    assignment keeps every hole a mapping. *)
Definition writable_path (p : list scalar) : bool :=
  match p with
  | [] => false
  | _ => existsb (path_eqb (removelast p)) dict_holes
         && forallb (keeps p) dict_holes
  end.

(** ** What the loops hand over *)

(** The two messages of the loops, and the records that draw them. *)
Definition input_warning : string :=
  "Expected both input type and input name to be provided for input.".

Definition output_warning : string :=
  "Expected output name and output type to be specified.".

Definition lacks_name_or_type (d : dict) : bool :=
  is_none (field d "name") || is_none (field d "type").

Definition input_warnings (ins : list dict) : list string :=
  flat_map (fun d => if lacks_name_or_type d then [input_warning] else []) ins.

Definition output_warnings (outs : list dict) : list string :=
  flat_map (fun d => if lacks_name_or_type d then [output_warning] else []) outs.

(** The entries the input loop makes for record [d]: workflow-level,
    process-level (with its position) and step-level. *)
Definition workflow_pair (d : dict) : scalar * value :=
  (key_of d,
   PyDict (workflow_entry (field d "doc") (field d "label") (field d "type")
                          (field d "default"))).

Definition process_pair (position : Z) (d : dict) : scalar * value :=
  (key_of d,
   PyDict (process_entry position (field d "name") (field d "type")
                         (field d "default"))).

Definition step_pair (d : dict) : scalar * value := (key_of d, field d "name").

Fixpoint process_pairs (position : Z) (ins : list dict) : list (scalar * value) :=
  match ins with
  | [] => []
  | d :: rest => process_pair position d :: process_pairs (position + 1) rest
  end.

(** The entries the output loop makes for record [d]. *)
Definition workflow_output_pair (d : dict) : scalar * value :=
  (key_of d,
   PyDict [(PyStr "type", field d "type");
           (PyStr "outputSource", Atom (PyStr "process/outputs_result"))]).

Definition process_output_pair (d : dict) : scalar * value :=
  (PyStr "outputs_result",
   PyDict [(PyStr "outputBinding", PyDict [(PyStr "glob", Atom (PyStr "./output*"))]);
           (PyStr "type", field d "type")]).

Definition singleton (kv : scalar * value) : dict := [kv].

(** The world after [ws] more warnings. *)
Definition add_warnings (w : world) (ws : list string) : world :=
  mkWorld (files w) (dirs w) (faults w) (environ w) (today w)
          (warnings w ++ ws)%list (stdout w).

(** Every destination of the table is such a path. *)
Definition table_ok (table : list (string * list (list scalar))) : bool :=
  forallb (fun entry => forallb writable_path (snd entry)) table.

(** ** A whole run *)

(** The file the document is dumped to. *)
Definition workflow_file (workflow_output_dir : string) (w : world) : string :=
  path_join workflow_output_dir
    (match lookup "WORKFLOW_FILE_NAME" (environ w) with
     | Some s => s
     | None => "process.cwl"
     end).

(** The guard [if not os.path.exists(dir): os.makedirs(dir)] goes through:
    the path is there, or the directory can be made. *)
Definition dir_ready (dir : string) (w : world) : bool :=
  exists_at dir w || negb (makedirs_fails dir w).

(** The directories after the guard. *)
Definition dirs_after (dir : string) (w : world) : list string :=
  if exists_at dir w then dirs w else (new_dirs dir w ++ dirs w)%list.

Definition after_guard (dir : string) (w : world) : world :=
  mkWorld (files w) (dirs_after dir w) (faults w) (environ w) (today w)
          (warnings w) (stdout w).

(** The output file can be written: the guard goes through, the file can
    be opened after it, and the write does not fail. *)
Definition output_ready (dir : string) (w : world) : bool :=
  dir_ready dir w
  && can_open (workflow_file dir w) (after_guard dir w)
  && negb (has_fault Broken (workflow_file dir w) w).

(** The end of [yaml_to_cwl]: the dump and the message. *)
Definition save (workflow_output_dir : string) (workflow : value) : M unit :=
  file_name <- getenv_default "WORKFLOW_FILE_NAME" "process.cwl" ;;
  let file := path_join workflow_output_dir file_name in
  dump file workflow ;;; print ("CWL workflow saved to " ++ file).

(** What a run needs: the two files hold a Configuration Document and a
    well-shaped template, the output file can be written, the two sections
    are lists of mappings with hashable names, and the input names are
    pairwise distinct. *)
Definition well_formed_run (yaml_file workflow_output_dir template_file : string)
    (w : world) (c : dict) (ins outs : list dict) : Prop :=
  lookup yaml_file (files w) = Some (PyDict c)
  /\ (exists t, lookup template_file (files w) = Some t /\ template_ok t = true)
  /\ output_ready workflow_output_dir w = true
  /\ records c "inputs" = Some ins
  /\ forallb hashable_name ins = true
  /\ unique (map key_of ins) = true
  /\ records c "outputs" = Some outs
  /\ forallb hashable_name outs = true.

(** What a completed run leaves: the dumped document, the warnings, and the
    six structures of the projector at their places in the document. *)
Definition run_yields (workflow_output_dir : string) (w w' : world)
    (ins outs : list dict) (doc : value) : Prop :=
  files w' = (workflow_file workflow_output_dir w, doc) :: files w
  /\ (exists ws, warnings w'
                 = (warnings w ++ ws ++ input_warnings ins ++ output_warnings outs)%list)
  /\ get_path doc (graph 0 [PyStr "inputs"]) = Ok (PyDict (map workflow_pair ins))
  /\ get_path doc (graph 1 [PyStr "inputs"]) = Ok (PyDict (process_pairs 1 ins))
  /\ get_path doc (graph 0 [PyStr "steps"; PyStr "process"; PyStr "in"])
     = Ok (PyDict (map step_pair ins))
  /\ get_path doc (graph 0 [PyStr "outputs"])
     = Ok (PyDict (merge_dicts (map singleton (map workflow_output_pair outs))))
  /\ get_path doc (graph 1 [PyStr "outputs"])
     = Ok (PyDict (merge_dicts (map singleton (map process_output_pair outs))))
  /\ get_path doc (graph 0 [PyStr "steps"; PyStr "process"; PyStr "out"])
     = Ok (PyList (map (fun _ => Atom (PyStr "outputs_result")) outs)).


(** ** Words of the specification *)

(** The ["default"] entry of a binding made for input record [d]. *)
Definition default_shaped (d entry : dict) : Prop :=
  (field d "default" = Atom PyNone -> dict_get entry (PyStr "default") = None)
  /\ (field d "default" <> Atom PyNone ->
      field d "type" = Atom (PyStr "File") \/ field d "type" = Atom (PyStr "Directory") ->
      dict_get entry (PyStr "default")
      = Some (PyDict [(PyStr "class", field d "type");
                      (PyStr "path", field d "default")]))
  /\ (field d "default" <> Atom PyNone ->
      field d "type" <> Atom (PyStr "File") ->
      field d "type" <> Atom (PyStr "Directory") ->
      dict_get entry (PyStr "default") = Some (field d "default")).

(** The characters the version field keeps, as the specification lists
    them: letters, digits and the space. *)
Definition kept_chars : string :=
  "ABCDEFGHIJKLMNOPQRSTUVWXYZabcdefghijklmnopqrstuvwxyz0123456789 ".

Definition kept (c : ascii) : bool := has_char c kept_chars.

End Runs.

(** Registries to deploy to. *)
Module Registry.
Import Py Deploy.

(** The HTTP layer answered, and with a status [raise_for_status] accepts. *)
Definition succeeds (answer : reply) : bool :=
  match answer with
  | Response r => negb ((400 <=? status_code r) && (status_code r <? 600))
  | Failure _ => false
  end.

(** A registry that answers every request the same way. *)
Definition always (r : response) : request -> reply := fun _ => Response r.

(** A registry that knows the process already: 409 with its id on POST,
    200 on PUT. *)
Definition registry (rq : request) : reply :=
  match req_method rq with
  | POST =>
      Response (mkResponse 409 "conflict"
                  (Some (PyDict [(PyStr "detail", Atom (PyStr "Duplicate process"));
                                 (PyStr "additionalProperties",
                                  PyDict [(PyStr "processID", Atom (PyStr "p123"))])])))
  | PUT => Response (mkResponse 200 "updated" None)
  end.

(** A stand-in for [json.dumps] on the documents of the examples. *)
Definition dumps_stub (v : value) : result string := Ok (py_repr v).

End Registry.

(** Example documents. *)
Module Demo.
Import Py Build.

(** A template with the holes of the bundled CWL v1.2 one, and the
    configuration of the specification's end-to-end scenario. *)
Definition template : value :=
  PyDict
    [(PyStr "cwlVersion", Atom (PyStr "v1.2"));
     (PyStr "$graph",
      PyList
        [PyDict [(PyStr "class", Atom (PyStr "Workflow"));
                 (PyStr "id", Atom PyNone);
                 (PyStr "inputs", Atom PyNone);
                 (PyStr "outputs", Atom PyNone);
                 (PyStr "steps",
                  PyDict [(PyStr "process",
                           PyDict [(PyStr "run", Atom (PyStr "#main"));
                                   (PyStr "in", Atom PyNone);
                                   (PyStr "out", Atom PyNone)])])];
         PyDict [(PyStr "class", Atom (PyStr "CommandLineTool"));
                 (PyStr "id", Atom (PyStr "main"));
                 (PyStr "requirements",
                  PyDict [(PyStr "DockerRequirement",
                           PyDict [(PyStr "dockerPull", Atom PyNone)]);
                          (PyStr "ResourceRequirement", PyDict [])]);
                 (PyStr "inputs", Atom PyNone);
                 (PyStr "outputs", Atom PyNone)]]);
     (PyStr "s:author", PyList [PyDict [(PyStr "s:name", Atom PyNone)]]);
     (PyStr "s:contributor", PyList [PyDict [(PyStr "s:name", Atom PyNone)]])].

Definition infile : dict :=
  [(PyStr "name", Atom (PyStr "infile")); (PyStr "type", Atom (PyStr "File"));
   (PyStr "default", Atom (PyStr "/data/a.tif"))].

Definition threshold : dict :=
  [(PyStr "name", Atom (PyStr "threshold")); (PyStr "type", Atom (PyStr "int"));
   (PyStr "default", Atom (PyInt 3))].

Definition verbose : dict :=
  [(PyStr "name", Atom (PyStr "verbose")); (PyStr "type", Atom (PyStr "boolean"))].

Definition outfile : dict :=
  [(PyStr "name", Atom (PyStr "outfile")); (PyStr "type", Atom (PyStr "File"))].

Definition logdir : dict :=
  [(PyStr "name", Atom (PyStr "logdir")); (PyStr "type", Atom (PyStr "Directory"))].

Definition config_of (ins outs : list dict) : dict :=
  [(PyStr "algorithm_name", Atom (PyStr "demo"));
   (PyStr "algorithm_version", Atom (PyStr "v1.0!"));
   (PyStr "inputs", PyList (map PyDict ins));
   (PyStr "outputs", PyList (map PyDict outs))].

Definition world_of (c : dict) : world :=
  mkWorld [("algorithm_config.yml", PyDict c); ("process.v1_2.cwl", template)]
          [] [] [("DOCKER_TAG", "registry/demo:main")] (PyDate 2026 11 4) [] [].

Definition ins : list dict := [infile; threshold; verbose].
Definition outs : list dict := [outfile; logdir].
Definition config : dict := config_of ins outs.

(** The same files where the device fails when the output file is written,
    and where the output directory [workflows] is a regular file. *)
Definition full_disk : world :=
  mkWorld (files (world_of config)) [] [("workflows/process.cwl", Broken)]
          [] (PyDate 2026 11 4) [] [].

Definition blocked : world :=
  mkWorld (("workflows", Atom (PyStr "notes")) :: files (world_of config)) [] []
          [] (PyDate 2026 11 4) [] [].

(** The objects of a document with an author and a contributor,
    [{s:author: [{s:name: null}], s:contributor: [{s:name: null}]}], and the
    objects of the same text written with an alias,
    [{s:author: &a [{s:name: null}], s:contributor: *a}]: one list, held at
    two places. *)
Definition people : Store.store :=
  [Store.DictObj [(PyStr "s:author", Store.Ref 1);
                  (PyStr "s:contributor", Store.Ref 3)];
   Store.ListObj [Store.Ref 2];
   Store.DictObj [(PyStr "s:name", Store.Leaf PyNone)];
   Store.ListObj [Store.Ref 4];
   Store.DictObj [(PyStr "s:name", Store.Leaf PyNone)]].

Definition people_aliased : Store.store :=
  [Store.DictObj [(PyStr "s:author", Store.Ref 1);
                  (PyStr "s:contributor", Store.Ref 1)];
   Store.ListObj [Store.Ref 2];
   Store.DictObj [(PyStr "s:name", Store.Leaf PyNone)]].

(** Two inputs called [infile]. *)
Definition twice : list dict := [infile; threshold; infile].

(** Two inputs without a name. *)
Definition nameless : list dict :=
  [[(PyStr "type", Atom (PyStr "string"))]; [(PyStr "type", Atom (PyStr "int"))]].

End Demo.

(** What a run reports and leaves behind. *)
Module Reports.
Import Py Build Paths Runs.

(** The value the field mapper writes at [target] for the raw value of a
    configuration key. *)
Definition normalized (target : list scalar) (raw : value) : value :=
  match process_value target raw with
  | Ok v => v
  | Raise _ => raw
  end.

Definition has_key (c : dict) (key : string) : bool :=
  match dict_get c (PyStr key) with
  | Some _ => true
  | None => false
  end.

Definition missing_warning (key : string) : string :=
  "Expected key `" ++ key ++ "` not found in algorithm config.".

(** One warning per key of the table that the configuration lacks, in the
    order of the table. *)
Definition missing_warnings (c : dict) (table : list (string * list (list scalar)))
  : list string :=
  flat_map (fun entry => if has_key c (fst entry) then []
                         else [missing_warning (fst entry)]) table.

(** The destinations of one key part ways pairwise. *)
Fixpoint targets_apart (targets : list (list scalar)) : bool :=
  match targets with
  | [] => true
  | p :: rest => forallb (diverge p) rest && targets_apart rest
  end.

(** So do the destinations of different keys. *)
Fixpoint table_apart (table : list (string * list (list scalar))) : bool :=
  match table with
  | [] => true
  | (_, targets) :: rest =>
      targets_apart targets
      && forallb (fun p => forallb (fun entry => forallb (diverge p) (snd entry)) rest)
                 targets
      && table_apart rest
  end.

(** The places [yaml_to_cwl] assigns at after the field mapper, in order. *)
Definition assembler_paths : list (list scalar) :=
  [ graph 0 [PyStr "inputs"];
    graph 1 [PyStr "inputs"];
    graph 0 [PyStr "steps"; PyStr "process"; PyStr "in"];
    graph 0 [PyStr "outputs"];
    graph 1 [PyStr "outputs"];
    graph 0 [PyStr "steps"; PyStr "process"; PyStr "out"];
    [PyStr "s:dateCreated"];
    [PyStr "s:softwareVersion"];
    graph 1 [PyStr "requirements"; PyStr "DockerRequirement"; PyStr "dockerPull"];
    [PyStr "s:commitHash"] ].

Definition table_targets (table : list (string * list (list scalar)))
  : list (list scalar) :=
  List.concat (map snd table).

(** A location no assignment of a run reaches: it parts ways with every
    destination of the table and every place of the assembler. *)
Definition untouched (q : list scalar) : bool :=
  forallb (fun p => diverge p q) (table_targets OGC_CWL_KEY_MAP ++ assembler_paths).

Definition saved_message (file : string) : string :=
  "CWL workflow saved to " ++ file.

(** [os.getenv(name)] in world [w]. *)
Definition env_value (name : string) (w : world) : value :=
  match lookup name (environ w) with
  | Some s => Atom (PyStr s)
  | None => Atom PyNone
  end.

(** The world a completed run leaves: one more file, the output directory,
    the warnings of the field mapper and of the two loops, one line on
    standard output. *)
Definition world_after (dir : string) (w : world) (c : dict)
    (ins outs : list dict) (doc : value) : world :=
  mkWorld ((workflow_file dir w, doc) :: files w)
          (dirs_after dir w) (faults w) (environ w) (today w)
          (warnings w ++ missing_warnings c OGC_CWL_KEY_MAP
             ++ input_warnings ins ++ output_warnings outs)%list
          (stdout w ++ [saved_message (workflow_file dir w)])%list.

(** The dumped document [doc] against the template [t] it was made from. *)
Definition run_report (t : value) (w : world) (c : dict) (ins outs : list dict)
    (doc : value) : Prop :=
  (forall key targets p raw,
     In (key, targets) OGC_CWL_KEY_MAP -> In p targets ->
     dict_get c (PyStr key) = Some raw ->
     get_path doc p = Ok (normalized p raw))
  /\ (forall key targets p,
        In (key, targets) OGC_CWL_KEY_MAP -> In p targets ->
        dict_get c (PyStr key) = None ->
        get_path doc p = get_path t p)
  /\ (forall q, untouched q = true -> get_path doc q = get_path t q)
  /\ get_path doc [PyStr "s:dateCreated"] = Ok (Atom (today w))
  /\ get_path doc [PyStr "s:softwareVersion"] = Ok (Atom (PyStr "1.0.0"))
  /\ get_path doc (graph 1 [PyStr "requirements"; PyStr "DockerRequirement";
                            PyStr "dockerPull"])
     = Ok (env_value "DOCKER_TAG" w)
  /\ get_path doc [PyStr "s:commitHash"] = Ok (env_value "GIT_COMMIT_HASH" w)
  /\ get_path doc (graph 0 [PyStr "inputs"]) = Ok (PyDict (map workflow_pair ins))
  /\ get_path doc (graph 1 [PyStr "inputs"]) = Ok (PyDict (process_pairs 1 ins))
  /\ get_path doc (graph 0 [PyStr "steps"; PyStr "process"; PyStr "in"])
     = Ok (PyDict (map step_pair ins))
  /\ get_path doc (graph 0 [PyStr "outputs"])
     = Ok (PyDict (merge_dicts (map singleton (map workflow_output_pair outs))))
  /\ get_path doc (graph 1 [PyStr "outputs"])
     = Ok (PyDict (merge_dicts (map singleton (map process_output_pair outs))))
  /\ get_path doc (graph 0 [PyStr "steps"; PyStr "process"; PyStr "out"])
     = Ok (PyList (map (fun _ => Atom (PyStr "outputs_result")) outs)).


(** What stops the input loop at element [x]: an element that is no mapping
    has no [get]; a name that is a list or a mapping cannot be hashed. *)
Definition input_defect (x : value) : option exn :=
  match x with
  | PyDict d => if hashable_name d then None else Some TypeError
  | _ => Some AttributeError
  end.

(** Two worlds with the same files, faults, environment and standard
    output. *)
Definition same_files (w0 w : world) : Prop :=
  files w = files w0 /\ faults w = faults w0 /\ environ w = environ w0
  /\ stdout w = stdout w0.

(** A computation that leaves the files, the environment and the standard
    output as they are, however it ends. *)
Definition quiet {A} (m : M A) : Prop :=
  forall w r w', m w = (r, w') -> same_files w w'.

End Reports.

(** [deploy_app_pack] and the script around it. *)
Module DeployPack.
Import Py Deploy.

(** [bool(v)] *)
Definition truthy (v : value) : bool :=
  match v with
  | Atom PyNone => false
  | Atom (PyBool b) => b
  | Atom (PyInt n) => negb (n =? 0)
  | Atom (PyStr EmptyString) => false
  | Atom (PyStr _) => true
  | Atom (PyDate _ _ _) => true
  | PyList [] => false
  | PyList _ => true
  | PyDict [] => false
  | PyDict _ => true
  end.

Definition token_missing : exc :=
  Builtin (ValueError "Environment variable `MAAP_PGT` is not set.").

Definition request_headers (token : string) : list (string * string) :=
  [("proxy-ticket", token); ("Content-Type", "application/json")].

Section HTTP.

Variable json_dumps : value -> result string.
Variable http : request -> reply.

(** [deploy_app_pack(process_cwl_url, app_pack_registry, template_file)] in
    world [w], of which it reads the template file and [MAAP_PGT]. *)
Definition deploy_app_pack (process_cwl_url app_pack_registry template_file : string)
    (w : Build.world) : Net bool :=
  match Build.lookup template_file (Build.files w) with
  | None => nraise (Builtin OSError)
  | Some data =>
      nbind (nlift (dict_method_get data "executionUnit" (PyDict []))) (fun unit =>
      nbind (nlift (dict_method_get unit "href" (Atom PyNone))) (fun href =>
      nbind (if truthy href
             then nlift (Build.set_path_value data [PyStr "executionUnit"; PyStr "href"]
                                        (Atom (PyStr process_cwl_url)))
             else nret data) (fun data =>
      match Build.lookup "MAAP_PGT" (Build.environ w) with
      | None | Some EmptyString => nraise token_missing
      | Some maap_pgt_token =>
          submit_request json_dumps http app_pack_registry data
                         (request_headers maap_pgt_token)
      end)))
  end.

(** The 409 branch of [submit_request]: the inner [try] under its handler. *)
Definition fallback (url : string) (data : value) (headers : list (string * string))
    (r : response) : Net bool :=
  try_except (put_fallback json_dumps http url data headers r)
    (fun e' => if fallback_catches e' then nret false else nraise e').

(** The script: the exit status of the process.  It opens the template once
    itself, then calls [deploy_app_pack] and exits with 1 when that returns
    a false value; an exception that nobody catches ends a Python process
    with status 1 as well. *)
Definition main (process_cwl_url app_pack_register_endpoint app_pack_template_file : string)
    (w : Build.world) (sent : list request) : Z * list request :=
  match Build.lookup app_pack_template_file (Build.files w) with
  | None => (1, sent)
  | Some _ =>
      match deploy_app_pack process_cwl_url app_pack_register_endpoint
                            app_pack_template_file w sent with
      | (Return true, sent') => (0, sent')
      | (Return false, sent') => (1, sent')
      | (Propagate _, sent') => (1, sent')
      end
  end.

End HTTP.

(** [data.get("executionUnit", {})] *)
Definition execution_unit (d : dict) : value :=
  match dict_get d (PyStr "executionUnit") with
  | Some v => v
  | None => PyDict []
  end.

(** [data.get("executionUnit", {}).get("href")] on a unit that is a
    mapping. *)
Definition href_of (u : dict) : value :=
  match dict_get u (PyStr "href") with
  | Some v => v
  | None => Atom PyNone
  end.

(** What stops [deploy_app_pack] before the token is looked at: a template
    file that cannot be opened, a template that is no mapping, an
    [executionUnit] that is no mapping. *)
Definition template_defect (loaded : option value) : option exn :=
  match loaded with
  | None => Some OSError
  | Some (PyDict d) =>
      match execution_unit d with
      | PyDict _ => None
      | _ => Some AttributeError
      end
  | Some _ => Some AttributeError
  end.

(** The exception the POST block ends with, if any: what the transport
    raised, or the [HTTPError] of [raise_for_status]. *)
Definition post_error (answer : reply) : option exc :=
  match answer with
  | Response r =>
      if (400 <=? status_code r) && (status_code r <? 600)
      then Some (HTTPError r) else None
  | Failure e => Some e
  end.

(** The process id a 409 answer carries, when it carries one. *)
Definition process_id_of (r : response) : option value :=
  match json_body r with
  | Some (PyDict d) =>
      match getitem (PyDict d) (PyStr "additionalProperties") with
      | Ok props =>
          match getitem props (PyStr "processID") with
          | Ok process_id => Some process_id
          | Raise _ => None
          end
      | Raise _ => None
      end
  | _ => None
  end.

(** A 409 answer that names no process: the body is not JSON, or it is an
    object without [additionalProperties], or with an [additionalProperties]
    object without [processID]. *)
Definition names_no_process (r : response) : Prop :=
  json_body r = None
  \/ (exists d, json_body r = Some (PyDict d)
                /\ dict_get d (PyStr "additionalProperties") = None)
  \/ (exists d p, json_body r = Some (PyDict d)
                  /\ dict_get d (PyStr "additionalProperties") = Some (PyDict p)
                  /\ dict_get p (PyStr "processID") = None).

(** The answer to the POST says the process exists already. *)
Definition conflict (answer : reply) : option response :=
  match post_error answer with
  | Some (HTTPError r) => if status_code r =? 409 then Some r else None
  | _ => None
  end.

(** An application-package template, and a world that holds it. *)
Definition package : dict :=
  [(PyStr "processDescription", PyDict [(PyStr "id", Atom (PyStr "demo"))]);
   (PyStr "executionUnit",
    PyDict [(PyStr "href", Atom (PyStr "placeholder"));
            (PyStr "type", Atom (PyStr "application/cwl"))])].

Definition package_world (template : value) (env : list (string * string))
  : Build.world :=
  Build.mkWorld [("templates/ogcapppkg.yml", template)] [] [] env (PyDate 2026 11 4)
                [] [].

End DeployPack.

(* ================================================================== *)
(** * Facts about the Python fragment *)
(* ================================================================== *)

Module PyFacts.
Import Py.

(** ** Key equality *)

Lemma scalar_eqb_canon (a b : scalar) :
  scalar_eqb a b = true <-> canon a = canon b.
Proof.
  unfold scalar_eqb.
  destruct (canon a) as [|x|n|s|y m d] eqn:A, (canon b) as [|x'|n'|s'|y' m' d'] eqn:B;
    try (split; [discriminate | congruence]);
    try (split; reflexivity).
  - destruct a as [|[]| | |]; discriminate.
  - rewrite Z.eqb_eq. split; congruence.
  - rewrite String.eqb_eq. split; congruence.
  - rewrite !andb_true_iff, !Z.eqb_eq. split.
    + intros [[-> ->] ->]. reflexivity.
    + intros [= -> -> ->]. auto.
Qed.

Lemma scalar_eqb_refl (a : scalar) : scalar_eqb a a = true.
Proof. apply scalar_eqb_canon. reflexivity. Qed.

Lemma scalar_eqb_sym (a b : scalar) : scalar_eqb a b = scalar_eqb b a.
Proof.
  destruct (scalar_eqb a b) eqn:E, (scalar_eqb b a) eqn:F; auto.
  - apply scalar_eqb_canon in E. symmetry in E.
    apply scalar_eqb_canon in E. congruence.
  - apply scalar_eqb_canon in F. symmetry in F.
    apply scalar_eqb_canon in F. congruence.
Qed.

Lemma scalar_eqb_right (a b b' : scalar) :
  scalar_eqb b b' = true -> scalar_eqb a b = scalar_eqb a b'.
Proof.
  intros E. apply scalar_eqb_canon in E. unfold scalar_eqb. now rewrite E.
Qed.

Lemma scalar_eqb_str (s t : string) :
  scalar_eqb (PyStr s) (PyStr t) = String.eqb s t.
Proof. reflexivity. Qed.

Lemma scalar_eqb_str_r (a : scalar) (s : string) :
  scalar_eqb a (PyStr s) = true -> a = PyStr s.
Proof.
  intros H. apply scalar_eqb_canon in H.
  destruct a as [|[]| | |]; simpl in H; congruence.
Qed.

(** ** Dictionaries *)

Lemma dict_get_set_same (d : dict) (k : scalar) (v : value) :
  dict_get (dict_set d k v) k = Some v.
Proof.
  induction d as [|[k' v'] d IH]; simpl.
  - now rewrite scalar_eqb_refl.
  - destruct (scalar_eqb k' k) eqn:E; simpl; rewrite E; auto.
Qed.

Lemma dict_get_set_other (d : dict) (k k' : scalar) (v : value) :
  scalar_eqb k k' = false ->
  dict_get (dict_set d k v) k' = dict_get d k'.
Proof.
  intros N. induction d as [|[k0 v0] d IH]; simpl.
  - now rewrite N.
  - destruct (scalar_eqb k0 k) eqn:E; simpl.
    + rewrite scalar_eqb_sym, <- (scalar_eqb_right k' k0 k E), scalar_eqb_sym in N.
      now rewrite N.
    + destruct (scalar_eqb k0 k'); auto.
Qed.

Lemma dict_get_eqb (d : dict) (k k' : scalar) :
  scalar_eqb k k' = true -> dict_get d k = dict_get d k'.
Proof.
  intros E. induction d as [|[k0 v0] d IH]; simpl; auto.
  rewrite (scalar_eqb_right k0 k k' E). now rewrite IH.
Qed.

Lemma dict_set_fresh (d : dict) (k : scalar) (v : value) :
  existsb (scalar_eqb k) (dict_keys d) = false ->
  dict_set d k v = (d ++ [(k, v)])%list.
Proof.
  induction d as [|[k' v'] d IH]; simpl; auto.
  intros H. apply orb_false_iff in H as [H1 H2].
  rewrite scalar_eqb_sym, H1. now rewrite IH.
Qed.

(** ** Lists *)

Lemma list_update_length (l : list value) (n : nat) (v : value) :
  List.length (list_update l n v) = List.length l.
Proof.
  revert n. induction l as [|x l IH]; intros [|n]; simpl; auto.
Qed.

Lemma nth_list_update_same (l : list value) (n : nat) (v : value) :
  (n < List.length l)%nat -> nth_error (list_update l n v) n = Some v.
Proof.
  revert n. induction l as [|x l IH]; intros [|n] H; simpl in *; try lia; auto.
  apply IH. lia.
Qed.

Lemma nth_list_update_other (l : list value) (n m : nat) (v : value) :
  n <> m -> nth_error (list_update l n v) m = nth_error l m.
Proof.
  revert n m. induction l as [|x l IH]; intros [|n] [|m] H; simpl; auto;
    try congruence.
Qed.

Lemma resolve_lt (len : nat) (i : Z) (n : nat) :
  resolve len i = Some n -> (n < len)%nat.
Proof.
  unfold resolve. destruct (i <? 0) eqn:S;
    (destruct (_ && _) eqn:E; [|discriminate]);
    apply andb_true_iff in E as [E1 E2];
    apply Z.leb_le in E1; apply Z.ltb_lt in E2;
    intros [= <-]; lia.
Qed.

Lemma resolve_nonneg (len : nat) (i : Z) (n : nat) :
  0 <= i -> resolve len i = Some n -> n = Z.to_nat i.
Proof.
  unfold resolve. intros H. destruct (i <? 0) eqn:S.
  - apply Z.ltb_lt in S. lia.
  - destruct (_ && _); [|discriminate]. now intros [= <-].
Qed.

Lemma setitem_atom (a k : scalar) (v c' : value) :
  setitem (Atom a) k v <> Ok c'.
Proof. discriminate. Qed.

Ltac atom_setitem :=
  let H := fresh in intros H; exfalso; exact (setitem_atom _ _ _ _ H).

Lemma getitem_setitem_slot (c c' : value) (k k' : scalar) (v : value) :
  setitem c k v = Ok c' -> same_slot c k k' = true -> getitem c' k' = Ok v.
Proof.
  destruct c as [a|l|d]; [atom_setitem| |]; simpl.
  - destruct (as_index k) as [i|]; [|discriminate].
    destruct (resolve (List.length l) i) as [n|] eqn:R; [|discriminate].
    intros [= <-]. simpl. rewrite list_update_length.
    destruct (as_index k') as [j|]; [|discriminate].
    destruct (resolve (List.length l) j) as [m|] eqn:R'; [|discriminate].
    intros E. apply Nat.eqb_eq in E. subst m.
    rewrite nth_list_update_same; auto. eapply resolve_lt; eauto.
  - intros [= <-] E. simpl.
    rewrite <- (dict_get_eqb _ k k' E), dict_get_set_same. reflexivity.
Qed.

Lemma getitem_setitem_other (c c' : value) (k k' : scalar) (v : value) :
  setitem c k v = Ok c' -> same_slot c k k' = false ->
  getitem c' k' = getitem c k'.
Proof.
  destruct c as [a|l|d]; [atom_setitem| |]; simpl.
  - destruct (as_index k) as [i|]; [|discriminate].
    destruct (resolve (List.length l) i) as [n|] eqn:R; [|discriminate].
    intros [= <-]. simpl. rewrite list_update_length.
    destruct (as_index k') as [j|]; auto.
    destruct (resolve (List.length l) j) as [m|] eqn:R'; auto.
    intros E. apply Nat.eqb_neq in E.
    now rewrite nth_list_update_other.
  - intros [= <-] E. simpl. now rewrite dict_get_set_other.
Qed.

Lemma same_slot_getitem (c : value) (k k' : scalar) :
  same_slot c k k' = true -> getitem c k' = getitem c k.
Proof.
  destruct c as [a|l|d]; simpl; try discriminate.
  - destruct (as_index k) as [i|]; [|discriminate].
    destruct (as_index k') as [j|]; [|discriminate].
    destruct (resolve (List.length l) i) as [n|]; [|discriminate].
    destruct (resolve (List.length l) j) as [m|]; [|discriminate].
    intros E. apply Nat.eqb_eq in E. now subst.
  - intros E. now rewrite (dict_get_eqb d k k' E).
Qed.

Lemma getitem_ok_slot (c x : value) (k : scalar) :
  getitem c k = Ok x -> (exists a, c = Atom a) \/ same_slot c k k = true.
Proof.
  destruct c as [a|l|d]; simpl; eauto.
  - destruct (as_index k) as [i|]; [|discriminate].
    destruct (resolve (List.length l) i) as [n|]; [|discriminate].
    intros _. right. apply Nat.eqb_refl.
  - intros _. right. apply scalar_eqb_refl.
Qed.

Lemma setitem_ok_slot (c c' : value) (k : scalar) (v : value) :
  setitem c k v = Ok c' -> same_slot c k k = true.
Proof.
  destruct c as [a|l|d]; [atom_setitem| |]; simpl.
  - destruct (as_index k) as [i|]; [|discriminate].
    destruct (resolve (List.length l) i) as [n|]; [|discriminate].
    intros _. apply Nat.eqb_refl.
  - intros _. apply scalar_eqb_refl.
Qed.

(** An item that can be read from a list or a dictionary can be assigned. *)
Lemma getitem_ok_setitem (c x : value) (k : scalar) (v : value) :
  getitem c k = Ok x -> (forall a, c <> Atom a) ->
  exists c', setitem c k v = Ok c'.
Proof.
  destruct c as [a|l|d]; simpl; intros H N.
  - now destruct (N a).
  - destruct (as_index k) as [i|]; [|discriminate].
    destruct (resolve (List.length l) i) as [n|]; [|discriminate]. eauto.
  - eauto.
Qed.

Lemma get_path_app (c : value) (p q : list scalar) :
  get_path c (p ++ q)%list = rbind (get_path c p) (fun c' => get_path c' q).
Proof.
  revert c. induction p as [|k p IH]; intros c; simpl; auto.
  destruct (getitem c k); simpl; auto.
Qed.

End PyFacts.

(* ================================================================== *)
(** * Path assignment *)
(* ================================================================== *)

Module PathFacts.
Import Py PyFacts Build Paths.

Lemma set_path_value_cons (w : value) (k k2 : scalar) (rest : list scalar) (v : value) :
  set_path_value w (k :: k2 :: rest) v =
  rbind (getitem w k) (fun inner =>
  rbind (set_path_value inner (k2 :: rest) v) (fun inner' =>
  setitem w k inner')).
Proof. reflexivity. Qed.

Lemma set_path_value_atom (p : list scalar) (a : scalar) (v : value) :
  exists e, set_path_value (Atom a) p v = Raise e.
Proof.
  revert a. induction p as [|k [|k2 rest] IH]; intros a.
  - simpl. eauto.
  - cbn [set_path_value setitem]. eauto.
  - rewrite set_path_value_cons.
    destruct (getitem (Atom a) k) as [inner|e] eqn:G; cbn [rbind]; eauto.
    assert (exists b, inner = Atom b) as [b ->].
    { destruct a; simpl in G; try discriminate.
      destruct (as_index k); [|discriminate].
      destruct (resolve _ _); [|discriminate].
      destruct (String.get _ _); [|discriminate].
      injection G as <-. eauto. }
    destruct (IH b) as [e E]. rewrite E. cbn [rbind]. eauto.
Qed.

Lemma set_path_value_head (w w' : value) (k : scalar) (p : list scalar) (v : value) :
  set_path_value w (k :: p) v = Ok w' -> exists x, setitem w k x = Ok w'.
Proof.
  destruct p as [|k2 rest].
  - simpl. eauto.
  - rewrite set_path_value_cons.
    destruct (getitem w k); cbn [rbind]; [|discriminate].
    destruct (set_path_value _ _ _); cbn [rbind]; [|discriminate]. eauto.
Qed.

(** Reading back what was assigned. *)
Lemma get_set_same (p : list scalar) (w w' v : value) :
  set_path_value w p v = Ok w' -> get_path w' p = Ok v.
Proof.
  revert w w'. induction p as [|k [|k2 rest] IH]; intros w w'.
  - discriminate.
  - simpl. intros H.
    rewrite (getitem_setitem_slot _ _ _ _ _ H (setitem_ok_slot _ _ _ _ H)).
    reflexivity.
  - rewrite set_path_value_cons.
    destruct (getitem w k) as [inner|] eqn:G; cbn [rbind]; [|discriminate].
    destruct (set_path_value inner (k2 :: rest) v) as [inner'|] eqn:S; cbn [rbind];
      [|discriminate].
    intros H. change (get_path w' (k :: k2 :: rest))
      with (rbind (getitem w' k) (fun c => get_path c (k2 :: rest))).
    rewrite (getitem_setitem_slot _ _ _ _ _ H (setitem_ok_slot _ _ _ _ H)).
    cbn [rbind]. now apply (IH inner).
Qed.

(** The frame of an assignment. *)
Lemma get_set_apart (p q : list scalar) (w w' v : value) :
  set_path_value w p v = Ok w' -> apart w p q = true ->
  get_path w' q = get_path w q.
Proof.
  revert q w w'. induction p as [|k p IH]; intros [|k' q] w w' H A;
    try discriminate.
  simpl in A.
  change (rbind (getitem w' k') (fun c => get_path c q)
          = rbind (getitem w k') (fun c => get_path c q)).
  destruct (same_slot w k k') eqn:E.
  - destruct (getitem w k) as [inner|] eqn:G; [|discriminate].
    destruct p as [|k2 rest]; [destruct q; discriminate|].
    rewrite set_path_value_cons, G in H. cbn [rbind] in H.
    destruct (set_path_value inner (k2 :: rest) v) as [inner'|] eqn:S;
      cbn [rbind] in H; [|discriminate].
    rewrite (getitem_setitem_slot _ _ _ _ _ H E).
    rewrite (same_slot_getitem _ _ _ E), G. simpl.
    eapply IH; eauto.
  - destruct (set_path_value_head _ _ _ _ _ H) as [x Hx].
    now rewrite (getitem_setitem_other _ _ _ _ _ Hx E).
Qed.

Lemma plain_eqb (k k' : scalar) :
  plain k = true -> plain k' = true -> scalar_eqb k k' = true -> k = k'.
Proof.
  intros P P' E. apply scalar_eqb_canon in E.
  destruct k as [|[]| | |], k' as [|[]| | |]; simpl in *; congruence.
Qed.

Lemma plain_slot (c : value) (k k' : scalar) :
  plain k = true -> plain k' = true -> scalar_eqb k k' = false ->
  same_slot c k k' = false.
Proof.
  intros P P' N. destruct c as [a|l|d]; simpl; auto.
  destruct k as [| |i| |], k' as [| |j| |]; simpl in *; try discriminate; auto.
  destruct (resolve _ i) as [n|] eqn:R; auto.
  destruct (resolve _ j) as [m|] eqn:R'; auto.
  apply Z.leb_le in P, P'.
  apply (resolve_nonneg _ _ _ P) in R. apply (resolve_nonneg _ _ _ P') in R'.
  apply Nat.eqb_neq. intros Heq. unfold scalar_eqb in N. simpl in N.
  apply Z.eqb_neq in N. lia.
Qed.

Lemma diverge_apart (p q : list scalar) (w w' v : value) :
  set_path_value w p v = Ok w' -> diverge p q = true -> apart w p q = true.
Proof.
  revert q w w'. induction p as [|k p IH]; intros [|k' q] w w' H D;
    try discriminate.
  simpl in D. apply andb_true_iff in D as [D1 D]. apply andb_true_iff in D1 as [P P'].
  simpl. destruct (same_slot w k k') eqn:E; auto.
  destruct (scalar_eqb k k') eqn:K.
  - destruct p as [|k2 rest]; [destruct q; discriminate|].
    rewrite set_path_value_cons in H.
    destruct (getitem w k) as [inner|]; cbn [rbind] in H; [|discriminate].
    destruct (set_path_value inner (k2 :: rest) v) eqn:S; cbn [rbind] in H;
      [|discriminate].
    eapply IH; eauto.
  - now rewrite (plain_slot w k k' P P' K) in E.
Qed.

Lemma get_set_diverge (p q : list scalar) (w w' v : value) :
  set_path_value w p v = Ok w' -> diverge p q = true ->
  get_path w' q = get_path w q.
Proof.
  intros H D. eapply get_set_apart; eauto. eapply diverge_apart; eauto.
Qed.

Lemma getitem_atom (a : scalar) (k : scalar) (x : value) :
  getitem (Atom a) k = Ok x -> exists b, x = Atom b.
Proof.
  destruct a; simpl; try discriminate.
  destruct (as_index k); [|discriminate].
  destruct (resolve _ _); [|discriminate].
  destruct (String.get _ _); [|discriminate].
  intros [= <-]. eauto.
Qed.

Lemma assignable_setitem (parent : value) (k : scalar) (v : value) :
  assignable parent k = true -> exists c, setitem parent k v = Ok c.
Proof.
  destruct parent as [a|l|d]; simpl; try discriminate; eauto.
  destruct (as_index k); [|discriminate].
  destruct (resolve _ _); [|discriminate]. eauto.
Qed.

(** All of [path[:-1]] can be read and the last segment can be assigned:
    the assignment goes through. *)
Lemma set_path_value_succeeds (p : list scalar) (w parent v : value) :
  p <> [] ->
  get_path w (removelast p) = Ok parent ->
  assignable parent (last p PyNone) = true ->
  exists w', set_path_value w p v = Ok w'.
Proof.
  revert w. induction p as [|k [|k2 rest] IH]; intros w N G A.
  - congruence.
  - simpl in G. injection G as ->. now apply assignable_setitem.
  - rewrite set_path_value_cons.
    change (removelast (k :: k2 :: rest)) with (k :: removelast (k2 :: rest)) in G.
    change (last (k :: k2 :: rest) PyNone) with (last (k2 :: rest) PyNone) in A.
    change (rbind (getitem w k) (fun c => get_path c (removelast (k2 :: rest)))
            = Ok parent) in G.
    destruct (getitem w k) as [inner|] eqn:E; cbn [rbind] in *; [|discriminate].
    destruct (IH inner ltac:(discriminate) G A) as [inner' S].
    rewrite S. cbn [rbind].
    apply getitem_ok_setitem with (x := inner); auto.
    intros a ->. destruct (getitem_atom _ _ _ E) as [b ->].
    destruct (set_path_value_atom (k2 :: rest) b v) as [e F]. congruence.
Qed.

(** A read of [path[:-1]] that raises makes the assignment raise the same. *)
Lemma set_path_value_fails (p : list scalar) (w v : value) (e : exn) :
  get_path w (removelast p) = Raise e -> set_path_value w p v = Raise e.
Proof.
  revert w. induction p as [|k [|k2 rest] IH]; intros w G; try discriminate.
  rewrite set_path_value_cons.
  change (rbind (getitem w k) (fun c => get_path c (removelast (k2 :: rest)))
          = Raise e) in G.
  destruct (getitem w k) as [inner|]; cbn [rbind] in *; [|congruence].
  now rewrite (IH inner G).
Qed.

Lemma missing_segment_raises (p : list scalar) (c : value) :
  missing_segment c p = true ->
  exists e, get_path c p = Raise e /\ is_lookup_error e = true.
Proof.
  revert c. induction p as [|k rest IH]; intros c; [discriminate|].
  change (get_path c (k :: rest))
    with (rbind (getitem c k) (fun c' => get_path c' rest)).
  assert (L : forall e, is_lookup_error e = true ->
              exists e', rbind (Raise e) (fun c' => get_path c' rest) = Raise e'
                         /\ is_lookup_error e' = true)
    by (intros e He; exists e; split; [reflexivity | exact He]).
  destruct c as [a|l|d]; simpl.
  - destruct a; try discriminate.
    destruct (as_index k); [|discriminate].
    destruct (resolve _ _); [|intros _; now apply L].
    destruct (String.get _ _); [|intros _; now apply L]. apply IH.
  - destruct (as_index k); [|discriminate].
    destruct (resolve _ _); [|intros _; now apply L].
    destruct (nth_error _ _); [|intros _; now apply L]. apply IH.
  - destruct (dict_get d k); [|intros _; now apply L]. apply IH.
Qed.

Lemma keeps_dict (p q : list scalar) (w w' v : value) :
  keeps p q = true -> set_path_value w p v = Ok w' ->
  is_dict_at w q = true -> is_dict_at w' q = true.
Proof.
  revert q w w'. induction p as [|k p IH]; intros q w w' K H D.
  - destruct q; discriminate.
  - destruct q as [|k' q].
    + unfold is_dict_at in *. simpl in *.
      destruct w as [a|l|d]; try discriminate.
      destruct (set_path_value_head _ _ _ _ _ H) as [x Hx].
      simpl in Hx. now injection Hx as <-.
    + simpl in K. apply andb_true_iff in K as [K1 K].
      apply andb_true_iff in K1 as [P P'].
      unfold is_dict_at in *.
      change (get_path w' (k' :: q))
        with (rbind (getitem w' k') (fun c => get_path c q)).
      change (get_path w (k' :: q))
        with (rbind (getitem w k') (fun c => get_path c q)) in D.
      destruct (scalar_eqb k k') eqn:E.
      * apply (plain_eqb _ _ P P') in E. subst k'.
        destruct p as [|k2 rest]; [destruct q; discriminate|].
        rewrite set_path_value_cons in H.
        destruct (getitem w k) as [inner|] eqn:G; cbn [rbind] in *; [|discriminate].
        destruct (set_path_value inner (k2 :: rest) v) as [inner'|] eqn:S;
          cbn [rbind] in H; [|discriminate].
        rewrite (getitem_setitem_slot _ _ _ _ _ H (setitem_ok_slot _ _ _ _ H)).
        cbn [rbind]. eapply IH; eauto.
      * destruct (set_path_value_head _ _ _ _ _ H) as [x Hx].
        rewrite (getitem_setitem_other _ _ _ _ _ Hx (plain_slot w k k' P P' E)).
        exact D.
Qed.

End PathFacts.

(* ================================================================== *)
(** * Objects and the trees they stand for *)
(* ================================================================== *)

Module StoreFacts.
Import Py PyFacts Paths PathFacts Store.

(** ** Lists of options *)

Lemma all_length {A} (l : list (option A)) (r : list A) :
  all l = Some r -> List.length r = List.length l.
Proof.
  revert r. induction l as [|[a|] l IH]; intros r; simpl; try discriminate.
  - now intros [= <-].
  - destruct (all l) as [r'|]; [|discriminate]. intros [= <-]. simpl.
    now rewrite (IH r').
Qed.

Lemma all_map_some {A B} (f g : A -> option B) (l : list A) (r : list B) :
  all (map f l) = Some r ->
  (forall x t, In x l -> f x = Some t -> g x = Some t) ->
  all (map g l) = Some r.
Proof.
  revert r. induction l as [|x l IH]; intros r; simpl; auto.
  destruct (f x) as [t|] eqn:F; [|discriminate].
  destruct (all (map f l)) as [r'|] eqn:E; [|discriminate].
  intros [= <-] H. rewrite (H x t (or_introl eq_refl) F).
  now rewrite (IH r' eq_refl (fun y u I => H y u (or_intror I))).
Qed.

Lemma all_nth {A B} (f : A -> option B) (l : list A) (r : list B) (n : nat) (x : A) :
  all (map f l) = Some r -> nth_error l n = Some x ->
  exists t, f x = Some t /\ nth_error r n = Some t.
Proof.
  revert r n. induction l as [|y l IH]; intros r n; simpl.
  - intros _. destruct n; discriminate.
  - destruct (f y) as [t|] eqn:F; [|discriminate].
    destruct (all (map f l)) as [r'|] eqn:E; [|discriminate].
    intros [= <-]. destruct n as [|n]; simpl.
    + intros [= <-]. eauto.
    + now apply IH.
Qed.

Lemma all_in {A B} (f : A -> option B) (l : list A) (r : list B) (x : A) :
  all (map f l) = Some r -> In x l -> exists t, f x = Some t.
Proof.
  intros H I. destruct (In_nth_error _ _ I) as [n N].
  destruct (all_nth f l r n x H N) as (t & F & _). eauto.
Qed.

(** ** The store *)

Lemma put_length (st : store) (r : nat) (o : object) :
  List.length (put st r o) = List.length st.
Proof.
  revert r. induction st as [|x st IH]; intros [|r]; simpl; auto.
Qed.

Lemma put_same (st : store) (r : nat) (o o0 : object) :
  nth_error st r = Some o0 -> nth_error (put st r o) r = Some o.
Proof.
  revert r. induction st as [|x st IH]; intros [|r]; simpl; try discriminate; auto.
Qed.

Lemma put_other (st : store) (r a : nat) (o : object) :
  r <> a -> nth_error (put st a o) r = nth_error st r.
Proof.
  revert r a. induction st as [|x st IH]; intros [|r] [|a] N; simpl; auto;
    try congruence.
Qed.

(** ** Lists without repetition *)

Lemma distinct_nodup (l : list nat) : distinct l = true -> NoDup l.
Proof.
  induction l as [|a l IH]; simpl; [constructor|].
  intros H. apply andb_true_iff in H as [H1 H2]. constructor; auto.
  intros I. apply negb_true_iff in H1.
  assert (existsb (Nat.eqb a) l = true)
    by (apply existsb_exists; exists a; split; [exact I | apply Nat.eqb_refl]).
  congruence.
Qed.

Lemma nodup_app (l l' : list nat) :
  NoDup (l ++ l') ->
  NoDup l /\ NoDup l' /\ forall a, In a l -> ~ In a l'.
Proof.
  induction l as [|x l IH]; simpl.
  - intros H. repeat split; auto. constructor.
  - intros H. inversion H as [|? ? N D]; subst.
    destruct (IH D) as (A & B & C). repeat split; auto.
    + constructor; auto. intros I. apply N. apply in_or_app. now left.
    + intros a [<-|I] I'; [apply N; apply in_or_app; now right|].
      exact (C a I I').
Qed.

Lemma flat_map_in_ext {A B} (f g : A -> list B) (l : list A) :
  (forall x, In x l -> f x = g x) -> flat_map f l = flat_map g l.
Proof.
  induction l as [|x l IH]; simpl; auto. intros H.
  rewrite (H x (or_introl eq_refl)), IH; auto.
Qed.

Lemma nodup_flat_map {A} (h : A -> list nat) (l : list A) (x : A) :
  NoDup (flat_map h l) -> In x l -> NoDup (h x).
Proof.
  induction l as [|y l IH]; simpl; [intros _ []|].
  intros H [<-|I]; destruct (nodup_app _ _ H) as (A1 & A2 & _); auto.
Qed.

(** ** More fuel changes nothing *)

Lemma load_reach_S (n : nat) (st : store) (c : item) (t : value) :
  load n st c = Some t ->
  load (S n) st c = Some t /\ reach (S n) st c = reach n st c.
Proof.
  revert c t. induction n as [|n IH]; intros [a|r] t; try discriminate.
  - intros H. split; [exact H | reflexivity].
  - intros H. split; [exact H | reflexivity].
  - intros H. change (load (S n) st (Ref r))
      with (match nth_error st r with
            | Some o =>
                match all (map (load n st) (children o)) with
                | Some l => Some (rebuild o l)
                | None => None
                end
            | None => None
            end) in H.
    change (load (S (S n)) st (Ref r))
      with (match nth_error st r with
            | Some o =>
                match all (map (load (S n) st) (children o)) with
                | Some l => Some (rebuild o l)
                | None => None
                end
            | None => None
            end).
    change (reach (S (S n)) st (Ref r))
      with (r :: match nth_error st r with
                 | Some o => flat_map (reach (S n) st) (children o)
                 | None => []
                 end).
    change (reach (S n) st (Ref r))
      with (r :: match nth_error st r with
                 | Some o => flat_map (reach n st) (children o)
                 | None => []
                 end).
    destruct (nth_error st r) as [o|] eqn:N; [|discriminate].
    destruct (all (map (load n st) (children o))) as [l|] eqn:A; [|discriminate].
    injection H as <-. split.
    + rewrite (all_map_some _ (load (S n) st) _ _ A); [reflexivity|].
      intros x u _ F. exact (proj1 (IH x u F)).
    + f_equal. apply flat_map_in_ext. intros x I.
      destruct (all_in _ _ _ x A I) as [u F]. exact (proj2 (IH x u F)).
Qed.

Lemma load_more (k n : nat) (st : store) (c : item) (t : value) :
  load n st c = Some t ->
  load (n + k) st c = Some t /\ reach (n + k) st c = reach n st c.
Proof.
  intros H. induction k as [|k [L R]].
  - rewrite Nat.add_0_r. auto.
  - rewrite Nat.add_succ_r. destruct (load_reach_S _ _ _ _ L) as [L' R'].
    split; [exact L' | congruence].
Qed.

Lemma load_more_r (k n : nat) (st : store) (c : item) (t : value) :
  load n st c = Some t ->
  load (k + n) st c = Some t /\ reach (k + n) st c = reach n st c.
Proof. rewrite Nat.add_comm. apply load_more. Qed.

(** ** Objects out of reach *)

Lemma load_put_outside (n : nat) (st : store) (a : nat) (o : object) (c : item) :
  ~ In a (reach n st c) -> load n (put st a o) c = load n st c.
Proof.
  revert c. induction n as [|n IH]; intros [b|r] H; try reflexivity.
  cbn [load]. cbn [reach] in H.
  assert (r <> a) by (intros ->; apply H; now left).
  rewrite (put_other _ _ _ o H0).
  destruct (nth_error st r) as [o'|] eqn:N; [|reflexivity].
  assert (E : map (load n (put st a o)) (children o') = map (load n st) (children o')).
  { apply map_ext_in. intros x I. apply IH. intros J. apply H. right.
    apply in_flat_map. exists x. auto. }
  now rewrite E.
Qed.

(** Loading after an object out of reach was replaced, with more fuel. *)
Lemma load_put_more (k n : nat) (st : store) (a : nat) (o : object) (c : item)
    (t : value) :
  load n st c = Some t -> ~ In a (reach n st c) ->
  load (k + n) (put st a o) c = Some t.
Proof.
  intros L H. destruct (load_more_r k _ _ _ _ L) as [L' R'].
  rewrite load_put_outside; [exact L'|]. now rewrite R'.
Qed.

(** ** One object and the document it stands for *)

Lemma dict_get_loaded (f : item -> option value) (es : list (scalar * item))
    (l : list value) (k : scalar) :
  all (map f (map snd es)) = Some l ->
  dict_get (combine (map fst es) l) k
  = match entry_get es k with
    | Some c => f c
    | None => None
    end.
Proof.
  revert l. induction es as [|[k' c] es IH]; intros l; simpl.
  - now intros [= <-].
  - destruct (f c) as [t|] eqn:F; [|discriminate].
    destruct (all (map f (map snd es))) as [l'|] eqn:A; [|discriminate].
    intros [= <-]. simpl. destruct (scalar_eqb k' k); auto.
Qed.

Lemma object_get_loaded (f : item -> option value) (o : object) (l : list value)
    (k : scalar) :
  all (map f (children o)) = Some l ->
  match object_get o k with
  | Ok c => In c (children o)
            /\ exists t, f c = Some t /\ Py.getitem (rebuild o l) k = Ok t
  | Raise e => Py.getitem (rebuild o l) k = Raise e
  end.
Proof.
  intros A. destruct o as [items|es]; cbn [object_get rebuild children Py.getitem] in *.
  - rewrite (all_length _ _ A), length_map.
    destruct (as_index k) as [i|]; [|reflexivity].
    destruct (resolve (List.length items) i) as [n|]; [|reflexivity].
    destruct (nth_error items n) as [c|] eqn:N.
    + destruct (all_nth _ _ _ _ _ A N) as (t & F & G).
      split; [exact (nth_error_In _ _ N)|]. exists t. now rewrite G.
    + assert (nth_error l n = None) as ->; [|reflexivity].
      apply nth_error_None. rewrite (all_length _ _ A), length_map.
      now apply nth_error_None.
  - rewrite (dict_get_loaded f es l k A).
    destruct (entry_get es k) as [c|] eqn:G; [|reflexivity].
    assert (I : In c (map snd es)).
    { clear A. induction es as [|[k' c'] es IH]; [discriminate|]. simpl in *.
      destruct (scalar_eqb k' k); [injection G as ->; now left | right; auto]. }
    split; [exact I|].
    destruct (all_in _ _ _ c A I) as [t F]. exists t. now rewrite F.
Qed.

Lemma entry_set_loaded (f g : item -> option value) (es : list (scalar * item))
    (l : list value) (k : scalar) (c' : item) (t' : value) :
  all (map f (map snd es)) = Some l ->
  g c' = Some t' ->
  (forall x t, In x (other_entries es k) -> f x = Some t -> g x = Some t) ->
  exists l',
    all (map g (map snd (entry_set es k c'))) = Some l'
    /\ combine (map fst (entry_set es k c')) l'
       = dict_set (combine (map fst es) l) k t'.
Proof.
  revert l. induction es as [|[k0 c0] es IH]; intros l; simpl.
  - intros [= <-] G _. exists [t']. simpl. now rewrite G.
  - destruct (f c0) as [t0|] eqn:F; [|discriminate].
    destruct (all (map f (map snd es))) as [l0|] eqn:A; [|discriminate].
    intros [= <-] G H. simpl. destruct (scalar_eqb k0 k) eqn:E; simpl.
    + exists (t' :: l0).
      rewrite G, (all_map_some f g _ _ A); [auto|]. intros x t I. now apply H.
    + destruct (IH l0 eq_refl G (fun x t I => H x t (or_intror I)))
        as (l' & A' & C').
      exists (t0 :: l'). rewrite (H c0 t0 (or_introl eq_refl) F), A', C'. auto.
Qed.

Lemma item_update_loaded (f g : item -> option value) (items : list item)
    (l : list value) (n : nat) (c' : item) (t' : value) :
  all (map f items) = Some l ->
  g c' = Some t' ->
  (forall x t, In x (other_items items n) -> f x = Some t -> g x = Some t) ->
  all (map g (item_update items n c')) = Some (list_update l n t').
Proof.
  revert l n. induction items as [|c0 items IH]; intros l n; simpl.
  - intros [= <-] _ _. reflexivity.
  - destruct (f c0) as [t0|] eqn:F; [|discriminate].
    destruct (all (map f items)) as [l0|] eqn:A; [|discriminate].
    intros [= <-] G H. destruct n as [|n]; simpl.
    + rewrite G, (all_map_some f g _ _ A); [auto|]. intros x t I. now apply H.
    + rewrite (H c0 t0 (or_introl eq_refl) F).
      now rewrite (IH l0 n eq_refl G (fun x t I => H x t (or_intror I))).
Qed.

Lemma object_set_loaded (f g : item -> option value) (o : object) (l : list value)
    (k : scalar) (c' : item) (t' : value) :
  all (map f (children o)) = Some l ->
  g c' = Some t' ->
  (forall x t, In x (others o k) -> f x = Some t -> g x = Some t) ->
  match object_set o k c' with
  | Ok o' =>
      exists l', all (map g (children o')) = Some l'
                 /\ Py.setitem (rebuild o l) k t' = Ok (rebuild o' l')
  | Raise e => Py.setitem (rebuild o l) k t' = Raise e
  end.
Proof.
  intros A G H.
  destruct o as [items|es]; cbn [object_set rebuild children Py.setitem others] in *.
  - rewrite (all_length _ _ A), length_map.
    destruct (as_index k) as [i|]; [|reflexivity].
    destruct (resolve (List.length items) i) as [n|]; [|reflexivity].
    exists (list_update l n t'). split; [|reflexivity].
    now apply (item_update_loaded f g).
  - destruct (entry_set_loaded f g es l k c' t' A G H) as (l' & A' & C').
    exists l'. split; [exact A'|]. now rewrite C'.
Qed.

(** Assigning what is there already changes nothing. *)
Lemma entry_set_same (es : list (scalar * item)) (k : scalar) (c : item) :
  entry_get es k = Some c -> entry_set es k c = es.
Proof.
  induction es as [|[k0 c0] es IH]; simpl; [discriminate|].
  destruct (scalar_eqb k0 k); [now intros [= ->] | intros H; now rewrite IH].
Qed.

Lemma item_update_same (items : list item) (n : nat) (c : item) :
  nth_error items n = Some c -> item_update items n c = items.
Proof.
  revert n. induction items as [|c0 items IH]; intros [|n]; simpl;
    try discriminate.
  - now intros [= ->].
  - intros H. now rewrite IH.
Qed.

Lemma object_set_same (o : object) (k : scalar) (c : item) :
  object_get o k = Ok c -> object_set o k c = Ok o.
Proof.
  destruct o as [items|es]; cbn [object_get object_set].
  - destruct (as_index k) as [i|]; [|discriminate].
    destruct (resolve (List.length items) i) as [n|]; [|discriminate].
    destruct (nth_error items n) as [c0|] eqn:N; [|discriminate].
    intros [= <-]. now rewrite item_update_same.
  - destruct (entry_get es k) as [c0|] eqn:G; [|discriminate].
    intros [= <-]. now rewrite entry_set_same.
Qed.

(** In an object whose slots reach different objects, what one slot reaches
    no other slot does. *)
Lemma other_entries_apart (h : item -> list nat) (es : list (scalar * item))
    (k : scalar) (c x : item) (a : nat) :
  NoDup (flat_map h (map snd es)) ->
  entry_get es k = Some c -> In x (other_entries es k) ->
  In a (h c) -> ~ In a (h x).
Proof.
  induction es as [|[k0 c0] es IH]; simpl; [discriminate|].
  intros N. destruct (nodup_app _ _ N) as (N1 & N2 & D).
  destruct (scalar_eqb k0 k).
  - intros [= <-] I A J. apply (D a A). apply in_flat_map. exists x. auto.
  - intros G [<-|I] A J.
    + apply (D a J). apply in_flat_map. exists c. split; [|exact A].
      clear -G. induction es as [|[k1 c1] es IH]; [discriminate|]. simpl in *.
      destruct (scalar_eqb k1 k); [injection G as ->; now left | right; auto].
    + exact (IH N2 G I A J).
Qed.

Lemma other_items_apart (h : item -> list nat) (items : list item)
    (n : nat) (c x : item) (a : nat) :
  NoDup (flat_map h items) ->
  nth_error items n = Some c -> In x (other_items items n) ->
  In a (h c) -> ~ In a (h x).
Proof.
  revert n. induction items as [|c0 items IH]; intros n; simpl;
    [intros _; destruct n; discriminate|].
  intros N. destruct (nodup_app _ _ N) as (N1 & N2 & D).
  destruct n as [|n]; simpl.
  - intros [= <-] I A J. apply (D a A). apply in_flat_map. exists x. auto.
  - intros G [<-|I] A J.
    + apply (D a J). apply in_flat_map. exists c. split; [|exact A].
      exact (nth_error_In _ _ G).
    + exact (IH n N2 G I A J).
Qed.

Lemma others_apart (h : item -> list nat) (o : object) (k : scalar)
    (c x : item) (a : nat) :
  NoDup (flat_map h (children o)) ->
  object_get o k = Ok c -> In x (others o k) ->
  In a (h c) -> ~ In a (h x).
Proof.
  destruct o as [items|es]; cbn [object_get others children].
  - destruct (as_index k) as [i|]; [|discriminate].
    destruct (resolve (List.length items) i) as [n|]; [|discriminate].
    destruct (nth_error items n) as [c0|] eqn:N; [|discriminate].
    intros D [= <-]. now apply other_items_apart with (n := n).
  - destruct (entry_get es k) as [c0|] eqn:G; [|discriminate].
    intros D [= <-]. now apply other_entries_apart with (k := k).
Qed.

Lemma others_children (o : object) (k : scalar) (x : item) :
  In x (others o k) -> In x (children o).
Proof.
  destruct o as [items|es]; cbn [others children].
  - destruct (as_index k) as [i|]; auto.
    destruct (resolve (List.length items) i) as [n|]; auto.
    revert n. induction items as [|c0 items IH]; intros [|n]; simpl; auto.
    intros [<-|I]; eauto.
  - induction es as [|[k0 c0] es IH]; simpl; auto.
    destruct (scalar_eqb k0 k); simpl; auto. intros [<-|I]; auto.
Qed.


(** ** Assignment in place and assignment on the tree *)

Lemma load_ref (n : nat) (st : store) (r : nat) :
  load (S n) st (Ref r)
  = match nth_error st r with
    | Some o =>
        match all (map (load n st) (children o)) with
        | Some l => Some (rebuild o l)
        | None => None
        end
    | None => None
    end.
Proof. reflexivity. Qed.

Lemma reach_ref (n : nat) (st : store) (r : nat) :
  reach (S n) st (Ref r)
  = r :: match nth_error st r with
         | Some o => flat_map (reach n st) (children o)
         | None => []
         end.
Proof. reflexivity. Qed.

Lemma load_leaf (n : nat) (st : store) (a : scalar) :
  load n st (Leaf a) = Some (Atom a).
Proof. now destruct n. Qed.

Lemma reach_leaf (n : nat) (st : store) (a : scalar) : reach n st (Leaf a) = [].
Proof. now destruct n. Qed.

Lemma set_path_value_step (st : store) (c : item) (k k2 : scalar)
    (rest : list scalar) (v : item) :
  set_path_value st c (k :: k2 :: rest) v
  = rbind (getitem st c k) (fun inner => set_path_value st inner (k2 :: rest) v).
Proof. reflexivity. Qed.

(** On a document no list or dictionary of which is shared, and for a value
    that is no part of it, [set_path_value] in place does to the objects
    what [Build.set_path_value] does to the tree: it raises the same
    exception, or it changes one object of the document, after which the
    objects stand for the tree [Build.set_path_value] returns. *)
Lemma assign_agrees (path : list scalar) :
  forall (n m : nat) (st : store) (c v : item) (doc vt : value),
    load n st c = Some doc ->
    NoDup (reach n st c) ->
    load m st v = Some vt ->
    (forall a, In a (reach n st c) -> ~ In a (reach m st v)) ->
    match Build.set_path_value doc path vt with
    | Ok doc' =>
        exists a o',
          In a (reach n st c)
          /\ set_path_value st c path v = Ok (put st a o')
          /\ load (m + n) (put st a o') c = Some doc'
    | Raise e => set_path_value st c path v = Raise e
    end.
Proof.
  induction path as [|k rest IH]; intros n m st c v doc vt L D Lv S;
    [reflexivity|].
  destruct c as [a|r].
  - (* a leaf *)
    rewrite load_leaf in L. injection L as <-.
    destruct rest as [|k2 rest]; [reflexivity|].
    rewrite set_path_value_cons, set_path_value_step. cbn [getitem].
    destruct (Py.getitem (Atom a) k) as [x|e] eqn:G; [|reflexivity].
    destruct (getitem_atom _ _ _ G) as [b ->]. cbn [rbind].
    specialize (IH n m st (Leaf b) v (Atom b) vt (load_leaf _ _ _)).
    rewrite reach_leaf in IH. specialize (IH (NoDup_nil _) Lv (fun a I => match I with end)).
    destruct (Build.set_path_value (Atom b) (k2 :: rest) vt) as [doc'|e].
    + destruct IH as (a0 & _ & [] & _).
    + exact IH.
  - (* a list or a dictionary *)
    destruct n as [|n]; [discriminate|].
    rewrite load_ref in L. rewrite reach_ref in D, S.
    destruct (nth_error st r) as [o|] eqn:N; [|discriminate].
    destruct (all (map (load n st) (children o))) as [l|] eqn:A; [|discriminate].
    injection L as <-.
    inversion D as [|? ? Dr Dc]; subst.
    assert (Out : forall a o' x t, In x (children o) ->
                    ~ In a (reach n st x) -> load n st x = Some t ->
                    load (m + n) (put st a o') x = Some t).
    { intros a o' x t _ H F. now apply load_put_more. }
    assert (Val : forall a o', In a (r :: flat_map (reach n st) (children o)) ->
                    load (m + n) (put st a o') v = Some vt).
    { intros a o' I. destruct (load_more n _ _ _ _ Lv) as [L' R'].
      rewrite load_put_outside; [exact L'|]. rewrite R'. now apply S. }
    destruct rest as [|k2 rest].
    + (* the last segment *)
      cbn [Build.set_path_value set_path_value setitem]. rewrite N.
      assert (Oth : forall o' x t, In x (others o k) -> load n st x = Some t ->
                                   load (m + n) (put st r o') x = Some t).
      { intros o' x t I F. apply Out; auto.
        - now apply others_children with (k := k).
        - intros J. apply Dr. apply in_flat_map. exists x. split; [|exact J].
          now apply others_children with (k := k). }
      destruct (object_set o k v) as [o'|e] eqn:E.
      * pose proof (object_set_loaded (load n st) (load (m + n) (put st r o'))
                      o l k v vt A (Val r o' (or_introl eq_refl)) (Oth o')) as B.
        rewrite E in B. destruct B as (l' & A' & W).
        rewrite W. exists r, o'. split; [rewrite reach_ref; now left|].
        split; [reflexivity|].
        rewrite Nat.add_succ_r, load_ref, (put_same _ _ _ _ N), A'. reflexivity.
      * pose proof (object_set_loaded (load n st) (load (m + n) (put st r o))
                      o l k v vt A (Val r o (or_introl eq_refl)) (Oth o)) as B.
        rewrite E in B. now rewrite B.
    + (* a segment before the last *)
      rewrite set_path_value_cons, set_path_value_step. cbn [getitem]. rewrite N.
      pose proof (object_get_loaded (load n st) o l k A) as G.
      destruct (object_get o k) as [c1|e] eqn:E; [|now rewrite G].
      destruct G as (I1 & t1 & F1 & G). rewrite G. cbn [rbind].
      specialize (IH n m st c1 v t1 vt F1 (nodup_flat_map _ _ _ Dc I1) Lv).
      assert (Sub : forall a, In a (reach n st c1) ->
                              In a (flat_map (reach n st) (children o)))
        by (intros a J; apply in_flat_map; exists c1; auto).
      specialize (IH (fun a J => S a (or_intror (Sub a J)))).
      destruct (Build.set_path_value t1 (k2 :: rest) vt) as [t1'|e]; [|exact IH].
      destruct IH as (a & o' & Ia & R & L1). cbn [rbind].
      assert (Na : r <> a) by (intros ->; exact (Dr (Sub _ Ia))).
      pose proof (object_set_loaded (load n st) (load (m + n) (put st a o'))
                    o l k c1 t1' A L1) as B.
      rewrite (object_set_same _ _ _ E) in B.
      destruct B as (l' & A' & W).
      { intros x t I F. apply Out; auto.
        - now apply others_children with (k := k).
        - exact (others_apart (reach n st) o k c1 x a Dc E I Ia). }
      rewrite W. exists a, o'.
      split; [rewrite reach_ref, N; right; now apply Sub|].
      split; [exact R|].
      rewrite Nat.add_succ_r, load_ref, (put_other _ _ _ _ Na), N, A'. reflexivity.
Qed.


Lemma separate_spec (n m : nat) (st : store) (c v : item) :
  separate n m st c v = true ->
  forall a, In a (reach n st c) -> ~ In a (reach m st v).
Proof.
  unfold separate. intros H a I J.
  pose proof (proj1 (forallb_forall _ _) H a I) as N.
  apply negb_true_iff in N.
  assert (existsb (Nat.eqb a) (reach m st v) = true)
    by (apply existsb_exists; exists a; split; [exact J | apply Nat.eqb_refl]).
  congruence.
Qed.

(** Reading an item in the store is reading in the document it stands
    for. *)
Lemma getitem_loaded (n : nat) (st : store) (c : item) (doc : value) (k : scalar) :
  load n st c = Some doc ->
  match getitem st c k with
  | Ok c' => exists t, load n st c' = Some t /\ Py.getitem doc k = Ok t
  | Raise e => Py.getitem doc k = Raise e
  end.
Proof.
  destruct c as [a|r].
  - rewrite load_leaf. intros [= <-]. cbn [getitem].
    destruct (Py.getitem (Atom a) k) as [x|e] eqn:G; [|reflexivity].
    destruct (getitem_atom _ _ _ G) as [b ->]. exists (Atom b).
    now rewrite load_leaf.
  - destruct n as [|n]; [discriminate|]. rewrite load_ref. cbn [getitem].
    destruct (nth_error st r) as [o|]; [|discriminate].
    destruct (all (map (load n st) (children o))) as [l|] eqn:A; [|discriminate].
    intros [= <-]. pose proof (object_get_loaded (load n st) o l k A) as G.
    destruct (object_get o k) as [c'|e]; [|exact G].
    destruct G as (_ & t & F & G). exists t.
    split; [exact (proj1 (load_reach_S _ _ _ _ F)) | exact G].
Qed.

Lemma get_path_loaded (q : list scalar) (n : nat) (st : store) (c : item)
    (doc : value) :
  load n st c = Some doc ->
  match get_path st c q with
  | Ok c' => exists t, load n st c' = Some t /\ Py.get_path doc q = Ok t
  | Raise e => Py.get_path doc q = Raise e
  end.
Proof.
  revert c doc. induction q as [|k q IH]; intros c doc L.
  - exists doc. auto.
  - cbn [get_path Py.get_path]. pose proof (getitem_loaded n st c doc k L) as G.
    destruct (getitem st c k) as [c'|e]; [|now rewrite G].
    destruct G as (t & L' & G). rewrite G. cbn [rbind]. now apply IH.
Qed.

Lemma entry_get_set (es : list (scalar * item)) (k : scalar) (v : item) :
  entry_get (entry_set es k v) k = Some v.
Proof.
  induction es as [|[k0 c0] es IH]; simpl.
  - now rewrite scalar_eqb_refl.
  - destruct (scalar_eqb k0 k) eqn:E; simpl; now rewrite E.
Qed.


Lemma store_get_path_app (st : store) (c : item) (p q : list scalar) :
  get_path st c (p ++ q)%list
  = rbind (get_path st c p) (fun c' => get_path st c' q).
Proof.
  revert c. induction p as [|k p IH]; intros c; simpl; auto.
  destruct (getitem st c k); simpl; auto.
Qed.

(** The loop, then the assignment. *)
Lemma set_path_value_last (st : store) (c : item) (p : list scalar) (k : scalar)
    (v : item) :
  set_path_value st c (p ++ [k])%list v
  = rbind (get_path st c p) (fun c' => setitem st c' k v).
Proof.
  revert c. induction p as [|k0 p IH]; intros c; [reflexivity|].
  change ((k0 :: p) ++ [k])%list with (k0 :: (p ++ [k]))%list.
  assert (E : set_path_value st c (k0 :: (p ++ [k])%list) v
              = rbind (getitem st c k0)
                  (fun inner => set_path_value st inner (p ++ [k])%list v))
    by (destruct p; reflexivity).
  rewrite E. cbn [get_path]. destruct (getitem st c k0); cbn [rbind]; auto.
Qed.

Lemma item_update_nth (items : list item) (n : nat) (v : item) :
  (n < List.length items)%nat -> nth_error (item_update items n v) n = Some v.
Proof.
  revert n. induction items as [|c items IH]; intros [|n]; simpl; try lia; auto.
  intros H. apply IH. lia.
Qed.

Lemma item_update_length (items : list item) (n : nat) (v : item) :
  List.length (item_update items n v) = List.length items.
Proof.
  revert n. induction items as [|c items IH]; intros [|n]; simpl; auto.
Qed.

Lemma object_get_set (o o' : object) (k : scalar) (v : item) :
  object_set o k v = Ok o' -> object_get o' k = Ok v.
Proof.
  destruct o as [items|es]; cbn [object_set].
  - destruct (as_index k) as [i|] eqn:I; [|discriminate].
    destruct (resolve (List.length items) i) as [n|] eqn:R; [|discriminate].
    intros [= <-]. cbn [object_get]. rewrite I, item_update_length, R.
    rewrite item_update_nth; [reflexivity|]. eapply resolve_lt; eauto.
  - intros [= <-]. cbn [object_get]. now rewrite entry_get_set.
Qed.

End StoreFacts.

(* ================================================================== *)
(** * The document assembler *)
(* ================================================================== *)

Module BuildFacts.
Import Py PyFacts Build Paths PathFacts Runs.

Lemma add_warnings_nil (w : world) : add_warnings w [] = w.
Proof. destruct w. unfold add_warnings. simpl. now rewrite app_nil_r. Qed.

Lemma add_warnings_app (w : world) (a b : list string) :
  add_warnings (add_warnings w a) b = add_warnings w (a ++ b)%list.
Proof. unfold add_warnings. simpl. now rewrite app_assoc. Qed.

(** ** Monad steps *)

Lemma bind_ok {A B} (m : M A) (k : A -> M B) (w w1 : world) (a : A) :
  m w = (Ok a, w1) -> bind m k w = k a w1.
Proof. unfold bind. now intros ->. Qed.

Lemma bind_raise {A B} (m : M A) (k : A -> M B) (w w1 : world) (e : exn) :
  m w = (Raise e, w1) -> bind m k w = (Raise e, w1).
Proof. unfold bind. now intros ->. Qed.

Lemma field_get (d : dict) (k : string) :
  dict_method_get (PyDict d) k (Atom PyNone) = Ok (field d k).
Proof. reflexivity. Qed.

(** ** The input loop *)

Lemma input_step_ok (acc : inputs_acc) (d : dict) (w : world) :
  hashable_name d = true ->
  name_seen (key_of d) (input_param_names acc) = false ->
  input_step acc (PyDict d) w =
  (Ok (mkInputs (key_of d :: input_param_names acc)
                (workflow_inputs acc ++ [singleton (workflow_pair d)])%list
                (step_inputs acc ++ [singleton (step_pair d)])%list
                (process_inputs acc
                 ++ [singleton (process_pair
                                  (Z.of_nat (List.length (process_inputs acc)) + 1) d)])%list),
   add_warnings w (if lacks_name_or_type d then [input_warning] else [])).
Proof.
  intros H F. unfold input_step, hashable_name, key_of in *.
  rewrite !field_get.
  unfold workflow_pair, process_pair, step_pair, key_of, lacks_name_or_type.
  destruct (field d "name") as [a| |] eqn:N; try discriminate.
  cbn [lift bind hashable]. rewrite F. cbn [lift bind].
  destruct (is_none (Atom a) || is_none (field d "type")).
  - reflexivity.
  - cbn [ret bind]. now rewrite add_warnings_nil.
Qed.

Lemma input_step_duplicate (acc : inputs_acc) (d : dict) (w : world) :
  hashable_name d = true ->
  name_seen (key_of d) (input_param_names acc) = true ->
  input_step acc (PyDict d) w =
  (Raise (ValueError (duplicate_message (field d "name"))), w).
Proof.
  intros H F. unfold input_step, hashable_name, key_of in *.
  rewrite !field_get.
  destruct (field d "name") as [a| |] eqn:N; try discriminate.
  cbn [lift bind hashable]. now rewrite F.
Qed.

Lemma process_pairs_keys (ins : list dict) (position : Z) :
  map fst (process_pairs position ins) = map key_of ins.
Proof.
  revert position. induction ins as [|d ins IH]; intros position; simpl; auto.
  now rewrite IH.
Qed.

Lemma process_pairs_length (ins : list dict) (position : Z) :
  List.length (process_pairs position ins) = List.length ins.
Proof.
  revert position. induction ins as [|d ins IH]; intros position; simpl; auto.
Qed.

Lemma process_pairs_nth (ins : list dict) (position : Z) (i : nat) (d : dict) :
  nth_error ins i = Some d ->
  nth_error (process_pairs position ins) i
  = Some (process_pair (position + Z.of_nat i) d).
Proof.
  revert position i. induction ins as [|d0 ins IH]; intros position [|i] H;
    simpl in *; try discriminate.
  - injection H as ->. now rewrite Z.add_0_r.
  - rewrite (IH _ _ H). do 2 f_equal. lia.
Qed.

Lemma input_loop_ok (ins : list dict) (acc : inputs_acc) (w : world) :
  forallb hashable_name ins = true ->
  fresh_names (input_param_names acc) (map key_of ins) = true ->
  exists acc',
    input_loop acc (map PyDict ins) w = (Ok acc', add_warnings w (input_warnings ins))
    /\ workflow_inputs acc'
       = (workflow_inputs acc ++ map singleton (map workflow_pair ins))%list
    /\ step_inputs acc'
       = (step_inputs acc ++ map singleton (map step_pair ins))%list
    /\ process_inputs acc'
       = (process_inputs acc
          ++ map singleton
               (process_pairs (Z.of_nat (List.length (process_inputs acc)) + 1) ins))%list.
Proof.
  revert acc w. induction ins as [|d ins IH]; intros acc w H F.
  - exists acc. simpl. rewrite add_warnings_nil, !app_nil_r. auto.
  - simpl in H, F. apply andb_true_iff in H as [H1 H2].
    apply andb_true_iff in F as [F1 F2]. apply negb_true_iff in F1.
    cbn [map input_loop].
    pose proof (input_step_ok acc d w H1 F1) as St.
    match type of St with _ = (Ok ?x, ?y) => set (acc1 := x) in *; set (w1 := y) in * end.
    rewrite (bind_ok _ _ _ _ _ St).
    destruct (IH acc1 w1 H2 F2) as (acc' & R & A & B & C).
    exists acc'. rewrite R, A, B, C. subst acc1 w1.
    cbn [workflow_inputs step_inputs process_inputs].
    rewrite add_warnings_app, <- !app_assoc, length_app, Nat2Z.inj_add.
    cbn [List.length]. repeat split; reflexivity.
Qed.

Lemma input_loop_duplicate (ins : list dict) (acc : inputs_acc) (w : world) :
  forallb hashable_name ins = true ->
  fresh_names (input_param_names acc) (map key_of ins) = false ->
  exists d ws,
    In d ins /\
    input_loop acc (map PyDict ins) w
    = (Raise (ValueError (duplicate_message (field d "name"))), add_warnings w ws).
Proof.
  revert acc w. induction ins as [|d ins IH]; intros acc w H F; [discriminate|].
  simpl in H, F. apply andb_true_iff in H as [H1 H2]. cbn [map input_loop].
  destruct (name_seen (key_of d) (input_param_names acc)) eqn:S.
  - exists d, []. split; [now left|].
    rewrite (bind_raise _ _ _ _ _ (input_step_duplicate acc d w H1 S)).
    now rewrite add_warnings_nil.
  - simpl in F.
    pose proof (input_step_ok acc d w H1 S) as St.
    match type of St with _ = (Ok ?x, ?y) => set (acc1 := x) in *; set (w1 := y) in * end.
    rewrite (bind_ok _ _ _ _ _ St).
    destruct (IH acc1 w1 H2 F) as (d' & ws & I & R).
    exists d'. eexists. split; [now right|].
    rewrite R. subst w1. rewrite add_warnings_app. reflexivity.
Qed.

(** ** The output loop *)

Lemma output_step_ok (acc : outputs_acc) (d : dict) (w : world) :
  hashable_name d = true ->
  output_step acc (PyDict d) w =
  (Ok (mkOutputs (workflow_outputs acc ++ [singleton (workflow_output_pair d)])%list
                 (step_outputs acc ++ [Atom (PyStr "outputs_result")])%list
                 (process_outputs acc ++ [singleton (process_output_pair d)])%list),
   add_warnings w (if lacks_name_or_type d then [output_warning] else [])).
Proof.
  intros H. unfold output_step, hashable_name in *.
  rewrite !field_get.
  unfold workflow_output_pair, process_output_pair, key_of, lacks_name_or_type.
  destruct (field d "name") as [a| |] eqn:N; try discriminate.
  cbn [lift bind].
  destruct (is_none (Atom a) || is_none (field d "type")).
  - reflexivity.
  - cbn [ret bind lift hashable]. now rewrite add_warnings_nil.
Qed.

Lemma output_loop_ok (outs : list dict) (acc : outputs_acc) (w : world) :
  forallb hashable_name outs = true ->
  output_loop acc (map PyDict outs) w =
  (Ok (mkOutputs
         (workflow_outputs acc ++ map singleton (map workflow_output_pair outs))%list
         (step_outputs acc ++ map (fun _ => Atom (PyStr "outputs_result")) outs)%list
         (process_outputs acc ++ map singleton (map process_output_pair outs))%list),
   add_warnings w (output_warnings outs)).
Proof.
  revert acc w. induction outs as [|d outs IH]; intros acc w H.
  - simpl. rewrite add_warnings_nil, !app_nil_r. now destruct acc.
  - simpl in H. apply andb_true_iff in H as [H1 H2]. cbn [map output_loop].
    rewrite (bind_ok _ _ _ _ _ (output_step_ok acc d w H1)), (IH _ _ H2).
    cbn [workflow_outputs step_outputs process_outputs].
    now rewrite add_warnings_app, <- !app_assoc.
Qed.

(** ** Merging the per-record dictionaries *)

Lemma concat_singletons (kvs : list (scalar * value)) :
  List.concat (map singleton kvs) = kvs.
Proof. induction kvs as [|kv kvs IH]; simpl; auto. now rewrite IH. Qed.

Lemma fresh_names_ext (seen seen' names : list scalar) :
  (forall x, name_seen x seen = name_seen x seen') ->
  fresh_names seen names = fresh_names seen' names.
Proof.
  revert seen seen'. induction names as [|n names IH]; intros seen seen' E; simpl; auto.
  rewrite (E n). f_equal. apply IH. intros x. simpl. now rewrite E.
Qed.

Lemma fold_set_fresh (kvs acc : dict) :
  fresh_names (dict_keys acc) (map fst kvs) = true ->
  fold_left (fun a kv => dict_set a (fst kv) (snd kv)) kvs acc = (acc ++ kvs)%list.
Proof.
  revert acc. induction kvs as [|[k v] kvs IH]; intros acc F; simpl.
  - now rewrite app_nil_r.
  - simpl in F. apply andb_true_iff in F as [F1 F2]. apply negb_true_iff in F1.
    rewrite (dict_set_fresh acc k v F1), IH.
    + now rewrite <- app_assoc.
    + rewrite <- F2. apply fresh_names_ext. intros x.
      unfold dict_keys, name_seen. rewrite map_app, existsb_app. simpl.
      now rewrite orb_false_r, orb_comm.
Qed.

(** Distinct names: the merged dictionary lists the records in order. *)
Lemma merge_singletons_fresh (kvs : dict) :
  unique (map fst kvs) = true -> merge_dicts (map singleton kvs) = kvs.
Proof.
  intros U. unfold merge_dicts. rewrite concat_singletons.
  now rewrite fold_set_fresh.
Qed.

Lemma last_cons_default (x : value) (l : list value) (d d' : value) :
  last (x :: l) d = last (x :: l) d'.
Proof.
  revert x. induction l as [|y l IH]; intros x; [reflexivity|].
  change (last (y :: l) d = last (y :: l) d'). apply IH.
Qed.

Lemma fold_set_same_key (k : scalar) (vs : list value) (v0 : value) :
  fold_left (fun a kv => dict_set a (fst kv) (snd kv))
            (map (fun v => (k, v)) vs) [(k, v0)]
  = [(k, last vs v0)].
Proof.
  revert v0. induction vs as [|v vs IH]; intros v0; simpl; auto.
  rewrite scalar_eqb_refl, IH. destruct vs as [|v1 vs]; [reflexivity|].
  apply f_equal2; [|reflexivity]. f_equal. apply last_cons_default.
Qed.

(** One fixed key: only the last record's value is left. *)
Lemma merge_same_key (k : scalar) (v : value) (vs : list value) :
  merge_dicts (map singleton (map (fun x => (k, x)) (v :: vs))) = [(k, last vs v)].
Proof.
  unfold merge_dicts. rewrite concat_singletons. simpl.
  apply fold_set_same_key.
Qed.

(** ** Assignments into a well-shaped template *)

Lemma path_eqb_eq (p q : list scalar) : path_eqb p q = true -> p = q.
Proof. unfold path_eqb. destruct (list_eq_dec scalar_eq_dec p q); auto; discriminate. Qed.

Lemma write_step (p : list scalar) (wf v : value) :
  writable_path p = true -> template_ok wf = true ->
  exists wf', set_path_value wf p v = Ok wf' /\ template_ok wf' = true.
Proof.
  intros W T. unfold writable_path in W.
  destruct p as [|k p]; [discriminate|].
  apply andb_true_iff in W as [W1 W2].
  apply existsb_exists in W1 as (h & Ih & Eh). apply path_eqb_eq in Eh.
  unfold template_ok in T.
  pose proof (proj1 (forallb_forall _ _) T h Ih) as D. unfold is_dict_at in D.
  rewrite <- Eh in D.
  destruct (get_path wf (removelast (k :: p))) as [[a|l|d]|] eqn:G; try discriminate.
  destruct (set_path_value_succeeds (k :: p) wf (PyDict d) v ltac:(discriminate) G eq_refl)
    as [wf' S].
  exists wf'. split; auto.
  apply forallb_forall. intros q Iq.
  apply (keeps_dict (k :: p) q wf wf' v); auto.
  - apply (proj1 (forallb_forall _ _) W2 q Iq).
  - apply (proj1 (forallb_forall _ _) T q Iq).
Qed.

Lemma writable_nonempty (p : list scalar) : writable_path p = true -> p <> [].
Proof. destruct p; [discriminate|]. intros _. discriminate. Qed.

Lemma process_value_ok (target : list scalar) (raw : value) :
  target <> [] -> exists v, process_value target raw = Ok v.
Proof.
  intros N. unfold process_value.
  destruct (rev target) as [|final rest] eqn:R.
  - apply (f_equal (@rev scalar)) in R. rewrite rev_involutive in R. now destruct N.
  - destruct (scalar_eqb final (PyStr "s:version")); eauto.
Qed.

Lemma assign_targets_ok (c : dict) (key : string) (raw : value)
    (targets : list (list scalar)) (wf : value) :
  forallb writable_path targets = true ->
  template_ok wf = true ->
  dict_get c (PyStr key) = Some raw ->
  exists wf', assign_targets (PyDict c) key targets wf = Ok wf'
              /\ template_ok wf' = true.
Proof.
  revert wf. induction targets as [|target rest IH]; intros wf W T G.
  - exists wf. auto.
  - simpl in W. apply andb_true_iff in W as [W1 W2].
    cbn [assign_targets getitem]. rewrite G. cbn [rbind].
    destruct (process_value_ok target raw (writable_nonempty _ W1)) as [v ->].
    cbn [rbind].
    destruct (write_step target wf v W1 T) as (wf1 & -> & T1). cbn [rbind].
    now apply IH.
Qed.

Lemma OGC_CWL_KEY_MAP_ok : table_ok OGC_CWL_KEY_MAP = true.
Proof. vm_compute. reflexivity. Qed.

(** The field mapper never fails on a well-shaped template, and leaves it
    well-shaped. *)
Lemma map_fields_ok (table : list (string * list (list scalar))) (c : dict)
    (wf : value) (w : world) :
  table_ok table = true ->
  template_ok wf = true ->
  exists wf' ws,
    map_fields table (PyDict c) wf w = (Ok wf', add_warnings w ws)
    /\ template_ok wf' = true.
Proof.
  revert wf w. induction table as [|[key targets] rest IH]; intros wf w K T.
  - exists wf, []. now rewrite add_warnings_nil.
  - simpl in K. apply andb_true_iff in K as [K1 K2].
    cbn [map_fields contains lift bind].
    destruct (dict_get c (PyStr key)) as [raw|] eqn:G.
    + destruct (assign_targets_ok c key raw targets wf K1 T G) as (wf1 & -> & T1).
      cbn [lift bind]. now apply IH.
    + cbn [bind logging_warning ret].
      destruct (IH wf (add_warnings w ["Expected key `" ++ key
                                        ++ "` not found in algorithm config."]) K2 T)
        as (wf' & ws & R & T').
      exists wf'. eexists. split; [|exact T'].
      unfold add_warnings in R at 1. rewrite R, add_warnings_app. reflexivity.
Qed.

Lemma all_dicts_map (l : list value) (ds : list dict) :
  all_dicts l = Some ds -> l = map PyDict ds.
Proof.
  revert ds. induction l as [|[a|l'|d] l IH]; intros ds; simpl; try discriminate.
  - now intros [= <-].
  - destruct (all_dicts l) as [ds'|]; [|discriminate].
    intros [= <-]. simpl. now rewrite (IH ds').
Qed.

(** [for x in config.get(k, [])] visits the records of the section. *)
Lemma records_iterate (c : dict) (k : string) (ds : list dict) :
  records c k = Some ds ->
  rbind (dict_method_get (PyDict c) k (PyList [])) iterate = Ok (map PyDict ds).
Proof.
  unfold records. simpl. destruct (dict_get c (PyStr k)) as [[a|l|d]|]; try discriminate.
  - intros H. simpl. now rewrite (all_dicts_map _ _ H).
  - now intros [= <-].
Qed.

Lemma safe_load_ok (path : string) (w : world) (doc : value) :
  lookup path (files w) = Some doc -> safe_load path w = (Ok doc, w).
Proof. unfold safe_load. now intros ->. Qed.

Lemma lift_ok {A} (r : result A) (a : A) (w : world) :
  r = Ok a -> lift r w = (Ok a, w).
Proof. now intros ->. Qed.

Lemma ensure_dir (dir : string) (w : world) :
  dir_ready dir w = true ->
  (if exists_at dir w then ret tt else makedirs dir) w
  = (Ok tt, after_guard dir w).
Proof.
  unfold dir_ready, after_guard, dirs_after, makedirs.
  destruct (exists_at dir w); cbn [orb].
  - intros _. now destruct w.
  - intros H. apply negb_true_iff in H. now rewrite H.
Qed.

Lemma can_open_ext (path : string) (w w' : world) :
  dirs w' = dirs w -> faults w' = faults w ->
  can_open path w' = can_open path w.
Proof. unfold can_open, is_dir, has_fault. now intros -> ->. Qed.

Lemma has_fault_ext (f : fault) (path : string) (w w' : world) :
  faults w' = faults w -> has_fault f path w' = has_fault f path w.
Proof. unfold has_fault. now intros ->. Qed.

Lemma output_ready_dir (dir : string) (w : world) :
  output_ready dir w = true -> dir_ready dir w = true.
Proof.
  unfold output_ready. intros H.
  now apply andb_true_iff in H as [H _]; apply andb_true_iff in H as [H _].
Qed.

(** The end of a run whose output file can be written. *)
Lemma save_ok (dir : string) (doc : value) (w0 w : world) :
  output_ready dir w0 = true ->
  dirs w = dirs_after dir w0 -> faults w = faults w0 -> environ w = environ w0 ->
  save dir doc w
  = (Ok tt,
     mkWorld ((workflow_file dir w0, doc) :: files w) (dirs w) (faults w)
             (environ w) (today w) (warnings w)
             (stdout w ++ [("CWL workflow saved to " ++ workflow_file dir w0)%string])%list).
Proof.
  intros R D F E. unfold output_ready in R.
  apply andb_true_iff in R as [R B]. apply andb_true_iff in R as [_ O].
  apply negb_true_iff in B.
  rewrite <- (can_open_ext (workflow_file dir w0) (after_guard dir w0) w D F) in O.
  rewrite <- (has_fault_ext _ _ w0 w F) in B.
  unfold workflow_file in *. rewrite <- E in *.
  unfold save, bind, getenv_default, dump. cbv zeta. rewrite O, B. reflexivity.
Qed.

(** The end of a run whose output file cannot be written: it cannot be
    opened, or the write fails. *)
Lemma save_fails (dir : string) (doc : value) (w0 w : world) :
  can_open (workflow_file dir w0) (after_guard dir w0)
  && negb (has_fault Broken (workflow_file dir w0) w0) = false ->
  dirs w = dirs_after dir w0 -> faults w = faults w0 -> environ w = environ w0 ->
  save dir doc w
  = (Raise OSError,
     if can_open (workflow_file dir w0) (after_guard dir w0)
     then put_file (workflow_file dir w0) truncated w
     else w).
Proof.
  intros R D F E.
  rewrite <- (can_open_ext (workflow_file dir w0) (after_guard dir w0) w D F) in *.
  rewrite <- (has_fault_ext _ _ w0 w F) in R.
  unfold workflow_file in *. rewrite <- E in *.
  unfold save, bind, getenv_default, dump. cbv zeta.
  destruct (can_open _ w); [|reflexivity].
  cbn [andb] in R. apply negb_false_iff in R. now rewrite R.
Qed.

(** However a run ends, it ends in one of three ways. *)
Lemma save_cases (dir : string) (doc : value) (w : world) :
  save dir doc w = (Raise OSError, w)
  \/ (has_fault Broken (workflow_file dir w) w = true
      /\ save dir doc w = (Raise OSError, put_file (workflow_file dir w) truncated w))
  \/ save dir doc w
     = (Ok tt,
        mkWorld ((workflow_file dir w, doc) :: files w) (dirs w) (faults w)
                (environ w) (today w) (warnings w)
                (stdout w ++ [("CWL workflow saved to " ++ workflow_file dir w)%string])%list).
Proof.
  unfold save, bind, getenv_default, dump, workflow_file. cbv zeta.
  destruct (can_open _ w); [|now left].
  destruct (has_fault Broken _ w); [right; left | right; right]; auto.
Qed.

Ltac step H := rewrite (bind_ok _ _ _ _ _ H); cbv beta.
Ltac prim := erewrite bind_ok by reflexivity; cbv beta.
Ltac write T E T' :=
  match goal with
  | |- context [bind (lift (set_path_value ?wf ?p ?v))] =>
      let wf' := fresh "wf" in
      destruct (write_step p wf v eq_refl T) as (wf' & E & T');
      rewrite (bind_ok _ _ _ _ _ (lift_ok _ _ _ E)); cbv beta
  end.

Ltac frame W :=
  match goal with
  | |- get_path _ ?q = _ => rewrite (get_set_diverge _ q _ _ _ W eq_refl)
  end.

Lemma yaml_to_cwl_completes (yaml_file workflow_output_dir template_file : string)
    (w : world) (c : dict) (ins outs : list dict) :
  well_formed_run yaml_file workflow_output_dir template_file w c ins outs ->
  exists doc w',
    yaml_to_cwl yaml_file workflow_output_dir template_file w = (Ok tt, w')
    /\ run_yields workflow_output_dir w w' ins outs doc.
Proof.
  intros (Hc & (t & Ht & T) & Hdir & Hin & Hhash & Huniq & Hout & Hohash).
  unfold yaml_to_cwl.
  step (safe_load_ok _ _ _ Hc). step (safe_load_ok _ _ _ Ht). prim.
  step (ensure_dir workflow_output_dir w (output_ready_dir _ _ Hdir)).
  set (w1 := after_guard workflow_output_dir w).
  destruct (map_fields_ok OGC_CWL_KEY_MAP c t w1 OGC_CWL_KEY_MAP_ok T)
    as (wf0 & ws & R0 & T0).
  step R0. prim.
  pose proof (records_iterate _ _ _ Hin) as It. cbn [rbind dict_method_get] in It.
  step (lift_ok _ _ (add_warnings w1 ws) It).
  destruct (input_loop_ok ins (mkInputs [] [] [] []) (add_warnings w1 ws) Hhash Huniq)
    as (acc & RI & A1 & A2 & A3).
  step RI.
  write T0 W1 T1. write T1 W2 T2. write T2 W3 T3.
  prim.
  pose proof (records_iterate _ _ _ Hout) as Ot. cbn [rbind dict_method_get] in Ot.
  match goal with |- context [bind _ _ ?w] => step (lift_ok _ _ w Ot) end.
  match goal with |- context [bind _ _ ?w] =>
    step (output_loop_ok outs (mkOutputs [] [] []) w Hohash) end.
  write T3 W4 T4. write T4 W5 T5. write T5 W6 T6.
  prim.
  write T6 W7 T7. write T7 W8 T8. prim. write T8 W9 T9. prim. write T9 W10 T10.
  exists wf9. eexists.
  split; [apply (save_ok _ _ w _ Hdir); reflexivity|].
  cbn [workflow_inputs step_inputs process_inputs app List.length Z.of_nat Z.add] in A1, A2, A3.
  cbn [workflow_outputs step_outputs process_outputs app] in W4, W5, W6.
  unfold run_yields, w1.
  cbn [files warnings environ add_warnings after_guard date_today fst snd].
  split; [reflexivity|].
  split; [exists ws; now rewrite <- !app_assoc|].
  assert (U1 : unique (map fst (map workflow_pair ins)) = true)
    by (rewrite map_map; exact Huniq).
  assert (U2 : unique (map fst (process_pairs 1 ins)) = true)
    by (rewrite process_pairs_keys; exact Huniq).
  assert (U3 : unique (map fst (map step_pair ins)) = true)
    by (rewrite map_map; exact Huniq).
  rewrite A1, (merge_singletons_fresh _ U1) in W1.
  rewrite A3, (merge_singletons_fresh _ U2) in W2.
  rewrite A2, (merge_singletons_fresh _ U3) in W3.
  repeat split.
  - frame W10; frame W9; frame W8; frame W7; frame W6; frame W5; frame W4;
      frame W3; frame W2. apply (get_set_same _ _ _ _ W1).
  - frame W10; frame W9; frame W8; frame W7; frame W6; frame W5; frame W4;
      frame W3. apply (get_set_same _ _ _ _ W2).
  - frame W10; frame W9; frame W8; frame W7; frame W6; frame W5; frame W4.
    apply (get_set_same _ _ _ _ W3).
  - frame W10; frame W9; frame W8; frame W7; frame W6; frame W5.
    apply (get_set_same _ _ _ _ W4).
  - frame W10; frame W9; frame W8; frame W7; frame W6.
    apply (get_set_same _ _ _ _ W5).
  - frame W10; frame W9; frame W8; frame W7.
    apply (get_set_same _ _ _ _ W6).
Qed.

(** ** Distinct names *)

Lemma fresh_not_seen (names seen : list scalar) (n : scalar) :
  fresh_names seen names = true -> In n names -> name_seen n seen = false.
Proof.
  revert seen. induction names as [|m names IH]; intros seen F I; [destruct I|].
  simpl in F. apply andb_true_iff in F as [F1 F2]. destruct I as [->|I].
  - now apply negb_true_iff.
  - pose proof (IH _ F2 I) as S. simpl in S. now apply orb_false_iff in S.
Qed.

Lemma fresh_names_nth (names seen : list scalar) (i j : nat) (a b : scalar) :
  fresh_names seen names = true -> (i < j)%nat ->
  nth_error names i = Some a -> nth_error names j = Some b ->
  scalar_eqb b a = false.
Proof.
  revert seen i j. induction names as [|m names IH]; intros seen i j F L A B.
  - destruct i; discriminate.
  - simpl in F. apply andb_true_iff in F as [F1 F2].
    destruct j as [|j]; [lia|]. simpl in B. destruct i as [|i].
    + simpl in A. injection A as ->.
      pose proof (fresh_not_seen _ _ _ F2 (nth_error_In _ _ B)) as S.
      simpl in S. now apply orb_false_iff in S.
    + simpl in A. apply (IH _ i j F2); auto. lia.
Qed.

(** With distinct keys, a dictionary display reads back each of its entries. *)
Lemma dict_get_unique (kvs : dict) (seen : list scalar) (k : scalar) (v : value) :
  fresh_names seen (map fst kvs) = true -> In (k, v) kvs ->
  dict_get kvs k = Some v.
Proof.
  revert seen. induction kvs as [|[k0 v0] kvs IH]; intros seen F I; [destruct I|].
  simpl in F. apply andb_true_iff in F as [F1 F2]. simpl.
  destruct I as [[= -> ->]|I].
  - now rewrite scalar_eqb_refl.
  - pose proof (fresh_not_seen _ _ k F2 (in_map fst _ _ I)) as S.
    simpl in S. apply orb_false_iff in S as [S _].
    rewrite scalar_eqb_sym, S. now apply (IH (k0 :: seen)).
Qed.

(** ** A run that meets a duplicate name *)

Lemma yaml_to_cwl_duplicate (yaml_file workflow_output_dir template_file : string)
    (w : world) (c : dict) (t : value) (ins : list dict) :
  lookup yaml_file (files w) = Some (PyDict c) ->
  lookup template_file (files w) = Some t ->
  template_ok t = true ->
  dir_ready workflow_output_dir w = true ->
  records c "inputs" = Some ins ->
  forallb hashable_name ins = true ->
  unique (map key_of ins) = false ->
  exists d w',
    In d ins
    /\ yaml_to_cwl yaml_file workflow_output_dir template_file w
       = (Raise (ValueError (duplicate_message (field d "name"))), w')
    /\ files w' = files w.
Proof.
  intros Hc Ht T Hdir Hin Hhash Hdup.
  unfold yaml_to_cwl.
  step (safe_load_ok _ _ _ Hc). step (safe_load_ok _ _ _ Ht). prim.
  step (ensure_dir workflow_output_dir w Hdir).
  set (w1 := after_guard workflow_output_dir w).
  destruct (map_fields_ok OGC_CWL_KEY_MAP c t w1 OGC_CWL_KEY_MAP_ok T)
    as (wf0 & ws & R0 & T0).
  step R0. prim.
  pose proof (records_iterate _ _ _ Hin) as It. cbn [rbind dict_method_get] in It.
  step (lift_ok _ _ (add_warnings w1 ws) It).
  destruct (input_loop_duplicate ins (mkInputs [] [] [] []) (add_warnings w1 ws)
              Hhash Hdup) as (d & ws' & I & R).
  exists d. eexists. split; [exact I|]. split.
  - apply (bind_raise _ _ _ _ _ R).
  - reflexivity.
Qed.

End BuildFacts.

(* ================================================================== *)
(** * The specification, claim by claim *)
(* ================================================================== *)

Module Spec.
Import Py PyFacts Build Paths PathFacts StoreFacts Runs BuildFacts.

Lemma demo_well_formed :
  well_formed_run "algorithm_config.yml" "workflows" "process.v1_2.cwl"
    (Demo.world_of Demo.config) Demo.config Demo.ins Demo.outs.
Proof.
  unfold well_formed_run. repeat split; try reflexivity.
  exists Demo.template. split; reflexivity.
Defined.

Lemma lookup_head {A} (k : string) (a : A) (l : list (string * A)) :
  lookup k ((k, a) :: l) = Some a.
Proof. simpl. now rewrite String.eqb_refl. Qed.

Lemma hashable_name_field (d : dict) :
  hashable_name d = true -> field d "name" = Atom (key_of d).
Proof.
  unfold hashable_name, key_of. destruct (field d "name"); auto; discriminate.
Qed.

Lemma process_entry_binding (position : Z) (name type default : value) :
  get_path (PyDict (process_entry position name type default))
           [PyStr "inputBinding"; PyStr "position"] = Ok (Atom (PyInt position))
  /\ get_path (PyDict (process_entry position name type default))
              [PyStr "inputBinding"; PyStr "prefix"]
     = Ok (Atom (PyStr ("--" ++ py_str name))).
Proof. unfold process_entry. destruct (is_none default); split; reflexivity. Qed.

(** C1.  In a run on a well-formed Configuration Document whose input names
    are pairwise distinct, the process-level input bindings, the mapping at
    [$graph[1].inputs] of the dumped document, have the input names as their
    keys in encounter order; the binding of the record met at index [i]
    (from 0) has [inputBinding.position = i + 1] and [inputBinding.prefix]
    equal to two dashes followed by the name as an f-string formats it, the
    name itself when it is a string.  So N records get the positions 1..N. *)
Theorem process_inputs_positions
    (yaml_file workflow_output_dir template_file : string)
    (w : world) (c : dict) (ins outs : list dict) :
  well_formed_run yaml_file workflow_output_dir template_file w c ins outs ->
  exists doc w' bindings,
    yaml_to_cwl yaml_file workflow_output_dir template_file w = (Ok tt, w')
    /\ lookup (workflow_file workflow_output_dir w) (files w') = Some doc
    /\ get_path doc (graph 1 [PyStr "inputs"]) = Ok (PyDict bindings)
    /\ dict_keys bindings = map key_of ins
    /\ forall (i : nat) (d : dict),
         nth_error ins i = Some d ->
         get_path (PyDict bindings)
                  [key_of d; PyStr "inputBinding"; PyStr "position"]
         = Ok (Atom (PyInt (Z.of_nat i + 1)))
         /\ get_path (PyDict bindings)
                     [key_of d; PyStr "inputBinding"; PyStr "prefix"]
            = Ok (Atom (PyStr ("--" ++ py_str (field d "name"))))
         /\ forall s, field d "name" = Atom (PyStr s) ->
              get_path (PyDict bindings)
                       [key_of d; PyStr "inputBinding"; PyStr "prefix"]
              = Ok (Atom (PyStr ("--" ++ s))).
Proof.
  intros WF. pose proof WF as (_ & _ & _ & _ & _ & U & _).
  destruct (yaml_to_cwl_completes _ _ _ _ _ _ _ WF)
    as (doc & w' & R & F & _ & _ & P & _).
  exists doc, w', (process_pairs 1 ins). rewrite F, lookup_head.
  split; [exact R|]. split; [reflexivity|]. split; [exact P|].
  split; [apply process_pairs_keys|].
  intros i d H.
  assert (G : getitem (PyDict (process_pairs 1 ins)) (key_of d)
              = Ok (snd (process_pair (Z.of_nat i + 1) d))).
  { simpl. erewrite (dict_get_unique _ [] (key_of d)); [reflexivity| |].
    - rewrite process_pairs_keys. exact U.
    - apply (nth_error_In _ i). rewrite (process_pairs_nth _ _ _ _ H).
      unfold process_pair. now rewrite Z.add_comm. }
  assert (E : forall q, get_path (PyDict (process_pairs 1 ins)) (key_of d :: q)
                        = get_path (snd (process_pair (Z.of_nat i + 1) d)) q).
  { intros q. change (get_path (PyDict (process_pairs 1 ins)) (key_of d :: q))
      with (rbind (getitem (PyDict (process_pairs 1 ins)) (key_of d))
                  (fun x => get_path x q)).
    now rewrite G. }
  rewrite !E. split; [apply process_entry_binding|].
  split; [apply process_entry_binding|].
  intros s Hs. replace s with (py_str (field d "name")) by now rewrite Hs.
  apply process_entry_binding.
Qed.

Lemma process_inputs_positions_witness :
  exists doc w' bindings,
    yaml_to_cwl "algorithm_config.yml" "workflows" "process.v1_2.cwl"
      (Demo.world_of Demo.config) = (Ok tt, w')
    /\ lookup "workflows/process.cwl" (files w') = Some doc
    /\ get_path doc (graph 1 [PyStr "inputs"]) = Ok (PyDict bindings)
    /\ dict_keys bindings = [PyStr "infile"; PyStr "threshold"; PyStr "verbose"]
    /\ get_path (PyDict bindings)
                [PyStr "verbose"; PyStr "inputBinding"; PyStr "position"]
       = Ok (Atom (PyInt 3)).
Proof.
  destruct (process_inputs_positions _ _ _ _ _ _ _ demo_well_formed)
    as (doc & w' & bindings & R & F & G & K & P).
  exists doc, w', bindings. repeat split; auto.
  apply (P 2%nat Demo.verbose eq_refl).
Defined.

(** C2.  When two input records of the Configuration Document have the same
    name (equal as Python compares dictionary keys), the run on a
    well-shaped template, with an output directory that is there or can be
    made, raises the [ValueError] of the uniqueness check, naming an input
    of the document, and the files are what they were: no output document
    has been written. *)
Theorem duplicate_input_aborts
    (yaml_file workflow_output_dir template_file : string)
    (w : world) (c : dict) (t : value) (ins : list dict)
    (i j : nat) (di dj : dict) :
  lookup yaml_file (files w) = Some (PyDict c) ->
  lookup template_file (files w) = Some t ->
  template_ok t = true ->
  dir_ready workflow_output_dir w = true ->
  records c "inputs" = Some ins ->
  forallb hashable_name ins = true ->
  (i < j)%nat ->
  nth_error ins i = Some di ->
  nth_error ins j = Some dj ->
  scalar_eqb (key_of di) (key_of dj) = true ->
  exists d w',
    In d ins
    /\ yaml_to_cwl yaml_file workflow_output_dir template_file w
       = (Raise (ValueError (duplicate_message (field d "name"))), w')
    /\ files w' = files w.
Proof.
  intros Hc Ht T Hdir Hin Hhash L Hi Hj E.
  apply (yaml_to_cwl_duplicate _ _ _ _ c t); auto.
  destruct (unique (map key_of ins)) eqn:U; auto.
  pose proof (fresh_names_nth _ _ i j (key_of di) (key_of dj) U L
                (map_nth_error key_of _ _ Hi) (map_nth_error key_of _ _ Hj)) as N.
  rewrite scalar_eqb_sym in N. congruence.
Qed.

Lemma duplicate_input_aborts_witness :
  exists d w',
    In d Demo.twice
    /\ yaml_to_cwl "algorithm_config.yml" "workflows" "process.v1_2.cwl"
         (Demo.world_of (Demo.config_of Demo.twice Demo.outs))
       = (Raise (ValueError (duplicate_message (field d "name"))), w')
    /\ files w' = files (Demo.world_of (Demo.config_of Demo.twice Demo.outs)).
Proof.
  apply (duplicate_input_aborts "algorithm_config.yml" "workflows" "process.v1_2.cwl"
           (Demo.world_of (Demo.config_of Demo.twice Demo.outs))
           (Demo.config_of Demo.twice Demo.outs) Demo.template Demo.twice
           0%nat 2%nat Demo.infile Demo.infile);
    try reflexivity.
  simpl. lia.
Defined.

Lemma last_map {A B} (f : A -> B) (l : list A) (a : A) :
  last (map f l) (f a) = f (last l a).
Proof.
  induction l as [|x [|y l] IH]; simpl in *; auto.
Qed.

Lemma last_nonempty {A} (x : A) (l : list A) (a : A) :
  last (x :: l) a = last l x.
Proof.
  revert x a. induction l as [|y l IH]; intros x a; [reflexivity|].
  change (last (y :: l) a = last (y :: l) x). now rewrite !IH.
Qed.

Lemma map_const_repeat {A B} (b : B) (l : list A) :
  map (fun _ => b) l = repeat b (List.length l).
Proof. induction l as [|x l IH]; simpl; auto. now rewrite IH. Qed.

(** C3.  In a run on a well-formed Configuration Document with at least one
    output record, the process-level output bindings, [$graph[1].outputs] of
    the dumped document, are the mapping with the one key ["outputs_result"],
    bound to [{outputBinding: {glob: "./output*"}, type: t}] with [t] the type
    of the last output record; the step-level output bindings,
    [$graph[0].steps.process.out], are the list that repeats
    ["outputs_result"] once per output record. *)
Theorem process_outputs_last_wins
    (yaml_file workflow_output_dir template_file : string)
    (w : world) (c : dict) (ins outs : list dict) :
  well_formed_run yaml_file workflow_output_dir template_file w c ins outs ->
  outs <> [] ->
  exists doc w',
    yaml_to_cwl yaml_file workflow_output_dir template_file w = (Ok tt, w')
    /\ lookup (workflow_file workflow_output_dir w) (files w') = Some doc
    /\ get_path doc (graph 1 [PyStr "outputs"])
       = Ok (PyDict
               [(PyStr "outputs_result",
                 PyDict [(PyStr "outputBinding",
                          PyDict [(PyStr "glob", Atom (PyStr "./output*"))]);
                         (PyStr "type", field (last outs []) "type")])])
    /\ get_path doc (graph 0 [PyStr "steps"; PyStr "process"; PyStr "out"])
       = Ok (PyList (repeat (Atom (PyStr "outputs_result")) (List.length outs))).
Proof.
  intros WF N.
  destruct (yaml_to_cwl_completes _ _ _ _ _ _ _ WF)
    as (doc & w' & R & F & _ & _ & _ & _ & _ & P & S).
  exists doc, w'. rewrite F, lookup_head.
  split; [exact R|]. split; [reflexivity|]. split.
  - rewrite P. destruct outs as [|d outs]; [congruence|].
    set (shape := fun d' : dict =>
           PyDict [(PyStr "outputBinding",
                    PyDict [(PyStr "glob", Atom (PyStr "./output*"))]);
                   (PyStr "type", field d' "type")]).
    assert (Em : map process_output_pair (d :: outs)
                 = map (fun x => (PyStr "outputs_result", x)) (map shape (d :: outs)))
      by (rewrite map_map; reflexivity).
    rewrite Em. change (map shape (d :: outs)) with (shape d :: map shape outs).
    rewrite merge_same_key, (last_map shape outs d).
    now rewrite (last_nonempty d outs []).
  - rewrite S. now rewrite map_const_repeat.
Qed.

Lemma process_outputs_last_wins_witness :
  exists doc w',
    yaml_to_cwl "algorithm_config.yml" "workflows" "process.v1_2.cwl"
      (Demo.world_of Demo.config) = (Ok tt, w')
    /\ lookup "workflows/process.cwl" (files w') = Some doc
    /\ get_path doc (graph 1 [PyStr "outputs"])
       = Ok (PyDict
               [(PyStr "outputs_result",
                 PyDict [(PyStr "outputBinding",
                          PyDict [(PyStr "glob", Atom (PyStr "./output*"))]);
                         (PyStr "type", Atom (PyStr "Directory"))])])
    /\ get_path doc (graph 0 [PyStr "steps"; PyStr "process"; PyStr "out"])
       = Ok (PyList [Atom (PyStr "outputs_result"); Atom (PyStr "outputs_result")]).
Proof.
  apply (process_outputs_last_wins _ _ _ _ _ _ _ demo_well_formed).
  discriminate.
Defined.

Lemma is_none_iff (v : value) : is_none v = true <-> v = Atom PyNone.
Proof.
  destruct v as [[]| |]; simpl; split; congruence.
Qed.

Lemma value_eq_str_iff (v : value) (s : string) :
  value_eq_str v s = true <-> v = Atom (PyStr s).
Proof.
  split.
  - destruct v as [a| |]; simpl; try discriminate.
    intros H. now rewrite (scalar_eqb_str_r _ _ H).
  - intros ->. simpl. apply scalar_eqb_refl.
Qed.

Lemma add_input_default_cases (ty default : value) :
  (ty = Atom (PyStr "File") \/ ty = Atom (PyStr "Directory") ->
   add_input_default ty default
   = PyDict [(PyStr "class", ty); (PyStr "path", default)])
  /\ (ty <> Atom (PyStr "File") -> ty <> Atom (PyStr "Directory") ->
      add_input_default ty default = default).
Proof.
  unfold add_input_default. split.
  - intros [-> | ->]; reflexivity.
  - intros NF ND.
    destruct (value_eq_str ty "Directory") eqn:D.
    + apply value_eq_str_iff in D. contradiction.
    + destruct (value_eq_str ty "File") eqn:F; [|reflexivity].
      apply value_eq_str_iff in F. contradiction.
Qed.

Lemma default_shaped_of (d base : dict) :
  dict_get base (PyStr "default") = None ->
  default_shaped d
    (if is_none (field d "default") then base
     else dict_set base (PyStr "default")
            (add_input_default (field d "type") (field d "default"))).
Proof.
  intros B. destruct (add_input_default_cases (field d "type") (field d "default"))
    as [C1 C2].
  destruct (is_none (field d "default")) eqn:N.
  - apply is_none_iff in N. repeat split; intros; congruence.
  - assert (field d "default" <> Atom PyNone)
      by (intros E; apply is_none_iff in E; congruence).
    repeat split; intros; rewrite dict_get_set_same; try contradiction.
    + now rewrite C1.
    + now rewrite C2.
Qed.

(** C4.  In a run on a well-formed Configuration Document, for every input
    record the workflow-level declaration ([$graph[0].inputs] under the
    record's name) and the process-level binding ([$graph[1].inputs] under
    it) are mappings whose ["default"] entry is: absent when the record has
    no default; [{class: type, path: default}] when it has one and its type
    is ["File"] or ["Directory"]; the default itself for any other type. *)
Theorem input_default_shape
    (yaml_file workflow_output_dir template_file : string)
    (w : world) (c : dict) (ins outs : list dict) :
  well_formed_run yaml_file workflow_output_dir template_file w c ins outs ->
  exists doc w',
    yaml_to_cwl yaml_file workflow_output_dir template_file w = (Ok tt, w')
    /\ lookup (workflow_file workflow_output_dir w) (files w') = Some doc
    /\ forall d, In d ins ->
         exists declared bound,
           get_path doc (graph 0 [PyStr "inputs"; key_of d]) = Ok (PyDict declared)
           /\ get_path doc (graph 1 [PyStr "inputs"; key_of d]) = Ok (PyDict bound)
           /\ default_shaped d declared
           /\ default_shaped d bound.
Proof.
  intros WF. pose proof WF as (_ & _ & _ & _ & _ & U & _).
  destruct (yaml_to_cwl_completes _ _ _ _ _ _ _ WF)
    as (doc & w' & R & F & _ & D & P & _).
  exists doc, w'. rewrite F, lookup_head.
  split; [exact R|]. split; [reflexivity|].
  intros d I.
  destruct (In_nth_error _ _ I) as [i Hi].
  exists (workflow_entry (field d "doc") (field d "label") (field d "type")
                         (field d "default")),
         (process_entry (1 + Z.of_nat i) (field d "name") (field d "type")
                        (field d "default")).
  change (graph 0 [PyStr "inputs"; key_of d])
    with (graph 0 [PyStr "inputs"] ++ [key_of d])%list.
  change (graph 1 [PyStr "inputs"; key_of d])
    with (graph 1 [PyStr "inputs"] ++ [key_of d])%list.
  rewrite !get_path_app, D, P. cbn [rbind get_path getitem].
  rewrite (dict_get_unique _ [] (key_of d) (snd (workflow_pair d))).
  - rewrite (dict_get_unique _ [] (key_of d) (snd (process_pair (1 + Z.of_nat i) d))).
    + repeat split; apply default_shaped_of; reflexivity.
    + rewrite process_pairs_keys. exact U.
    + apply (nth_error_In _ i). now rewrite (process_pairs_nth _ _ _ _ Hi).
  - rewrite map_map. exact U.
  - apply (in_map workflow_pair _ _ I).
Qed.

Lemma input_default_shape_witness :
  exists doc w',
    yaml_to_cwl "algorithm_config.yml" "workflows" "process.v1_2.cwl"
      (Demo.world_of Demo.config) = (Ok tt, w')
    /\ lookup "workflows/process.cwl" (files w') = Some doc
    /\ forall d, In d Demo.ins ->
         exists declared bound,
           get_path doc (graph 0 [PyStr "inputs"; key_of d]) = Ok (PyDict declared)
           /\ get_path doc (graph 1 [PyStr "inputs"; key_of d]) = Ok (PyDict bound)
           /\ default_shaped d declared
           /\ default_shaped d bound.
Proof.
  exact (input_default_shape _ _ _ _ _ _ _ demo_well_formed).
Defined.

(** C6, as the code has it.  In a run on a well-formed Configuration Document
    (a record without a name counts as named [None], so at most one input
    record goes without a name) the run completes and dumps the document;
    each input or output record that lacks its name or its type adds one
    warning to the log and nothing else: the log grows by the field mapper's
    warnings, then one warning per such input record, then one per such
    output record. *)
Theorem missing_name_or_type_warns
    (yaml_file workflow_output_dir template_file : string)
    (w : world) (c : dict) (ins outs : list dict) :
  well_formed_run yaml_file workflow_output_dir template_file w c ins outs ->
  exists doc w' ws,
    yaml_to_cwl yaml_file workflow_output_dir template_file w = (Ok tt, w')
    /\ lookup (workflow_file workflow_output_dir w) (files w') = Some doc
    /\ warnings w'
       = (warnings w ++ ws ++ input_warnings ins ++ output_warnings outs)%list
    /\ (forall d, In d ins -> lacks_name_or_type d = true ->
        In input_warning (warnings w'))
    /\ (forall d, In d outs -> lacks_name_or_type d = true ->
        In output_warning (warnings w')).
Proof.
  intros WF.
  destruct (yaml_to_cwl_completes _ _ _ _ _ _ _ WF)
    as (doc & w' & R & F & (ws & W) & _).
  exists doc, w', ws. rewrite F, lookup_head.
  split; [exact R|]. split; [reflexivity|]. split; [exact W|].
  rewrite W. split; intros d I L; rewrite !in_app_iff.
  - right. right. left. unfold input_warnings. apply in_flat_map.
    exists d. split; [exact I|]. rewrite L. now left.
  - right. right. right. unfold output_warnings. apply in_flat_map.
    exists d. split; [exact I|]. rewrite L. now left.
Qed.

Lemma missing_name_or_type_warns_witness :
  exists doc w' ws,
    yaml_to_cwl "algorithm_config.yml" "workflows" "process.v1_2.cwl"
      (Demo.world_of (Demo.config_of [[(PyStr "type", Atom (PyStr "string"))]]
                                     [[(PyStr "name", Atom (PyStr "out"))]]))
    = (Ok tt, w')
    /\ lookup "workflows/process.cwl" (files w') = Some doc
    /\ warnings w' = (ws ++ [input_warning] ++ [output_warning])%list.
Proof.
  destruct (missing_name_or_type_warns
              "algorithm_config.yml" "workflows" "process.v1_2.cwl"
              (Demo.world_of (Demo.config_of [[(PyStr "type", Atom (PyStr "string"))]]
                                             [[(PyStr "name", Atom (PyStr "out"))]]))
              (Demo.config_of [[(PyStr "type", Atom (PyStr "string"))]]
                              [[(PyStr "name", Atom (PyStr "out"))]])
              [[(PyStr "type", Atom (PyStr "string"))]]
              [[(PyStr "name", Atom (PyStr "out"))]])
    as (doc & w' & ws & R & F & W & _).
  - unfold well_formed_run. repeat split; try reflexivity.
    exists Demo.template. split; reflexivity.
  - exists doc, w', ws. repeat split; assumption.
Defined.

(** C6, as the claim has it, fails: two input records without a name, each
    with its type, on the well-shaped template.  The second one is taken for
    a duplicate of the first; the run raises and dumps nothing. *)
Lemma two_nameless_inputs_abort :
  forallb (fun d => is_none (field d "name") && negb (is_none (field d "type")))
          Demo.nameless = true
  /\ template_ok Demo.template = true
  /\ fst (yaml_to_cwl "algorithm_config.yml" "workflows" "process.v1_2.cwl"
             (Demo.world_of (Demo.config_of Demo.nameless Demo.outs)))
     = Raise (ValueError
                "Duplicate input parameter name 'None'. Input parameters must be unique.")
  /\ files (snd (yaml_to_cwl "algorithm_config.yml" "workflows" "process.v1_2.cwl"
                    (Demo.world_of (Demo.config_of Demo.nameless Demo.outs))))
     = files (Demo.world_of (Demo.config_of Demo.nameless Demo.outs)).
Proof. vm_compute. repeat split. Qed.

(** C7.  In a run on a well-formed Configuration Document whose input names
    are pairwise distinct, the keys of the mapping at [$graph[0].inputs] of
    the dumped document are the input names of the Configuration Document,
    each once and in encounter order, and the step-level input bindings,
    [$graph[0].steps.process.in], map each input name to itself. *)
Theorem workflow_inputs_keys
    (yaml_file workflow_output_dir template_file : string)
    (w : world) (c : dict) (ins outs : list dict) :
  well_formed_run yaml_file workflow_output_dir template_file w c ins outs ->
  exists doc w' declared,
    yaml_to_cwl yaml_file workflow_output_dir template_file w = (Ok tt, w')
    /\ lookup (workflow_file workflow_output_dir w) (files w') = Some doc
    /\ get_path doc (graph 0 [PyStr "inputs"]) = Ok (PyDict declared)
    /\ dict_keys declared = map key_of ins
    /\ (forall n, In n (dict_keys declared) <-> exists d, In d ins /\ field d "name" = Atom n)
    /\ get_path doc (graph 0 [PyStr "steps"; PyStr "process"; PyStr "in"])
       = Ok (PyDict (map (fun d => (key_of d, Atom (key_of d))) ins)).
Proof.
  intros WF. pose proof WF as (_ & _ & _ & _ & H & U & _).
  destruct (yaml_to_cwl_completes _ _ _ _ _ _ _ WF)
    as (doc & w' & R & F & _ & D & _ & S & _).
  exists doc, w', (map workflow_pair ins). rewrite F, lookup_head.
  assert (K : dict_keys (map workflow_pair ins) = map key_of ins)
    by (unfold dict_keys; now rewrite map_map).
  split; [exact R|]. split; [reflexivity|]. split; [exact D|]. split; [exact K|].
  split.
  - intros n. rewrite K, in_map_iff. split.
    + intros (d & <- & I). exists d. split; [exact I|].
      apply hashable_name_field. apply (proj1 (forallb_forall _ _) H d I).
    + intros (d & I & E). exists d. split; [|exact I].
      unfold key_of. now rewrite E.
  - rewrite S. do 2 f_equal. apply map_ext_in. intros d I.
    unfold step_pair. f_equal. apply hashable_name_field.
    apply (proj1 (forallb_forall _ _) H d I).
Qed.

Lemma workflow_inputs_keys_witness :
  exists doc w' declared,
    yaml_to_cwl "algorithm_config.yml" "workflows" "process.v1_2.cwl"
      (Demo.world_of Demo.config) = (Ok tt, w')
    /\ lookup "workflows/process.cwl" (files w') = Some doc
    /\ get_path doc (graph 0 [PyStr "inputs"]) = Ok (PyDict declared)
    /\ dict_keys declared = [PyStr "infile"; PyStr "threshold"; PyStr "verbose"]
    /\ get_path doc (graph 0 [PyStr "steps"; PyStr "process"; PyStr "in"])
       = Ok (PyDict [(PyStr "infile", Atom (PyStr "infile"));
                     (PyStr "threshold", Atom (PyStr "threshold"));
                     (PyStr "verbose", Atom (PyStr "verbose"))]).
Proof.
  destruct (workflow_inputs_keys _ _ _ _ _ _ _ demo_well_formed)
    as (doc & w' & declared & R & F & D & K & _ & S).
  exists doc, w', declared. repeat split; assumption.
Defined.

Lemma allowed_char_kept (c : ascii) : allowed_char c = kept c.
Proof. destruct c as [[] [] [] [] [] [] [] []]; reflexivity. Qed.

Lemma re_sub_length (s : string) :
  String.length (re_sub_non_alnum s) = String.length s.
Proof. induction s as [|c s IH]; simpl; auto. Qed.

Lemma re_sub_get (s : string) (i : nat) (ch : ascii) :
  String.get i s = Some ch ->
  String.get i (re_sub_non_alnum s) = Some (if kept ch then ch else "_"%char).
Proof.
  revert i. induction s as [|c s IH]; intros [|i] H; simpl in *; try discriminate.
  - injection H as ->. now rewrite allowed_char_kept.
  - now apply IH.
Qed.

(** C5.  For a destination path that ends in the version field and any raw
    value, the Value Normalizer returns a string as long as the text of the
    value ([str] of it: the value itself when it is a string), equal to it
    at the letters, digits and spaces and ["_"] everywhere else; for a path
    that ends in any other key it returns the value unchanged.  On
    ["v1.0-beta!"] the version field gets ["v1_0_beta_"]. *)
Theorem process_value_version (path : list scalar) (final : scalar) (v : value) :
  (final = PyStr "s:version" ->
   exists s,
     process_value (path ++ [final]) v = Ok (Atom (PyStr s))
     /\ String.length s = String.length (py_str v)
     /\ forall i ch, String.get i (py_str v) = Some ch ->
                     String.get i s = Some (if kept ch then ch else "_"%char))
  /\ (final <> PyStr "s:version" -> process_value (path ++ [final]) v = Ok v)
  /\ process_value [PyStr "s:version"] (Atom (PyStr "v1.0-beta!"))
     = Ok (Atom (PyStr "v1_0_beta_")).
Proof.
  unfold process_value. rewrite rev_unit. repeat split.
  - intros ->. exists (re_sub_non_alnum (py_str v)).
    split; [reflexivity|]. split; [apply re_sub_length|]. apply re_sub_get.
  - intros N. destruct (scalar_eqb final (PyStr "s:version")) eqn:E; auto.
    now apply scalar_eqb_str_r in E.
Qed.

Lemma process_value_version_witness :
  (exists s,
     process_value [PyStr "$graph"; PyInt 0; PyStr "s:version"] (Atom (PyInt (-12)))
     = Ok (Atom (PyStr s))
     /\ String.length s = 3%nat
     /\ String.get 0 s = Some "_"%char)
  /\ process_value [PyStr "$graph"; PyInt 0; PyStr "doc"] (Atom (PyStr "v1.0"))
     = Ok (Atom (PyStr "v1.0")).
Proof.
  destruct (process_value_version [PyStr "$graph"; PyInt 0] (PyStr "s:version")
              (Atom (PyInt (-12)))) as (V & _ & _).
  destruct (V eq_refl) as (s & R & L & G).
  destruct (process_value_version [PyStr "$graph"; PyInt 0] (PyStr "doc")
              (Atom (PyStr "v1.0"))) as (_ & O & _).
  split.
  - exists s. split; [exact R|]. split; [exact L|]. exact (G 0%nat "-"%char eq_refl).
  - apply O. discriminate.
Defined.

(** C8, as the code has it.  [set_path_value] assigns in place, on the
    objects of the loaded document.  For a document no list or dictionary
    of which is reached along two paths (a document loaded from YAML
    without aliases), a value that is no part of it and a non-empty path:
    when every segment before the last can be read and the last segment is
    any key of a mapping or an index within a list, the assignment changes
    the objects so that they stand for the tree [Build.set_path_value]
    returns, in which a read at the path finds the value and a read at any
    location apart from the path finds what it found before; when a segment
    before the last is a key missing from a mapping or an index outside a
    sequence, [set_path_value] raises a lookup error ([KeyError] or
    [IndexError]). *)
Theorem set_path_value_frame
    (n m : nat) (st : Store.store) (workflow v : Store.item)
    (doc new : value) (path : list scalar) :
  Store.load n st workflow = Some doc ->
  Store.unshared n st workflow = true ->
  Store.load m st v = Some new ->
  Store.separate n m st workflow v = true ->
  path <> [] ->
  (forall parent,
     get_path doc (removelast path) = Ok parent ->
     assignable parent (last path PyNone) = true ->
     exists st' doc',
       Store.set_path_value st workflow path v = Ok st'
       /\ Store.load (m + n) st' workflow = Some doc'
       /\ set_path_value doc path new = Ok doc'
       /\ get_path doc' path = Ok new
       /\ forall q, apart doc path q = true ->
                    get_path doc' q = get_path doc q)
  /\ (missing_segment doc (removelast path) = true ->
      exists e, Store.set_path_value st workflow path v = Raise e
                /\ is_lookup_error e = true).
Proof.
  intros L U Lv S N.
  pose proof (assign_agrees path n m st workflow v doc new L
                (distinct_nodup _ U) Lv (separate_spec _ _ _ _ _ S)) as A.
  split.
  - intros parent G As.
    destruct (set_path_value_succeeds path doc parent new N G As) as [doc' W].
    rewrite W in A. destruct A as (a & o' & _ & R & L').
    exists (Store.put st a o'), doc'. split; [exact R|]. split; [exact L'|].
    split; [exact W|]. split; [exact (get_set_same _ _ _ _ W)|].
    intros q Q. exact (get_set_apart _ _ _ _ _ W Q).
  - intros M. destruct (missing_segment_raises _ _ M) as (e & G & Le).
    exists e. split; [|exact Le].
    now rewrite (set_path_value_fails path doc new e G) in A.
Qed.

Lemma set_path_value_frame_witness :
  (exists st' doc',
     Store.set_path_value Demo.people (Store.Ref 0)
       [PyStr "s:author"; PyInt 0; PyStr "s:name"] (Store.Leaf (PyStr "Ada"))
     = Ok st'
     /\ Store.load 3 st' (Store.Ref 0) = Some doc'
     /\ get_path doc' [PyStr "s:author"; PyInt 0; PyStr "s:name"]
        = Ok (Atom (PyStr "Ada"))
     /\ get_path doc' [PyStr "s:contributor"; PyInt 0; PyStr "s:name"]
        = Ok (Atom PyNone))
  /\ (exists e,
        Store.set_path_value Demo.people (Store.Ref 0)
          [PyStr "s:editor"; PyInt 0; PyStr "s:name"] (Store.Leaf (PyStr "Ada"))
        = Raise e
        /\ is_lookup_error e = true).
Proof.
  split.
  - destruct (set_path_value_frame 3 0 Demo.people (Store.Ref 0)
                (Store.Leaf (PyStr "Ada")) _ _
                [PyStr "s:author"; PyInt 0; PyStr "s:name"]
                eq_refl eq_refl eq_refl eq_refl ltac:(discriminate)) as [S _].
    destruct (S _ eq_refl eq_refl) as (st' & doc' & R & L & _ & G & F).
    exists st', doc'. split; [exact R|]. split; [exact L|]. split; [exact G|].
    rewrite (F [PyStr "s:contributor"; PyInt 0; PyStr "s:name"] eq_refl).
    reflexivity.
  - destruct (set_path_value_frame 3 0 Demo.people (Store.Ref 0)
                (Store.Leaf (PyStr "Ada")) _ _
                [PyStr "s:editor"; PyInt 0; PyStr "s:name"]
                eq_refl eq_refl eq_refl eq_refl ltac:(discriminate)) as [_ M].
    apply M. reflexivity.
Defined.

(** C8, as the claim has it, fails twice.  The segment before the last
    exists, but the last one is an index outside the list found there: the
    assignment raises [IndexError] and writes nothing.  And a segment before
    the last that does not exist, a string key under a list, raises
    [TypeError], which is no lookup error. *)
Lemma set_path_value_past_end :
  get_path (PyDict [(PyStr "a", PyList [])]) [PyStr "a"] = Ok (PyList [])
  /\ set_path_value (PyDict [(PyStr "a", PyList [])]) [PyStr "a"; PyInt 0]
                    (Atom (PyStr "v"))
     = Raise IndexError
  /\ set_path_value (PyDict [(PyStr "a", PyList [Atom (PyInt 1)])])
                    [PyStr "a"; PyStr "x"; PyStr "y"] (Atom (PyStr "v"))
     = Raise TypeError
  /\ is_lookup_error TypeError = false.
Proof. repeat split. Qed.

End Spec.

Module DeploySpec.
Import Py PyFacts Deploy Registry.

Lemma conflict_body_shape (j P : value) :
  get_path j [PyStr "additionalProperties"; PyStr "processID"] = Ok P ->
  exists d props,
    j = PyDict d
    /\ getitem j (PyStr "additionalProperties") = Ok props
    /\ getitem props (PyStr "processID") = Ok P.
Proof.
  destruct j as [[]|l|d]; simpl; try discriminate.
  destruct (dict_get d (PyStr "additionalProperties")) as [props|]; simpl;
    [|discriminate].
  intros H. exists d, props. repeat split.
  destruct (getitem props (PyStr "processID")); simpl in H; congruence.
Qed.

(** C9, as the code has it.  When the POST is answered 409 with a JSON body
    that holds [additionalProperties.processID = P], [submit_request] sends
    after it exactly one request, a PUT to [<url>/P] with the same body and
    headers, and returns [True] exactly when that PUT succeeds.  When the
    POST is answered with any other 4xx or 5xx status, nothing is sent after
    it and [submit_request] returns [False]. *)
Theorem submit_request_conflict
    (json_dumps : value -> result string) (http : request -> reply)
    (url : string) (data : value) (headers : list (string * string))
    (body : string) (r : response) (sent : list request) :
  json_dumps data = Ok body ->
  http (mkRequest POST url body headers) = Response r ->
  (forall j P,
     status_code r = 409 ->
     json_body r = Some j ->
     get_path j [PyStr "additionalProperties"; PyStr "processID"] = Ok P ->
     snd (submit_request json_dumps http url data headers sent)
     = (sent ++ [mkRequest POST url body headers;
                 mkRequest PUT (url ++ "/" ++ py_str P) body headers])%list
     /\ (fst (submit_request json_dumps http url data headers sent) = Return true
         <-> succeeds (http (mkRequest PUT (url ++ "/" ++ py_str P) body headers))
             = true))
  /\ (400 <= status_code r < 600 ->
      status_code r <> 409 ->
      submit_request json_dumps http url data headers sent
      = (Return false, (sent ++ [mkRequest POST url body headers])%list)).
Proof.
  intros J H. split.
  - intros j P S B G.
    destruct (conflict_body_shape j P G) as (d & props & -> & Gp & Gid).
    destruct r as [st tx jb]. cbn [status_code json_body] in S, B. subst st jb.
    unfold submit_request, put_fallback.
    cbv [try_except nbind nlift send raise_for_status response_json nret nraise
         status_code json_body dict_method_get].
    rewrite J, H. cbn [Z.leb Z.ltb Z.eqb Z.compare Pos.compare Pos.compare_cont
                       andb Pos.eqb].
    rewrite Gp, Gid, <- !app_assoc. cbn [app].
    destruct (http (mkRequest PUT (url ++ "/" ++ py_str P) body headers))
      as [[st' tx' jb']|e]; cbn [succeeds status_code].
    + destruct ((400 <=? st') && (st' <? 600)); cbn [fallback_catches negb fst snd].
      * split; [reflexivity|]. split; discriminate.
      * split; [reflexivity|]. split; reflexivity.
    + destruct (fallback_catches e); cbn [fst snd]; split; try reflexivity;
        split; discriminate.
  - intros [L U] N.
    unfold submit_request.
    cbv [try_except nbind nlift send raise_for_status nret nraise].
    rewrite J, H.
    apply Z.leb_le in L. apply Z.ltb_lt in U. rewrite L, U. cbn [andb].
    apply Z.eqb_neq in N. now rewrite N.
Qed.

Lemma submit_request_conflict_witness :
  snd (submit_request dumps_stub registry "https://registry/processes"
         (PyDict []) [] [])
  = [mkRequest POST "https://registry/processes" "{}" [];
     mkRequest PUT "https://registry/processes/p123" "{}" []]
  /\ fst (submit_request dumps_stub registry "https://registry/processes"
            (PyDict []) [] []) = Return true
  /\ submit_request dumps_stub (always (mkResponse 500 "down" None))
       "https://registry/processes" (PyDict []) [] []
     = (Return false, [mkRequest POST "https://registry/processes" "{}" []]).
Proof.
  destruct (submit_request_conflict dumps_stub registry "https://registry/processes"
              (PyDict []) [] "{}" _ [] eq_refl eq_refl) as [C _].
  destruct (C _ (Atom (PyStr "p123")) eq_refl eq_refl eq_refl) as [T R].
  destruct (submit_request_conflict dumps_stub (always (mkResponse 500 "down" None))
              "https://registry/processes" (PyDict []) [] "{}" _ [] eq_refl eq_refl)
    as [_ O].
  split; [exact T|]. split; [apply R; reflexivity|].
  apply O; simpl; lia || discriminate.
Defined.

(** C9, as the claim has it, fails: a POST answered 304 is not 2xx and not
    409, yet [raise_for_status] accepts it and [submit_request] returns
    [True].  No PUT is sent. *)
Lemma submit_request_not_modified :
  submit_request dumps_stub (always (mkResponse 304 "" None))
    "https://registry/processes" (PyDict []) [] []
  = (Return true, [mkRequest POST "https://registry/processes" "{}" []]).
Proof. reflexivity. Qed.

(** C10 fails on the code.  A POST answered 409 with a JSON body that is not
    an object makes [r.get] raise [AttributeError]; one whose
    [additionalProperties] is [null] makes the subscript raise [TypeError].
    The inner handler catches neither, and the outer [except Exception] does
    not guard a sibling handler: the exception reaches the caller. *)
Theorem submit_request_propagates :
  submit_request dumps_stub (always (mkResponse 409 "[]" (Some (PyList []))))
    "https://registry/processes" (PyDict []) [] []
  = (Propagate (Builtin AttributeError),
     [mkRequest POST "https://registry/processes" "{}" []])
  /\ submit_request dumps_stub
       (always (mkResponse 409 "conflict"
                  (Some (PyDict [(PyStr "detail", Atom (PyStr "Conflict"));
                                 (PyStr "additionalProperties", Atom PyNone)]))))
       "https://registry/processes" (PyDict []) [] []
     = (Propagate (Builtin TypeError),
        [mkRequest POST "https://registry/processes" "{}" []]).
Proof. split; reflexivity. Qed.

End DeploySpec.

Module MoreFacts.
Import Py PyFacts Build Paths PathFacts Runs BuildFacts Reports.

Lemma diverge_sym (p q : list scalar) : diverge p q = diverge q p.
Proof.
  revert q. induction p as [|k p IH]; intros [|k' q]; simpl; auto.
  rewrite (scalar_eqb_sym k k'), IH.
  destruct (plain k), (plain k'); reflexivity.
Qed.

Lemma process_value_normalized (target : list scalar) (raw : value) :
  target <> [] -> process_value target raw = Ok (normalized target raw).
Proof.
  intros N. unfold normalized.
  destruct (process_value_ok target raw N) as [v ->]. reflexivity.
Qed.

(** The inner loop over the destinations of one key. *)
Lemma assign_targets_spec (c : dict) (key : string) (raw : value)
    (targets : list (list scalar)) (wf : value) :
  forallb writable_path targets = true ->
  targets_apart targets = true ->
  template_ok wf = true ->
  dict_get c (PyStr key) = Some raw ->
  exists wf',
    assign_targets (PyDict c) key targets wf = Ok wf'
    /\ template_ok wf' = true
    /\ (forall q, forallb (fun p => diverge p q) targets = true ->
                  get_path wf' q = get_path wf q)
    /\ (forall p, In p targets -> get_path wf' p = Ok (normalized p raw)).
Proof.
  revert wf. induction targets as [|target rest IH]; intros wf W A T G.
  - exists wf. repeat split; auto. intros p [].
  - simpl in W, A. apply andb_true_iff in W as [W1 W2].
    apply andb_true_iff in A as [A1 A2].
    cbn [assign_targets getitem]. rewrite G. cbn [rbind].
    rewrite (process_value_normalized target raw (writable_nonempty _ W1)).
    cbn [rbind].
    destruct (write_step target wf (normalized target raw) W1 T) as (wf1 & S & T1).
    rewrite S. cbn [rbind].
    destruct (IH wf1 W2 A2 T1 G) as (wf' & R & T' & F & V).
    exists wf'. split; [exact R|]. split; [exact T'|]. split.
    + intros q D. simpl in D. apply andb_true_iff in D as [D1 D2].
      rewrite (F q D2). exact (get_set_diverge _ _ _ _ _ S D1).
    + intros p [<-|I]; [|now apply V].
      rewrite F.
      * exact (get_set_same _ _ _ _ S).
      * apply forallb_forall. intros q Iq. rewrite diverge_sym.
        exact (proj1 (forallb_forall _ _) A1 q Iq).
Qed.

(** The field mapper, entry by entry: what it writes, what it leaves, what
    it logs. *)
Lemma map_fields_spec (table : list (string * list (list scalar))) (c : dict)
    (wf : value) (w : world) :
  table_ok table = true ->
  table_apart table = true ->
  template_ok wf = true ->
  exists wf',
    map_fields table (PyDict c) wf w
    = (Ok wf', add_warnings w (missing_warnings c table))
    /\ template_ok wf' = true
    /\ (forall q, forallb (fun p => diverge p q) (table_targets table) = true ->
                  get_path wf' q = get_path wf q)
    /\ (forall key targets p raw,
          In (key, targets) table -> In p targets ->
          dict_get c (PyStr key) = Some raw ->
          get_path wf' p = Ok (normalized p raw))
    /\ (forall key targets p,
          In (key, targets) table -> In p targets ->
          dict_get c (PyStr key) = None ->
          get_path wf' p = get_path wf p).
Proof.
  revert wf w. induction table as [|[key targets] rest IH]; intros wf w K A T.
  - exists wf. simpl. rewrite add_warnings_nil. repeat split; auto.
    intros ? ? ? ? [].
  - simpl in K, A. apply andb_true_iff in K as [K1 K2].
    apply andb_true_iff in A as [A12 A3]. apply andb_true_iff in A12 as [A1 A2].
    assert (Cross : forall p, In p targets ->
              forallb (fun q => diverge q p) (table_targets rest) = true).
    { intros p Ip. apply forallb_forall. intros q Iq.
      unfold table_targets in Iq. apply in_concat in Iq as (ts & Its & Iq).
      apply in_map_iff in Its as (entry & <- & Ie).
      rewrite diverge_sym.
      pose proof (proj1 (forallb_forall _ _) A2 p Ip) as H1.
      pose proof (proj1 (forallb_forall _ _) H1 entry Ie) as H2.
      exact (proj1 (forallb_forall _ _) H2 q Iq). }
    assert (Cross' : forall q, In q (table_targets rest) ->
              forallb (fun p => diverge p q) targets = true).
    { intros q Iq. apply forallb_forall. intros p Ip. rewrite diverge_sym.
      exact (proj1 (forallb_forall _ _) (Cross p Ip) q Iq). }
    cbn [map_fields contains lift bind missing_warnings flat_map fst].
    unfold has_key at 1.
    destruct (dict_get c (PyStr key)) as [raw|] eqn:G.
    + destruct (assign_targets_spec c key raw targets wf K1 A1 T G)
        as (wf1 & R1 & T1 & F1 & V1).
      rewrite R1. cbn [lift bind app].
      destruct (IH wf1 w K2 A3 T1) as (wf' & R & T' & F & V & U).
      exists wf'. split; [exact R|]. split; [exact T'|]. split; [|split].
      * intros q D. unfold table_targets in D. simpl in D.
        rewrite forallb_app in D. apply andb_true_iff in D as [D1 D2].
        rewrite (F q D2). now apply F1.
      * intros key' targets' p raw' [[= <- <-]|I] Ip G'.
        -- rewrite (F p (Cross p Ip)). rewrite G in G'. injection G' as <-.
           now apply V1.
        -- now apply (V key' targets').
      * intros key' targets' p [[= <- <-]|I] Ip G'; [congruence|].
        rewrite (U key' targets' p I Ip G'). apply F1. apply Cross'.
        unfold table_targets. apply in_concat. exists targets'. split; auto.
        apply (in_map snd _ _ I).
    + cbn [bind logging_warning ret].
      destruct (IH wf (add_warnings w [missing_warning key]) K2 A3 T)
        as (wf' & R & T' & F & V & U).
      exists wf'. split; [|split; [exact T'|split; [|split]]].
      * unfold add_warnings in R at 1. unfold missing_warning in R at 1.
        rewrite R, add_warnings_app. reflexivity.
      * intros q D. unfold table_targets in D. simpl in D.
        rewrite forallb_app in D. apply andb_true_iff in D as [D1 D2].
        now apply F.
      * intros key' targets' p raw' [[= <- <-]|I] Ip G'; [congruence|].
        now apply (V key' targets').
      * intros key' targets' p [[= <- <-]|I] Ip G'.
        -- apply F. now apply Cross.
        -- now apply (U key' targets').
Qed.

Lemma OGC_CWL_KEY_MAP_apart : table_apart OGC_CWL_KEY_MAP = true.
Proof. vm_compute. reflexivity. Qed.

Lemma targets_after_mapper :
  forallb (fun p => forallb (fun a => diverge a p) assembler_paths)
          (table_targets OGC_CWL_KEY_MAP) = true.
Proof. vm_compute. reflexivity. Qed.

Ltac write_as T E T' wf' :=
  match goal with
  | |- context [bind (lift (set_path_value ?wf ?p ?v))] =>
      destruct (write_step p wf v eq_refl T) as (wf' & E & T');
      rewrite (bind_ok _ _ _ _ _ (lift_ok _ _ _ E)); cbv beta
  end.

(** A run on a Configuration Document, up to the dump: the document it
    builds, and the world it is about to save it in. *)
Lemma yaml_to_cwl_build (yaml_file workflow_output_dir template_file : string)
    (w : world) (c : dict) (t : value) (ins outs : list dict) :
  lookup yaml_file (files w) = Some (PyDict c) ->
  lookup template_file (files w) = Some t ->
  template_ok t = true ->
  dir_ready workflow_output_dir w = true ->
  records c "inputs" = Some ins ->
  forallb hashable_name ins = true ->
  unique (map key_of ins) = true ->
  records c "outputs" = Some outs ->
  forallb hashable_name outs = true ->
  exists doc,
    yaml_to_cwl yaml_file workflow_output_dir template_file w
    = save workflow_output_dir doc
        (add_warnings (after_guard workflow_output_dir w)
           (missing_warnings c OGC_CWL_KEY_MAP
              ++ input_warnings ins ++ output_warnings outs))
    /\ run_report t w c ins outs doc.
Proof.
  intros Hc Ht T Hdir Hin Hhash Huniq Hout Hohash.
  unfold yaml_to_cwl.
  step (safe_load_ok _ _ _ Hc). step (safe_load_ok _ _ _ Ht). prim.
  step (ensure_dir workflow_output_dir w Hdir).
  set (w1 := after_guard workflow_output_dir w).
  destruct (map_fields_spec OGC_CWL_KEY_MAP c t w1 OGC_CWL_KEY_MAP_ok
              OGC_CWL_KEY_MAP_apart T) as (wf0 & R0 & T0 & F0 & V0 & U0).
  step R0. prim.
  pose proof (records_iterate _ _ _ Hin) as It. cbn [rbind dict_method_get] in It.
  match goal with |- context [bind _ _ ?w] => step (lift_ok _ _ w It) end.
  match goal with |- context [bind _ _ ?w] =>
    destruct (input_loop_ok ins (mkInputs [] [] [] []) w Hhash Huniq)
      as (acc & RI & A1 & A2 & A3)
  end.
  step RI.
  write_as T0 W1 T1 wf1. write_as T1 W2 T2 wf2. write_as T2 W3 T3 wf3.
  prim.
  pose proof (records_iterate _ _ _ Hout) as Ot. cbn [rbind dict_method_get] in Ot.
  match goal with |- context [bind _ _ ?w] => step (lift_ok _ _ w Ot) end.
  match goal with |- context [bind _ _ ?w] =>
    step (output_loop_ok outs (mkOutputs [] [] []) w Hohash) end.
  write_as T3 W4 T4 wf4. write_as T4 W5 T5 wf5. write_as T5 W6 T6 wf6.
  prim.
  write_as T6 W7 T7 wf7. write_as T7 W8 T8 wf8. prim.
  write_as T8 W9 T9 wf9. prim. write_as T9 W10 T10 doc.
  exists doc. split.
  - match goal with
    | |- _ ?wN = save _ _ ?wR => replace wR with wN; [reflexivity|]
    end.
    unfold add_warnings, w1.
    cbn [files dirs faults warnings environ today stdout after_guard fst snd].
    now rewrite <- !app_assoc.
  - cbn [workflow_inputs step_inputs process_inputs app List.length Z.of_nat Z.add]
      in A1, A2, A3.
    cbn [workflow_outputs step_outputs process_outputs app] in W4, W5, W6.
    cbn [today environ add_warnings date_today getenv fst snd] in W7, W9, W10.
    assert (U1 : unique (map fst (map workflow_pair ins)) = true)
      by (rewrite map_map; exact Huniq).
    assert (U2 : unique (map fst (process_pairs 1 ins)) = true)
      by (rewrite process_pairs_keys; exact Huniq).
    assert (U3 : unique (map fst (map step_pair ins)) = true)
      by (rewrite map_map; exact Huniq).
    rewrite A1, (merge_singletons_fresh _ U1) in W1.
    rewrite A3, (merge_singletons_fresh _ U2) in W2.
    rewrite A2, (merge_singletons_fresh _ U3) in W3.
    assert (Frame : forall q, forallb (fun a => diverge a q) assembler_paths = true ->
                              get_path doc q = get_path wf0 q).
    { intros q D. cbn [forallb assembler_paths] in D.
      repeat (apply andb_true_iff in D as [? D]).
      rewrite (get_set_diverge _ q _ _ _ W10), (get_set_diverge _ q _ _ _ W9),
        (get_set_diverge _ q _ _ _ W8), (get_set_diverge _ q _ _ _ W7),
        (get_set_diverge _ q _ _ _ W6), (get_set_diverge _ q _ _ _ W5),
        (get_set_diverge _ q _ _ _ W4), (get_set_diverge _ q _ _ _ W3),
        (get_set_diverge _ q _ _ _ W2), (get_set_diverge _ q _ _ _ W1);
        auto. }
    assert (After : forall key targets p,
              In (key, targets) OGC_CWL_KEY_MAP -> In p targets ->
              forallb (fun a => diverge a p) assembler_paths = true).
    { intros key targets p I Ip.
      apply (proj1 (forallb_forall _ _) targets_after_mapper).
      unfold table_targets. apply in_concat. exists targets. split; auto.
      apply (in_map snd _ _ I). }
    unfold run_report. split; [|split; [|split]].
    + intros key targets p raw I Ip G.
      rewrite (Frame p (After key targets p I Ip)). now apply (V0 key targets).
    + intros key targets p I Ip G.
      rewrite (Frame p (After key targets p I Ip)). now apply (U0 key targets).
    + intros q Q. unfold untouched in Q. rewrite forallb_app in Q.
      apply andb_true_iff in Q as [Q1 Q2]. rewrite (Frame q Q2). now apply F0.
    + unfold env_value. repeat split.
      * frame W10; frame W9; frame W8. apply (get_set_same _ _ _ _ W7).
      * frame W10; frame W9. apply (get_set_same _ _ _ _ W8).
      * frame W10. apply (get_set_same _ _ _ _ W9).
      * apply (get_set_same _ _ _ _ W10).
      * frame W10; frame W9; frame W8; frame W7; frame W6; frame W5; frame W4;
          frame W3; frame W2. apply (get_set_same _ _ _ _ W1).
      * frame W10; frame W9; frame W8; frame W7; frame W6; frame W5; frame W4;
          frame W3. apply (get_set_same _ _ _ _ W2).
      * frame W10; frame W9; frame W8; frame W7; frame W6; frame W5; frame W4.
        apply (get_set_same _ _ _ _ W3).
      * frame W10; frame W9; frame W8; frame W7; frame W6; frame W5.
        apply (get_set_same _ _ _ _ W4).
      * frame W10; frame W9; frame W8; frame W7; frame W6.
        apply (get_set_same _ _ _ _ W5).
      * frame W10; frame W9; frame W8; frame W7.
        apply (get_set_same _ _ _ _ W6).
Qed.

(** A run on a well-formed Configuration Document, in full. *)
Lemma yaml_to_cwl_run (yaml_file workflow_output_dir template_file : string)
    (w : world) (c : dict) (t : value) (ins outs : list dict) :
  well_formed_run yaml_file workflow_output_dir template_file w c ins outs ->
  lookup template_file (files w) = Some t ->
  exists doc,
    yaml_to_cwl yaml_file workflow_output_dir template_file w
    = (Ok tt, world_after workflow_output_dir w c ins outs doc)
    /\ run_report t w c ins outs doc.
Proof.
  intros (Hc & (t' & Ht' & T) & Hdir & Hin & Hhash & Huniq & Hout & Hohash) Ht.
  rewrite Ht in Ht'. injection Ht' as <-.
  destruct (yaml_to_cwl_build _ _ _ _ _ _ _ _ Hc Ht T (output_ready_dir _ _ Hdir)
              Hin Hhash Huniq Hout Hohash) as (doc & R & Rep).
  exists doc. split; [|exact Rep].
  rewrite R, (save_ok _ _ w _ Hdir) by reflexivity. reflexivity.
Qed.

End MoreFacts.

Module BuildProps.
Import Py PyFacts Build Paths PathFacts Runs BuildFacts Reports MoreFacts.

Lemma demo_template_file :
  lookup "process.v1_2.cwl" (files (Demo.world_of Demo.config)) = Some Demo.template.
Proof. reflexivity. Defined.

Lemma demo_run_well_formed :
  well_formed_run "algorithm_config.yml" "workflows" "process.v1_2.cwl"
    (Demo.world_of Demo.config) Demo.config Demo.ins Demo.outs.
Proof.
  unfold well_formed_run. repeat split; try reflexivity.
  exists Demo.template. split; reflexivity.
Defined.

Lemma lookup_first {A} (k : string) (a : A) (l : list (string * A)) :
  lookup k ((k, a) :: l) = Some a.
Proof. simpl. now rewrite String.eqb_refl. Qed.

Lemma table_target_nonempty (key : string) (targets : list (list scalar))
    (p : list scalar) :
  In (key, targets) OGC_CWL_KEY_MAP -> In p targets -> p <> [].
Proof.
  intros I Ip. apply writable_nonempty.
  pose proof (proj1 (forallb_forall _ _) OGC_CWL_KEY_MAP_ok _ I) as H.
  exact (proj1 (forallb_forall _ _) H p Ip).
Qed.

(** X1.  In a completed run on a template without aliases (no list or
    dictionary of it is held at two places, so that the tree is the
    document), each key of the mapping table that the Configuration
    Document has is written at every one of its destinations: the dumped
    document holds there what [process_value] makes of the configured
    value, and later assignments do not reach it. *)
Theorem field_mapping_lands
    (yaml_file workflow_output_dir template_file : string)
    (w : world) (c : dict) (t : value) (ins outs : list dict) :
  well_formed_run yaml_file workflow_output_dir template_file w c ins outs ->
  lookup template_file (files w) = Some t ->
  exists doc w',
    yaml_to_cwl yaml_file workflow_output_dir template_file w = (Ok tt, w')
    /\ lookup (workflow_file workflow_output_dir w) (files w') = Some doc
    /\ forall key targets p raw,
         In (key, targets) OGC_CWL_KEY_MAP -> In p targets ->
         dict_get c (PyStr key) = Some raw ->
         get_path doc p = process_value p raw.
Proof.
  intros WF Ht.
  destruct (yaml_to_cwl_run _ _ _ _ _ _ _ _ WF Ht) as (doc & R & V & _).
  exists doc. eexists. split; [exact R|]. split; [apply lookup_first|].
  intros key targets p raw I Ip G.
  rewrite (process_value_normalized p raw (table_target_nonempty _ _ _ I Ip)).
  now apply (V key targets).
Qed.

Lemma field_mapping_lands_witness :
  exists doc w',
    yaml_to_cwl "algorithm_config.yml" "workflows" "process.v1_2.cwl"
      (Demo.world_of Demo.config) = (Ok tt, w')
    /\ lookup "workflows/process.cwl" (files w') = Some doc
    /\ get_path doc (graph 0 [PyStr "label"]) = Ok (Atom (PyStr "demo"))
    /\ get_path doc (graph 0 [PyStr "id"]) = Ok (Atom (PyStr "demo"))
    /\ get_path doc [PyStr "s:version"] = Ok (Atom (PyStr "v1_0_")).
Proof.
  destruct (field_mapping_lands _ _ _ _ _ _ _ _ demo_run_well_formed demo_template_file)
    as (doc & w' & R & F & V).
  exists doc, w'. split; [exact R|]. split; [exact F|].
  split; [|split].
  - rewrite (V "algorithm_name"
               [graph 0 [PyStr "label"]; graph 0 [PyStr "id"]]
               (graph 0 [PyStr "label"]) (Atom (PyStr "demo")));
      [reflexivity | right; left; reflexivity | left; reflexivity | reflexivity].
  - rewrite (V "algorithm_name"
               [graph 0 [PyStr "label"]; graph 0 [PyStr "id"]]
               (graph 0 [PyStr "id"]) (Atom (PyStr "demo")));
      [reflexivity | right; left; reflexivity | right; left; reflexivity
       | reflexivity].
  - rewrite (V "algorithm_version" [[PyStr "s:version"]] [PyStr "s:version"]
               (Atom (PyStr "v1.0!")));
      [reflexivity | right; right; left; reflexivity | left; reflexivity
       | reflexivity].
Defined.

(** X2.  In a completed run, each key of the mapping table that the
    Configuration Document lacks draws one warning; the field mapper's
    warnings come first in the log, one per missing key in the order of the
    table.  On a template without aliases (no list or dictionary of it is
    held at two places) the destinations of such a key hold in the dumped
    document what the template held there. *)
Theorem missing_key_warns_and_keeps
    (yaml_file workflow_output_dir template_file : string)
    (w : world) (c : dict) (t : value) (ins outs : list dict) :
  well_formed_run yaml_file workflow_output_dir template_file w c ins outs ->
  lookup template_file (files w) = Some t ->
  exists doc w',
    yaml_to_cwl yaml_file workflow_output_dir template_file w = (Ok tt, w')
    /\ lookup (workflow_file workflow_output_dir w) (files w') = Some doc
    /\ warnings w'
       = (warnings w ++ missing_warnings c OGC_CWL_KEY_MAP
            ++ input_warnings ins ++ output_warnings outs)%list
    /\ forall key targets,
         In (key, targets) OGC_CWL_KEY_MAP ->
         dict_get c (PyStr key) = None ->
         In (missing_warning key) (warnings w')
         /\ forall p, In p targets -> get_path doc p = get_path t p.
Proof.
  intros WF Ht.
  destruct (yaml_to_cwl_run _ _ _ _ _ _ _ _ WF Ht) as (doc & R & _ & U & _).
  exists doc. eexists. split; [exact R|]. split; [apply lookup_first|].
  split; [reflexivity|].
  intros key targets I G. split.
  - cbn [warnings world_after]. rewrite !in_app_iff. right. left.
    unfold missing_warnings. apply in_flat_map. exists (key, targets).
    split; [exact I|]. unfold has_key. cbn [fst]. rewrite G. now left.
  - intros p Ip. now apply (U key targets).
Qed.

Lemma missing_key_warns_and_keeps_witness :
  exists doc w',
    yaml_to_cwl "algorithm_config.yml" "workflows" "process.v1_2.cwl"
      (Demo.world_of Demo.config) = (Ok tt, w')
    /\ In "Expected key `author` not found in algorithm config." (warnings w')
    /\ get_path doc [PyStr "s:author"; PyInt 0; PyStr "s:name"] = Ok (Atom PyNone).
Proof.
  destruct (missing_key_warns_and_keeps _ _ _ _ _ _ _ _
              demo_run_well_formed demo_template_file)
    as (doc & w' & R & F & W & M).
  destruct (M "author" [[PyStr "s:author"; PyInt 0; PyStr "s:name"]]) as [Wa Ka].
  - do 3 right. left. reflexivity.
  - reflexivity.
  - exists doc, w'. split; [exact R|]. split; [exact Wa|].
    rewrite (Ka _ (or_introl eq_refl)). reflexivity.
Defined.

(** X3.  A completed run stamps the dumped document: [s:dateCreated] is
    today's date, [s:softwareVersion] is ["1.0.0"], the [dockerPull] of the
    process node's [DockerRequirement] is the [DOCKER_TAG] of the
    environment and [s:commitHash] its [GIT_COMMIT_HASH], each [None] when
    the variable is not set. *)
Theorem metadata_stamped
    (yaml_file workflow_output_dir template_file : string)
    (w : world) (c : dict) (ins outs : list dict) :
  well_formed_run yaml_file workflow_output_dir template_file w c ins outs ->
  exists doc w',
    yaml_to_cwl yaml_file workflow_output_dir template_file w = (Ok tt, w')
    /\ lookup (workflow_file workflow_output_dir w) (files w') = Some doc
    /\ get_path doc [PyStr "s:dateCreated"] = Ok (Atom (today w))
    /\ get_path doc [PyStr "s:softwareVersion"] = Ok (Atom (PyStr "1.0.0"))
    /\ get_path doc (graph 1 [PyStr "requirements"; PyStr "DockerRequirement";
                              PyStr "dockerPull"])
       = Ok (env_value "DOCKER_TAG" w)
    /\ get_path doc [PyStr "s:commitHash"] = Ok (env_value "GIT_COMMIT_HASH" w).
Proof.
  intros WF. pose proof WF as (_ & (t & Ht & _) & _).
  destruct (yaml_to_cwl_run _ _ _ _ _ _ _ _ WF Ht)
    as (doc & R & _ & _ & _ & D & S & K & H & _).
  exists doc. eexists. split; [exact R|]. split; [apply lookup_first|].
  repeat split; assumption.
Qed.

Lemma metadata_stamped_witness :
  exists doc w',
    yaml_to_cwl "algorithm_config.yml" "workflows" "process.v1_2.cwl"
      (Demo.world_of Demo.config) = (Ok tt, w')
    /\ get_path doc [PyStr "s:dateCreated"] = Ok (Atom (PyDate 2026 11 4))
    /\ get_path doc (graph 1 [PyStr "requirements"; PyStr "DockerRequirement";
                              PyStr "dockerPull"])
       = Ok (Atom (PyStr "registry/demo:main"))
    /\ get_path doc [PyStr "s:commitHash"] = Ok (Atom PyNone).
Proof.
  destruct (metadata_stamped _ _ _ _ _ _ _ demo_run_well_formed)
    as (doc & w' & R & F & D & S & K & H).
  exists doc, w'. repeat split; assumption.
Defined.

(** X4.  A completed run, which is one whose output file can be opened and
    written, changes the world in four ways and no other: one file more,
    the dumped document at [os.path.join] of the output directory and
    [WORKFLOW_FILE_NAME] (default [process.cwl]), every other file as it
    was; the output directory, made together with the missing directories
    above it when nothing was at its path, the directories as they were
    otherwise; the warnings appended to the log; one line, naming the file,
    on standard output.  The environment and the date are as they were. *)
Theorem run_effects
    (yaml_file workflow_output_dir template_file : string)
    (w : world) (c : dict) (ins outs : list dict) :
  well_formed_run yaml_file workflow_output_dir template_file w c ins outs ->
  exists doc,
    yaml_to_cwl yaml_file workflow_output_dir template_file w
    = (Ok tt,
       mkWorld ((workflow_file workflow_output_dir w, doc) :: files w)
               (dirs_after workflow_output_dir w) (faults w) (environ w) (today w)
               (warnings w ++ missing_warnings c OGC_CWL_KEY_MAP
                  ++ input_warnings ins ++ output_warnings outs)%list
               (stdout w ++ [saved_message (workflow_file workflow_output_dir w)])%list)
    /\ (forall path, path <> workflow_file workflow_output_dir w ->
                     lookup path ((workflow_file workflow_output_dir w, doc) :: files w)
                     = lookup path (files w))
    /\ (exists_at workflow_output_dir w = false ->
        dirs_after workflow_output_dir w
        = (workflow_output_dir
             :: missing_above (ancestors workflow_output_dir) w ++ dirs w)%list)
    /\ (exists_at workflow_output_dir w = true ->
        dirs_after workflow_output_dir w = dirs w).
Proof.
  intros WF. pose proof WF as (_ & (t & Ht & _) & _).
  destruct (yaml_to_cwl_run _ _ _ _ _ _ _ _ WF Ht) as (doc & R & _).
  exists doc. split; [exact R|]. split; [|split].
  - intros path N. simpl.
    destruct (String.eqb_spec (workflow_file workflow_output_dir w) path);
      congruence.
  - unfold dirs_after. now intros ->.
  - unfold dirs_after. now intros ->.
Qed.

Lemma run_effects_witness :
  exists doc,
    yaml_to_cwl "algorithm_config.yml" "workflows" "process.v1_2.cwl"
      (Demo.world_of Demo.config)
    = (Ok tt,
       mkWorld [("workflows/process.cwl", doc);
                ("algorithm_config.yml", PyDict Demo.config);
                ("process.v1_2.cwl", Demo.template)]
               ["workflows"] [] [("DOCKER_TAG", "registry/demo:main")]
               (PyDate 2026 11 4)
               (missing_warnings Demo.config OGC_CWL_KEY_MAP)
               ["CWL workflow saved to workflows/process.cwl"]).
Proof.
  destruct (run_effects _ _ _ _ _ _ _ demo_run_well_formed) as (doc & R & _).
  exists doc. rewrite R. reflexivity.
Defined.

(** X5.  A completed run on a template without aliases (no list or
    dictionary of it is held at two places) leaves alone every location of
    the template that parts ways with the destinations of the mapping table
    and with the places the assembler assigns at: the dumped document reads
    there as the template does. *)
Theorem template_elsewhere_untouched
    (yaml_file workflow_output_dir template_file : string)
    (w : world) (c : dict) (t : value) (ins outs : list dict) :
  well_formed_run yaml_file workflow_output_dir template_file w c ins outs ->
  lookup template_file (files w) = Some t ->
  exists doc w',
    yaml_to_cwl yaml_file workflow_output_dir template_file w = (Ok tt, w')
    /\ lookup (workflow_file workflow_output_dir w) (files w') = Some doc
    /\ forall q, untouched q = true -> get_path doc q = get_path t q.
Proof.
  intros WF Ht.
  destruct (yaml_to_cwl_run _ _ _ _ _ _ _ _ WF Ht) as (doc & R & _ & _ & F & _).
  exists doc. eexists. split; [exact R|]. split; [apply lookup_first|]. exact F.
Qed.

Lemma template_elsewhere_untouched_witness :
  exists doc w',
    yaml_to_cwl "algorithm_config.yml" "workflows" "process.v1_2.cwl"
      (Demo.world_of Demo.config) = (Ok tt, w')
    /\ get_path doc [PyStr "cwlVersion"] = Ok (Atom (PyStr "v1.2"))
    /\ get_path doc (graph 0 [PyStr "steps"; PyStr "process"; PyStr "run"])
       = Ok (Atom (PyStr "#main")).
Proof.
  destruct (template_elsewhere_untouched _ _ _ _ _ _ _ _
              demo_run_well_formed demo_template_file) as (doc & w' & R & _ & F).
  exists doc, w'. split; [exact R|]. split.
  - rewrite (F [PyStr "cwlVersion"] eq_refl). reflexivity.
  - rewrite (F (graph 0 [PyStr "steps"; PyStr "process"; PyStr "run"]) eq_refl).
    reflexivity.
Defined.






(** X7.  A Configuration Document without input records and without output
    records (the sections missing or empty), run with an output file that
    can be written, still completes: the four
    mappings of the two graph nodes are set to empty mappings, the step's
    [in] to an empty mapping and its [out] to an empty list, whatever the
    template held there, and the loops log nothing. *)
Theorem empty_sections
    (yaml_file workflow_output_dir template_file : string)
    (w : world) (c : dict) (t : value) :
  lookup yaml_file (files w) = Some (PyDict c) ->
  lookup template_file (files w) = Some t ->
  template_ok t = true ->
  output_ready workflow_output_dir w = true ->
  records c "inputs" = Some [] ->
  records c "outputs" = Some [] ->
  exists doc w',
    yaml_to_cwl yaml_file workflow_output_dir template_file w = (Ok tt, w')
    /\ lookup (workflow_file workflow_output_dir w) (files w') = Some doc
    /\ warnings w' = (warnings w ++ missing_warnings c OGC_CWL_KEY_MAP)%list
    /\ get_path doc (graph 0 [PyStr "inputs"]) = Ok (PyDict [])
    /\ get_path doc (graph 1 [PyStr "inputs"]) = Ok (PyDict [])
    /\ get_path doc (graph 0 [PyStr "steps"; PyStr "process"; PyStr "in"])
       = Ok (PyDict [])
    /\ get_path doc (graph 0 [PyStr "outputs"]) = Ok (PyDict [])
    /\ get_path doc (graph 1 [PyStr "outputs"]) = Ok (PyDict [])
    /\ get_path doc (graph 0 [PyStr "steps"; PyStr "process"; PyStr "out"])
       = Ok (PyList []).
Proof.
  intros Hc Ht T Hdir Hin Hout.
  assert (WF : well_formed_run yaml_file workflow_output_dir template_file w c [] []).
  { unfold well_formed_run. repeat split; auto. exists t. auto. }
  destruct (yaml_to_cwl_run _ _ _ _ _ _ _ _ WF Ht)
    as (doc & R & _ & _ & _ & _ & _ & _ & _ & I0 & I1 & S0 & O0 & O1 & S1).
  exists doc. eexists. split; [exact R|]. split; [apply lookup_first|].
  split; [cbn; now rewrite !app_nil_r|].
  repeat split; assumption.
Qed.

Lemma empty_sections_witness :
  exists doc w',
    yaml_to_cwl "algorithm_config.yml" "workflows" "process.v1_2.cwl"
      (Demo.world_of [(PyStr "inputs", PyList [])]) = (Ok tt, w')
    /\ get_path doc (graph 1 [PyStr "inputs"]) = Ok (PyDict [])
    /\ get_path doc (graph 0 [PyStr "steps"; PyStr "process"; PyStr "out"])
       = Ok (PyList []).
Proof.
  destruct (empty_sections "algorithm_config.yml" "workflows" "process.v1_2.cwl"
              (Demo.world_of [(PyStr "inputs", PyList [])])
              [(PyStr "inputs", PyList [])] Demo.template
              eq_refl eq_refl eq_refl eq_refl eq_refl eq_refl)
    as (doc & w' & R & _ & _ & _ & I1 & _ & _ & _ & S1).
  exists doc, w'. repeat split; assumption.
Defined.

(** ** Nothing is written before the dump *)

Lemma same_files_refl (w : world) : same_files w w.
Proof. repeat split. Qed.

Lemma same_files_trans (w0 w1 w2 : world) :
  same_files w0 w1 -> same_files w1 w2 -> same_files w0 w2.
Proof. intros (A & B & C & D) (A' & B' & C' & D'). repeat split; congruence. Qed.

Lemma quiet_ret {A} (a : A) : quiet (ret a).
Proof. intros w r w' [= <- <-]. apply same_files_refl. Qed.

Lemma quiet_raise {A} (e : exn) : quiet (@raise A e).
Proof. intros w r w' [= <- <-]. apply same_files_refl. Qed.

Lemma quiet_lift {A} (x : result A) : quiet (lift x).
Proof. intros w r w' [= <- <-]. apply same_files_refl. Qed.

Lemma quiet_bind {A B} (m : M A) (k : A -> M B) :
  quiet m -> (forall a, quiet (k a)) -> quiet (bind m k).
Proof.
  intros Qm Qk w r w'. unfold bind.
  destruct (m w) as [[a|e] w1] eqn:E.
  - intros H. exact (same_files_trans _ _ _ (Qm _ _ _ E) (Qk a _ _ _ H)).
  - intros [= <- <-]. exact (Qm _ _ _ E).
Qed.

Lemma quiet_if {A} (b : bool) (m1 m2 : M A) :
  quiet m1 -> quiet m2 -> quiet (if b then m1 else m2).
Proof. now destruct b. Qed.

Lemma quiet_logging_warning (msg : string) : quiet (logging_warning msg).
Proof. intros w r w' [= <- <-]. repeat split. Qed.

Lemma quiet_safe_load (path : string) : quiet (safe_load path).
Proof.
  intros w r w'. unfold safe_load.
  destruct (lookup path (files w)); intros [= <- <-]; apply same_files_refl.
Qed.

Lemma quiet_path_exists (path : string) : quiet (path_exists path).
Proof. intros w r w' [= <- <-]. apply same_files_refl. Qed.

Lemma quiet_makedirs (path : string) : quiet (makedirs path).
Proof.
  intros w r w'. unfold makedirs.
  destruct (makedirs_fails path w); intros [= <- <-]; repeat split.
Qed.

Lemma quiet_getenv (name : string) : quiet (getenv name).
Proof. intros w r w' [= <- <-]. apply same_files_refl. Qed.

Lemma quiet_getenv_default (name default : string) :
  quiet (getenv_default name default).
Proof. intros w r w' [= <- <-]. apply same_files_refl. Qed.

Lemma quiet_date_today : quiet date_today.
Proof. intros w r w' [= <- <-]. apply same_files_refl. Qed.

Create HintDb quiet.
#[local] Hint Resolve quiet_ret quiet_raise quiet_lift quiet_if
  quiet_logging_warning quiet_safe_load quiet_path_exists quiet_makedirs
  quiet_getenv quiet_getenv_default quiet_date_today : quiet.

Lemma quiet_map_fields (table : list (string * list (list scalar)))
    (config workflow : value) :
  quiet (map_fields table config workflow).
Proof.
  revert workflow. induction table as [|[key targets] rest IH]; intros workflow.
  - apply quiet_ret.
  - cbn [map_fields]. apply quiet_bind; [auto with quiet|]. intros present.
    apply quiet_bind; [|intros; apply IH].
    destruct present; [auto with quiet|].
    apply quiet_bind; auto with quiet.
Qed.

Lemma quiet_input_step (acc : inputs_acc) (input : value) :
  quiet (input_step acc input).
Proof.
  unfold input_step.
  apply quiet_bind; [auto with quiet|]. intros input_name.
  apply quiet_bind; [auto with quiet|]. intros name.
  destruct (name_seen name (input_param_names acc)); [auto with quiet|].
  repeat (apply quiet_bind; [auto with quiet|]; intros ?).
  auto with quiet.
Qed.

Lemma quiet_input_loop (inputs : list value) (acc : inputs_acc) :
  quiet (input_loop acc inputs).
Proof.
  revert acc. induction inputs as [|input rest IH]; intros acc.
  - apply quiet_ret.
  - cbn [input_loop]. apply quiet_bind; [apply quiet_input_step|].
    intros acc'. apply IH.
Qed.

Lemma quiet_output_step (acc : outputs_acc) (output : value) :
  quiet (output_step acc output).
Proof.
  unfold output_step.
  repeat (apply quiet_bind; [auto with quiet|]; intros ?).
  auto with quiet.
Qed.

Lemma quiet_output_loop (outputs : list value) (acc : outputs_acc) :
  quiet (output_loop acc outputs).
Proof.
  revert acc. induction outputs as [|output rest IH]; intros acc.
  - apply quiet_ret.
  - cbn [output_loop]. apply quiet_bind; [apply quiet_output_step|].
    intros acc'. apply IH.
Qed.

#[local] Hint Resolve quiet_map_fields quiet_input_loop quiet_output_loop : quiet.

Lemma bind_quiet_inv {A B} (m : M A) (k : A -> M B) (w0 w w' : world)
    (r : result B) :
  quiet m -> same_files w0 w -> bind m k w = (r, w') ->
  (exists e, r = Raise e /\ same_files w0 w')
  \/ (exists a w1, same_files w0 w1 /\ k a w1 = (r, w')).
Proof.
  intros Q S. unfold bind. destruct (m w) as [[a|e] w1] eqn:E.
  - intros H. right. exists a, w1. split; [|exact H].
    exact (same_files_trans _ _ _ S (Q _ _ _ E)).
  - intros [= <- <-]. left. exists e. split; [reflexivity|].
    exact (same_files_trans _ _ _ S (Q _ _ _ E)).
Qed.

Ltac peel :=
  match goal with
  | S : same_files ?w0 ?w, H : bind ?m ?k ?w = (?r, ?w') |- _ =>
      let S' := fresh "S" in
      let a := fresh "a" in
      let w1 := fresh "w" in
      let e := fresh "e" in
      apply (bind_quiet_inv m k w0 w w' r ltac:(auto with quiet) S) in H;
      destruct H as [(e & -> & S') | (a & w1 & S' & H)];
      [ destruct S' as (S' & _ & _ & ?); rewrite S';
        split; [reflexivity | split; [assumption | now left]]
      | clear S; cbv beta in H ]
  end.

(** X8.  Whatever the files hold, a run touches no file but its output
    file, and it prints only when it has written it.  A run that raises has
    printed nothing and has left the files as they were, with one
    exception: when the output file was opened and the write failed, that
    file is left truncated.  A run that returns has added exactly one file,
    at [os.path.join] of the output directory and the configured file name,
    and printed the one line that names it. *)
Theorem run_writes_last
    (yaml_file workflow_output_dir template_file : string)
    (w w' : world) (r : result unit) :
  yaml_to_cwl yaml_file workflow_output_dir template_file w = (r, w') ->
  (forall path, path <> workflow_file workflow_output_dir w ->
                lookup path (files w') = lookup path (files w))
  /\ match r with
     | Raise _ =>
         stdout w' = stdout w
         /\ (files w' = files w
             \/ has_fault Broken (workflow_file workflow_output_dir w) w = true
                /\ files w' = (workflow_file workflow_output_dir w, truncated) :: files w)
     | Ok _ =>
         exists doc,
           files w' = (workflow_file workflow_output_dir w, doc) :: files w
           /\ stdout w'
              = (stdout w ++ [saved_message (workflow_file workflow_output_dir w)])%list
     end.
Proof.
  intros H. unfold yaml_to_cwl in H.
  pose proof (same_files_refl w) as S.
  do 24 peel.
  match goal with S : same_files w ?wN |- _ =>
    destruct S as (F & Fa & E & O);
    assert (W : workflow_file workflow_output_dir wN = workflow_file workflow_output_dir w)
      by (unfold workflow_file; now rewrite E);
    assert (B : has_fault Broken (workflow_file workflow_output_dir w) wN
                = has_fault Broken (workflow_file workflow_output_dir w) w)
      by (now apply has_fault_ext);
    match type of H with
    | _ wN = _ =>
        change (save workflow_output_dir a22 wN = (r, w')) in H;
        destruct (save_cases workflow_output_dir a22 wN) as [C | [[Br C] | C]]
    end
  end; rewrite C in H; injection H as <- <-; rewrite ?W in *;
    cbn [files stdout put_file]; rewrite F, ?O.
  - split; [reflexivity|]. split; [reflexivity | now left].
  - split.
    + intros path N. cbn [lookup].
      destruct (String.eqb_spec (workflow_file workflow_output_dir w) path);
        congruence.
    + split; [reflexivity|]. right. rewrite <- B. now split.
  - split.
    + intros path N. cbn [lookup].
      destruct (String.eqb_spec (workflow_file workflow_output_dir w) path);
        congruence.
    + eexists. split; reflexivity.
Qed.

Lemma run_writes_last_witness :
  files (snd (yaml_to_cwl "algorithm_config.yml" "workflows" "process.v1_2.cwl"
                (Demo.world_of (Demo.config_of Demo.twice Demo.outs))))
  = files (Demo.world_of (Demo.config_of Demo.twice Demo.outs))
  /\ (exists doc,
        files (snd (yaml_to_cwl "algorithm_config.yml" "workflows" "process.v1_2.cwl"
                      (Demo.world_of Demo.config)))
        = ("workflows/process.cwl", doc) :: files (Demo.world_of Demo.config))
  /\ files (snd (yaml_to_cwl "algorithm_config.yml" "workflows" "process.v1_2.cwl"
                   Demo.full_disk))
     = ("workflows/process.cwl", truncated) :: files Demo.full_disk.
Proof.
  split; [|split].
  - pose proof (run_writes_last "algorithm_config.yml" "workflows" "process.v1_2.cwl"
                  (Demo.world_of (Demo.config_of Demo.twice Demo.outs)) _ _
                  (surjective_pairing _)) as [_ H].
    vm_compute in H. vm_compute. destruct H as [_ [H | [H _]]];
      [exact H | discriminate H].
  - pose proof (run_writes_last "algorithm_config.yml" "workflows" "process.v1_2.cwl"
                  (Demo.world_of Demo.config) _ _ (surjective_pairing _)) as [_ H].
    vm_compute in H. destruct H as (doc & F & _). exists doc. vm_compute. exact F.
  - pose proof (run_writes_last "algorithm_config.yml" "workflows" "process.v1_2.cwl"
                  Demo.full_disk _ _ (surjective_pairing _)) as [_ H].
    vm_compute in H. vm_compute. destruct H as [_ [H | [_ H]]];
      [discriminate H | exact H].
Defined.

(** ** Runs that stop early *)

Lemma input_step_defect (acc : inputs_acc) (x : value) (e : exn) (w : world) :
  input_defect x = Some e -> input_step acc x w = (Raise e, w).
Proof.
  unfold input_defect, input_step. destruct x as [a|l|d].
  - now intros [= <-].
  - now intros [= <-].
  - unfold hashable_name. rewrite field_get.
    destruct (field d "name") as [a|l'|d']; [discriminate| |];
      now intros [= <-].
Qed.

Lemma input_loop_defect (pre : list dict) (x : value) (post : list value)
    (e : exn) (acc : inputs_acc) (w : world) :
  forallb hashable_name pre = true ->
  fresh_names (input_param_names acc) (map key_of pre) = true ->
  input_defect x = Some e ->
  input_loop acc (map PyDict pre ++ x :: post)%list w
  = (Raise e, add_warnings w (input_warnings pre)).
Proof.
  revert acc w. induction pre as [|d pre IH]; intros acc w H F D.
  - cbn [map app input_loop input_warnings flat_map].
    rewrite (bind_raise _ _ _ _ _ (input_step_defect acc x e w D)).
    now rewrite add_warnings_nil.
  - simpl in H, F. apply andb_true_iff in H as [H1 H2].
    apply andb_true_iff in F as [F1 F2]. apply negb_true_iff in F1.
    cbn [map app input_loop].
    pose proof (input_step_ok acc d w H1 F1) as St.
    match type of St with _ = (Ok ?a, ?y) => set (acc1 := a) in *; set (w1 := y) in * end.
    rewrite (bind_ok _ _ _ _ _ St), (IH acc1 w1 H2 F2 D).
    subst w1. now rewrite add_warnings_app.
Qed.

(** X9.  The input loop stops at the first element it cannot take: after
    records with hashable, pairwise distinct names, an element that is no
    mapping raises [AttributeError] and a record whose name is a list or a
    mapping raises [TypeError].  The run, whose output directory is there
    or can be made, has logged the warnings up to there and has written no
    file. *)
Theorem malformed_input_aborts
    (yaml_file workflow_output_dir template_file : string)
    (w : world) (c : dict) (t section x : value) (pre : list dict)
    (post : list value) (e : exn) :
  lookup yaml_file (files w) = Some (PyDict c) ->
  lookup template_file (files w) = Some t ->
  template_ok t = true ->
  dir_ready workflow_output_dir w = true ->
  dict_get c (PyStr "inputs") = Some section ->
  iterate section = Ok (map PyDict pre ++ x :: post)%list ->
  forallb hashable_name pre = true ->
  unique (map key_of pre) = true ->
  input_defect x = Some e ->
  exists w',
    yaml_to_cwl yaml_file workflow_output_dir template_file w = (Raise e, w')
    /\ files w' = files w
    /\ warnings w'
       = (warnings w ++ missing_warnings c OGC_CWL_KEY_MAP
            ++ input_warnings pre)%list.
Proof.
  intros Hc Ht T Hdir Hin It Hhash Huniq D.
  unfold yaml_to_cwl.
  step (safe_load_ok _ _ _ Hc). step (safe_load_ok _ _ _ Ht). prim.
  step (ensure_dir workflow_output_dir w Hdir).
  match goal with |- context [bind _ _ ?w1] =>
    destruct (map_fields_spec OGC_CWL_KEY_MAP c t w1 OGC_CWL_KEY_MAP_ok
                OGC_CWL_KEY_MAP_apart T) as (wf0 & R0 & _)
  end.
  step R0. prim. rewrite Hin.
  match goal with |- context [bind _ _ ?w1] => step (lift_ok _ _ w1 It) end.
  eexists. split.
  - apply bind_raise. apply input_loop_defect; assumption.
  - cbn [files warnings add_warnings]. split; [reflexivity|].
    now rewrite <- app_assoc.
Qed.

Lemma malformed_input_aborts_witness :
  exists w',
    yaml_to_cwl "algorithm_config.yml" "workflows" "process.v1_2.cwl"
      (Demo.world_of [(PyStr "inputs",
                       PyList [PyDict Demo.infile; Atom (PyStr "threshold")])])
    = (Raise AttributeError, w')
    /\ files w'
       = files (Demo.world_of [(PyStr "inputs",
                                PyList [PyDict Demo.infile; Atom (PyStr "threshold")])]).
Proof.
  destruct (malformed_input_aborts
              "algorithm_config.yml" "workflows" "process.v1_2.cwl"
              (Demo.world_of [(PyStr "inputs",
                               PyList [PyDict Demo.infile; Atom (PyStr "threshold")])])
              [(PyStr "inputs", PyList [PyDict Demo.infile; Atom (PyStr "threshold")])]
              Demo.template
              (PyList [PyDict Demo.infile; Atom (PyStr "threshold")])
              (Atom (PyStr "threshold")) [Demo.infile] [] AttributeError
              eq_refl eq_refl eq_refl eq_refl eq_refl eq_refl eq_refl
              eq_refl eq_refl) as (w' & R & F & _).
  exists w'. split; assumption.
Defined.

(** X10.  A section that is there but cannot be iterated stops the run: an
    [inputs] key bound to [null], a boolean, a number or a date raises
    [TypeError] at the loop, after the guard of the output directory, which
    is there or can be made, and the field mapper, and before any file is
    written.  Only a missing key stands for no inputs. *)
Theorem null_inputs_abort
    (yaml_file workflow_output_dir template_file : string)
    (w : world) (c : dict) (t : value) (a : scalar) :
  lookup yaml_file (files w) = Some (PyDict c) ->
  lookup template_file (files w) = Some t ->
  template_ok t = true ->
  dir_ready workflow_output_dir w = true ->
  dict_get c (PyStr "inputs") = Some (Atom a) ->
  (forall s, a <> PyStr s) ->
  exists w',
    yaml_to_cwl yaml_file workflow_output_dir template_file w = (Raise TypeError, w')
    /\ files w' = files w
    /\ warnings w' = (warnings w ++ missing_warnings c OGC_CWL_KEY_MAP)%list.
Proof.
  intros Hc Ht T Hdir Hin N.
  unfold yaml_to_cwl.
  step (safe_load_ok _ _ _ Hc). step (safe_load_ok _ _ _ Ht). prim.
  step (ensure_dir workflow_output_dir w Hdir).
  match goal with |- context [bind _ _ ?w1] =>
    destruct (map_fields_spec OGC_CWL_KEY_MAP c t w1 OGC_CWL_KEY_MAP_ok
                OGC_CWL_KEY_MAP_apart T) as (wf0 & R0 & _)
  end.
  step R0. prim. rewrite Hin.
  eexists. split.
  - apply bind_raise. unfold lift.
    destruct a as [|b|n|s|y m d]; try reflexivity. now destruct (N s).
  - cbn [files warnings add_warnings]. split; reflexivity.
Qed.

Lemma null_inputs_abort_witness :
  exists w',
    yaml_to_cwl "algorithm_config.yml" "workflows" "process.v1_2.cwl"
      (Demo.world_of [(PyStr "inputs", Atom PyNone)])
    = (Raise TypeError, w')
    /\ files w' = files (Demo.world_of [(PyStr "inputs", Atom PyNone)]).
Proof.
  destruct (null_inputs_abort "algorithm_config.yml" "workflows" "process.v1_2.cwl"
              (Demo.world_of [(PyStr "inputs", Atom PyNone)])
              [(PyStr "inputs", Atom PyNone)] Demo.template PyNone
              eq_refl eq_refl eq_refl eq_refl eq_refl
              ltac:(discriminate)) as (w' & R & F & _).
  exists w'. split; assumption.
Defined.

(** X11.  A run whose configuration file or template file cannot be opened
    raises [OSError] at once and leaves the world exactly as it was: the
    output directory is not created, nothing is logged.  Both files are
    loaded before the directory is looked at. *)
Theorem missing_file_aborts
    (yaml_file workflow_output_dir template_file : string) (w : world) :
  lookup yaml_file (files w) = None
  \/ lookup template_file (files w) = None ->
  yaml_to_cwl yaml_file workflow_output_dir template_file w = (Raise OSError, w).
Proof.
  intros H. unfold yaml_to_cwl, bind at 1, safe_load at 1.
  destruct (lookup yaml_file (files w)) as [config|] eqn:C.
  - destruct H as [H|H]; [discriminate|].
    unfold bind at 1, safe_load at 1. now rewrite H.
  - reflexivity.
Qed.

Lemma missing_file_aborts_witness :
  yaml_to_cwl "algorithm_config.yml" "workflows" "templates/process.v1_2.cwl"
    (Demo.world_of Demo.config)
  = (Raise OSError, Demo.world_of Demo.config).
Proof.
  apply missing_file_aborts. right. reflexivity.
Defined.

(** X25.  A run whose output file cannot be written does all its work and
    fails at the very end with [OSError]: the output directory has been
    made, the warnings are logged, nothing is printed.  When the file
    cannot be opened (the output directory is a regular file, or
    [WORKFLOW_FILE_NAME] is empty so that the path names the directory, or
    the system refuses the file) the files are as they were; when the file
    opens and the write fails, it is left truncated. *)
Theorem unwritable_output_aborts
    (yaml_file workflow_output_dir template_file : string)
    (w : world) (c : dict) (t : value) (ins outs : list dict) :
  lookup yaml_file (files w) = Some (PyDict c) ->
  lookup template_file (files w) = Some t ->
  template_ok t = true ->
  dir_ready workflow_output_dir w = true ->
  records c "inputs" = Some ins ->
  forallb hashable_name ins = true ->
  unique (map key_of ins) = true ->
  records c "outputs" = Some outs ->
  forallb hashable_name outs = true ->
  output_ready workflow_output_dir w = false ->
  exists w',
    yaml_to_cwl yaml_file workflow_output_dir template_file w = (Raise OSError, w')
    /\ files w'
       = (if can_open (workflow_file workflow_output_dir w)
                      (after_guard workflow_output_dir w)
          then (workflow_file workflow_output_dir w, truncated) :: files w
          else files w)
    /\ dirs w' = dirs_after workflow_output_dir w
    /\ warnings w'
       = (warnings w ++ missing_warnings c OGC_CWL_KEY_MAP
            ++ input_warnings ins ++ output_warnings outs)%list
    /\ stdout w' = stdout w.
Proof.
  intros Hc Ht T Hdir Hin Hhash Huniq Hout Hohash N.
  destruct (yaml_to_cwl_build _ _ _ _ _ _ _ _ Hc Ht T Hdir Hin Hhash Huniq Hout Hohash)
    as (doc & R & _).
  unfold output_ready in N. rewrite Hdir in N. cbn [andb] in N.
  rewrite R, (save_fails _ _ w _ N) by reflexivity.
  eexists. split; [reflexivity|].
  destruct (can_open _ _); repeat split.
Qed.

Lemma unwritable_output_aborts_witness :
  exists w',
    yaml_to_cwl "algorithm_config.yml" "workflows" "process.v1_2.cwl" Demo.blocked
    = (Raise OSError, w')
    /\ files w' = files Demo.blocked
    /\ stdout w' = [].
Proof.
  destruct (unwritable_output_aborts
              "algorithm_config.yml" "workflows" "process.v1_2.cwl" Demo.blocked
              Demo.config Demo.template Demo.ins Demo.outs
              eq_refl eq_refl eq_refl eq_refl eq_refl eq_refl eq_refl eq_refl
              eq_refl eq_refl) as (w' & R & F & _ & _ & O).
  exists w'. split; [exact R|]. split; [exact F | exact O].
Defined.

(** X26.  When nothing is at the path of the output directory and the
    directory cannot be made (the name is empty, or the path or a directory
    above it is a regular file), the run raises [OSError] right after the
    two files are loaded: the world is as it was, the Configuration
    Document has not been looked at, nothing is logged. *)
Theorem unmakeable_directory_aborts
    (yaml_file workflow_output_dir template_file : string)
    (w : world) (config workflow : value) :
  lookup yaml_file (files w) = Some config ->
  lookup template_file (files w) = Some workflow ->
  exists_at workflow_output_dir w = false ->
  makedirs_fails workflow_output_dir w = true ->
  yaml_to_cwl yaml_file workflow_output_dir template_file w = (Raise OSError, w).
Proof.
  intros Hc Ht E F. unfold yaml_to_cwl.
  step (safe_load_ok _ _ _ Hc). step (safe_load_ok _ _ _ Ht). prim.
  rewrite E. apply bind_raise. unfold makedirs. now rewrite F.
Qed.

Lemma unmakeable_directory_aborts_witness :
  yaml_to_cwl "algorithm_config.yml" "algorithm_config.yml/out" "process.v1_2.cwl"
    (Demo.world_of Demo.config)
  = (Raise OSError, Demo.world_of Demo.config).
Proof.
  apply (unmakeable_directory_aborts
           "algorithm_config.yml" "algorithm_config.yml/out" "process.v1_2.cwl"
           (Demo.world_of Demo.config) (PyDict Demo.config) Demo.template);
    reflexivity.
Defined.

End BuildProps.

Module PathProps.
Import Py PyFacts Build Paths PathFacts StoreFacts Runs BuildFacts Spec.

Lemma dict_set_twice (d : dict) (k : scalar) (v1 v2 : value) :
  dict_set (dict_set d k v1) k v2 = dict_set d k v2.
Proof.
  induction d as [|[k0 v0] d IH]; simpl.
  - now rewrite scalar_eqb_refl.
  - destruct (scalar_eqb k0 k) eqn:E; simpl; rewrite E; [reflexivity|].
    now rewrite IH.
Qed.

Lemma list_update_twice (l : list value) (n : nat) (v1 v2 : value) :
  list_update (list_update l n v1) n v2 = list_update l n v2.
Proof.
  revert n. induction l as [|x l IH]; intros [|n]; simpl; auto.
  now rewrite IH.
Qed.

Lemma setitem_twice (c c1 : value) (k : scalar) (v1 v2 : value) :
  setitem c k v1 = Ok c1 -> setitem c1 k v2 = setitem c k v2.
Proof.
  destruct c as [a|l|d]; [atom_setitem| |]; simpl.
  - destruct (as_index k) as [i|] eqn:I; [|discriminate].
    destruct (resolve (List.length l) i) as [n|] eqn:R; [|discriminate].
    intros [= <-]. simpl. rewrite I, list_update_length, R.
    now rewrite list_update_twice.
  - intros [= <-]. simpl. now rewrite dict_set_twice.
Qed.

Lemma set_path_value_twice (p : list scalar) (w w1 v1 v2 : value) :
  set_path_value w p v1 = Ok w1 ->
  set_path_value w1 p v2 = set_path_value w p v2.
Proof.
  revert w w1. induction p as [|k [|k2 rest] IH]; intros w w1.
  - discriminate.
  - apply setitem_twice.
  - rewrite !set_path_value_cons.
    destruct (getitem w k) as [inner|] eqn:G; cbn [rbind]; [|discriminate].
    destruct (set_path_value inner (k2 :: rest) v1) as [inner1|] eqn:S;
      cbn [rbind]; [|discriminate].
    intros H.
    rewrite (getitem_setitem_slot _ _ _ _ _ H (setitem_ok_slot _ _ _ _ H)).
    cbn [rbind]. rewrite (IH inner inner1 S).
    destruct (set_path_value inner (k2 :: rest) v2) as [inner2|]; cbn [rbind];
      [|reflexivity].
    exact (setitem_twice _ _ _ _ _ H).
Qed.

(** X12.  Assignments at one path compose as assignments do: after a first
    assignment has gone through, a second one at the same path gives the
    document the second alone would have given (the last one wins), so
    assigning the same value again changes nothing; and a read that goes
    on below the path reads inside the assigned value. *)
Theorem set_path_value_overwrites
    (workflow workflow1 : value) (path : list scalar) (v1 v2 : value) :
  set_path_value workflow path v1 = Ok workflow1 ->
  set_path_value workflow1 path v2 = set_path_value workflow path v2
  /\ set_path_value workflow1 path v1 = Ok workflow1
  /\ forall q, get_path workflow1 (path ++ q)%list = get_path v1 q.
Proof.
  intros H. split; [exact (set_path_value_twice _ _ _ _ _ H)|]. split.
  - now rewrite (set_path_value_twice _ _ _ _ _ H).
  - intros q. now rewrite get_path_app, (get_set_same _ _ _ _ H).
Qed.

Lemma set_path_value_overwrites_witness :
  set_path_value
    (PyDict [(PyStr "s:author", PyList [PyDict [(PyStr "s:name", Atom (PyStr "new"))]])])
    [PyStr "s:author"; PyInt (-1); PyStr "s:name"] (Atom (PyStr "newer"))
  = set_path_value
      (PyDict [(PyStr "s:author", PyList [PyDict [(PyStr "s:name", Atom PyNone)]])])
      [PyStr "s:author"; PyInt (-1); PyStr "s:name"] (Atom (PyStr "newer")).
Proof.
  exact (proj1 (set_path_value_overwrites
                  (PyDict [(PyStr "s:author",
                            PyList [PyDict [(PyStr "s:name", Atom PyNone)]])])
                  _ [PyStr "s:author"; PyInt (-1); PyStr "s:name"]
                  (Atom (PyStr "new")) (Atom (PyStr "newer")) eq_refl)).
Defined.

Lemma dict_set_keys (d : dict) (k : scalar) (v : value) :
  dict_keys (dict_set d k v)
  = if name_seen k (dict_keys d) then dict_keys d else (dict_keys d ++ [k])%list.
Proof.
  unfold name_seen, dict_keys. induction d as [|[k0 v0] d IH]; simpl; auto.
  rewrite (scalar_eqb_sym k k0).
  destruct (scalar_eqb k0 k); simpl; [reflexivity|].
  rewrite IH. now destruct (existsb (scalar_eqb k) (map fst d)).
Qed.

Lemma parent_after_set (p : list scalar) (w w' parent v : value) :
  p <> [] ->
  set_path_value w p v = Ok w' ->
  get_path w (removelast p) = Ok parent ->
  exists parent',
    setitem parent (last p PyNone) v = Ok parent'
    /\ get_path w' (removelast p) = Ok parent'.
Proof.
  revert w w'. induction p as [|k [|k2 rest] IH]; intros w w' N S G.
  - congruence.
  - simpl in *. injection G as <-. exists w'. auto.
  - rewrite set_path_value_cons in S.
    change (removelast (k :: k2 :: rest)) with (k :: removelast (k2 :: rest)) in *.
    change (last (k :: k2 :: rest) PyNone) with (last (k2 :: rest) PyNone).
    change (rbind (getitem w k) (fun x => get_path x (removelast (k2 :: rest)))
            = Ok parent) in G.
    destruct (getitem w k) as [inner|] eqn:E; cbn [rbind] in *; [|discriminate].
    destruct (set_path_value inner (k2 :: rest) v) as [inner'|] eqn:S';
      cbn [rbind] in S; [|discriminate].
    destruct (IH inner inner' ltac:(discriminate) S' G) as (parent' & P & G').
    exists parent'. split; [exact P|].
    change (rbind (getitem w' k) (fun x => get_path x (removelast (k2 :: rest)))
            = Ok parent').
    now rewrite (getitem_setitem_slot _ _ _ _ _ S (setitem_ok_slot _ _ _ _ S)).
Qed.

(** X13.  An assignment keeps the order of the document: under a mapping
    the keys already there stay in place, an existing key among them, and
    only a new key is added, last; under a list the length stays. *)
Theorem set_path_value_keeps_order
    (workflow workflow' : value) (path : list scalar) (v : value) :
  path <> [] ->
  set_path_value workflow path v = Ok workflow' ->
  (forall d,
     get_path workflow (removelast path) = Ok (PyDict d) ->
     exists d',
       get_path workflow' (removelast path) = Ok (PyDict d')
       /\ dict_keys d'
          = if name_seen (last path PyNone) (dict_keys d) then dict_keys d
            else (dict_keys d ++ [last path PyNone])%list)
  /\ (forall l,
        get_path workflow (removelast path) = Ok (PyList l) ->
        exists l',
          get_path workflow' (removelast path) = Ok (PyList l')
          /\ List.length l' = List.length l).
Proof.
  intros N S. split.
  - intros d G. destruct (parent_after_set _ _ _ _ _ N S G) as (parent' & P & G').
    simpl in P. injection P as <-. exists (dict_set d (last path PyNone) v).
    split; [exact G'|]. apply dict_set_keys.
  - intros l G. destruct (parent_after_set _ _ _ _ _ N S G) as (parent' & P & G').
    simpl in P. destruct (as_index (last path PyNone)); [|discriminate].
    destruct (resolve (List.length l) z); [|discriminate].
    injection P as <-. eexists. split; [exact G'|]. apply list_update_length.
Qed.

Lemma set_path_value_keeps_order_witness :
  exists d',
    get_path (match set_path_value Demo.template [PyStr "s:version"]
                      (Atom (PyStr "v1")) with
              | Ok w' => w'
              | Raise _ => Atom PyNone
              end) [] = Ok (PyDict d')
    /\ dict_keys d'
       = [PyStr "cwlVersion"; PyStr "$graph"; PyStr "s:author"; PyStr "s:contributor";
          PyStr "s:version"].
Proof.
  destruct (set_path_value_keeps_order Demo.template _ [PyStr "s:version"]
              (Atom (PyStr "v1")) ltac:(discriminate) eq_refl) as [D _].
  destruct (D _ eq_refl) as (d' & G & K). exists d'. split; [exact G|exact K].
Defined.

Lemma re_sub_idempotent (s : string) :
  re_sub_non_alnum (re_sub_non_alnum s) = re_sub_non_alnum s.
Proof.
  induction s as [|c s IH]; simpl; [reflexivity|]. rewrite IH.
  destruct (allowed_char c) eqn:A; [now rewrite A | reflexivity].
Qed.

Lemma re_sub_alphabet (s : string) :
  Forall (fun ch => kept ch = true \/ ch = "_"%char)
         (list_ascii_of_string (re_sub_non_alnum s)).
Proof.
  induction s as [|c s IH]; simpl; constructor; auto.
  rewrite <- allowed_char_kept.
  destruct (allowed_char c) eqn:A; [left; exact A | now right].
Qed.

(** X14.  The version the Value Normalizer writes is in normal form: it is
    a string of letters, digits, spaces and underscores, and normalizing it
    again returns it unchanged. *)
Theorem version_normal_form (path : list scalar) (v : value) :
  exists s,
    process_value (path ++ [PyStr "s:version"])%list v = Ok (Atom (PyStr s))
    /\ Forall (fun ch => kept ch = true \/ ch = "_"%char) (list_ascii_of_string s)
    /\ process_value (path ++ [PyStr "s:version"])%list (Atom (PyStr s))
       = Ok (Atom (PyStr s)).
Proof.
  exists (re_sub_non_alnum (py_str v)). unfold process_value.
  rewrite rev_unit. cbn [scalar_eqb canon String.eqb Ascii.eqb Bool.eqb andb py_str
                         str_scalar].
  split; [reflexivity|]. split; [apply re_sub_alphabet|].
  now rewrite re_sub_idempotent.
Qed.

(** X27.  [set_path_value] changes an object, not a place: once the
    assignment at [path + (key,)] has gone through, every path that leads
    to the list or dictionary the assignment was made in reads the new
    value under [key], whether or not it is the path of the assignment.
    With a YAML alias two places of a document hold one object, and an
    assignment through one of them changes what the other reads. *)
Theorem assignment_seen_through_alias
    (st st' : Store.store) (workflow v : Store.item) (path q : list scalar)
    (key : scalar) (r : nat) :
  Store.get_path st workflow path = Ok (Store.Ref r) ->
  Store.set_path_value st workflow (path ++ [key])%list v = Ok st' ->
  Store.get_path st' workflow q = Ok (Store.Ref r) ->
  Store.get_path st' workflow (q ++ [key])%list = Ok v.
Proof.
  intros P W Q. rewrite set_path_value_last, P in W. cbn [rbind Store.setitem] in W.
  destruct (nth_error st r) as [o|] eqn:N; [|discriminate].
  destruct (Store.object_set o key v) as [o'|e] eqn:E; [|discriminate].
  injection W as <-.
  rewrite store_get_path_app, Q. cbn [rbind Store.get_path Store.getitem].
  rewrite (put_same _ _ _ _ N), (object_get_set _ _ _ _ E). reflexivity.
Qed.

Lemma assignment_seen_through_alias_witness :
  Store.unshared 3 Demo.people_aliased (Store.Ref 0) = false
  /\ exists st',
       Store.set_path_value Demo.people_aliased (Store.Ref 0)
         [PyStr "s:author"; PyInt 0; PyStr "s:name"] (Store.Leaf (PyStr "Ada"))
       = Ok st'
       /\ Store.get_path st' (Store.Ref 0)
            [PyStr "s:contributor"; PyInt 0; PyStr "s:name"]
          = Ok (Store.Leaf (PyStr "Ada")).
Proof.
  split; [reflexivity|]. eexists. split; [reflexivity|].
  apply (assignment_seen_through_alias Demo.people_aliased _ (Store.Ref 0)
           (Store.Leaf (PyStr "Ada")) [PyStr "s:author"; PyInt 0]
           [PyStr "s:contributor"; PyInt 0] (PyStr "s:name") 2);
    reflexivity.
Defined.

(** X28.  On a document without aliases (no list or dictionary of it is
    reached along two paths) and for a value that is no part of it,
    [set_path_value] on the objects and [Build.set_path_value] on the tree
    agree for every path: either both raise, and the same exception, or
    the assignment goes through and the objects then stand for the tree
    [Build.set_path_value] returns. *)
Theorem in_place_agrees_with_tree
    (n m : nat) (st : Store.store) (workflow v : Store.item)
    (doc new : value) (path : list scalar) :
  Store.load n st workflow = Some doc ->
  Store.unshared n st workflow = true ->
  Store.load m st v = Some new ->
  Store.separate n m st workflow v = true ->
  match set_path_value doc path new with
  | Ok doc' =>
      exists st',
        Store.set_path_value st workflow path v = Ok st'
        /\ Store.load (m + n) st' workflow = Some doc'
  | Raise e => Store.set_path_value st workflow path v = Raise e
  end.
Proof.
  intros L U Lv S.
  pose proof (assign_agrees path n m st workflow v doc new L
                (distinct_nodup _ U) Lv (separate_spec _ _ _ _ _ S)) as A.
  destruct (set_path_value doc path new) as [doc'|e]; [|exact A].
  destruct A as (a & o' & _ & R & L'). exists (Store.put st a o'). now split.
Qed.

Lemma in_place_agrees_with_tree_witness :
  Store.set_path_value Demo.people (Store.Ref 0)
    [PyStr "s:author"; PyInt 1; PyStr "s:name"] (Store.Leaf (PyStr "Ada"))
  = Raise IndexError
  /\ Store.set_path_value Demo.people (Store.Ref 0)
       [PyStr "s:author"; PyInt 0; PyStr "s:name"; PyInt 0] (Store.Leaf (PyStr "Ada"))
     = Raise TypeError.
Proof.
  split.
  - exact (in_place_agrees_with_tree 3 0 Demo.people (Store.Ref 0)
             (Store.Leaf (PyStr "Ada")) _ _
             [PyStr "s:author"; PyInt 1; PyStr "s:name"]
             eq_refl eq_refl eq_refl eq_refl).
  - exact (in_place_agrees_with_tree 3 0 Demo.people (Store.Ref 0)
             (Store.Leaf (PyStr "Ada")) _ _
             [PyStr "s:author"; PyInt 0; PyStr "s:name"; PyInt 0]
             eq_refl eq_refl eq_refl eq_refl).
Defined.

End PathProps.

Module DeployProps.
Import Py PyFacts Paths PathFacts Deploy Registry DeployPack.

Section HTTP.

Variable json_dumps : value -> result string.
Variable http : request -> reply.

Lemma submit_request_unfold (url : string) (data : value)
    (headers : list (string * string)) (sent : list request) :
  submit_request json_dumps http url data headers sent
  = match json_dumps data with
    | Raise _ => (Return false, sent)
    | Ok body =>
        let post := mkRequest POST url body headers in
        match post_error (http post) with
        | None => (Return true, (sent ++ [post])%list)
        | Some (HTTPError r) =>
            if status_code r =? 409
            then fallback json_dumps http url data headers r (sent ++ [post])%list
            else (Return false, (sent ++ [post])%list)
        | Some _ => (Return false, (sent ++ [post])%list)
        end
    end.
Proof.
  unfold submit_request, fallback, post_error.
  cbv [try_except nbind nlift send raise_for_status nret nraise].
  destruct (json_dumps data) as [body|e]; [|reflexivity].
  destruct (http (mkRequest POST url body headers)) as [r|[r'| | |e]];
    try reflexivity.
  - destruct ((400 <=? status_code r) && (status_code r <? 600));
      [|reflexivity].
    destruct (status_code r =? 409); reflexivity.
  - destruct (status_code r' =? 409); reflexivity.
Qed.

Lemma fallback_unfold (url : string) (data : value)
    (headers : list (string * string)) (r : response) (sent : list request) :
  fallback json_dumps http url data headers r sent
  = match json_body r with
    | None => (Return false, sent)
    | Some (PyDict d) =>
        match dict_get d (PyStr "additionalProperties") with
        | None => (Return false, sent)
        | Some props =>
            match getitem props (PyStr "processID") with
            | Raise e =>
                (if fallback_catches (Builtin e) then Return false
                 else Propagate (Builtin e), sent)
            | Ok process_id =>
                match json_dumps data with
                | Raise e =>
                    (if fallback_catches (Builtin e) then Return false
                     else Propagate (Builtin e), sent)
                | Ok body =>
                    let put := mkRequest PUT (url ++ "/" ++ py_str process_id)
                                         body headers in
                    match post_error (http put) with
                    | None => (Return true, (sent ++ [put])%list)
                    | Some e =>
                        (if fallback_catches e then Return false else Propagate e,
                         (sent ++ [put])%list)
                    end
                end
            end
        end
    | Some _ => (Propagate (Builtin AttributeError), sent)
    end.
Proof.
  unfold fallback, put_fallback, post_error.
  cbv [try_except nbind nlift send raise_for_status response_json nret nraise
       dict_method_get].
  destruct (json_body r) as [[a|l|d]|]; try reflexivity.
  cbn [getitem].
  destruct (dict_get d (PyStr "additionalProperties")) as [props|];
    [|reflexivity].
  destruct (getitem props (PyStr "processID")) as [pid|e].
  - destruct (json_dumps data) as [body|e].
    + destruct (http (mkRequest PUT (url ++ "/" ++ py_str pid) body headers))
        as [r'|e].
      * destruct ((400 <=? status_code r') && (status_code r' <? 600));
          reflexivity.
      * destruct (fallback_catches e); reflexivity.
    + destruct (fallback_catches (Builtin e)); reflexivity.
  - destruct (fallback_catches (Builtin e)); reflexivity.
Qed.

End HTTP.

Lemma succeeds_post_error (answer : reply) :
  succeeds answer = true <-> post_error answer = None.
Proof.
  unfold succeeds, post_error. destruct answer as [r|e].
  - destruct ((400 <=? status_code r) && (status_code r <? 600)); simpl;
      split; congruence.
  - split; discriminate.
Qed.

Lemma conflict_post_error (answer : reply) (r : response) :
  conflict answer = Some r ->
  post_error answer = Some (HTTPError r) /\ status_code r = 409.
Proof.
  unfold conflict. destruct (post_error answer) as [[r'| | |e]|]; try discriminate.
  destruct (status_code r' =? 409) eqn:S; [|discriminate].
  intros [= <-]. split; [reflexivity|]. now apply Z.eqb_eq.
Qed.

(** X15.  [submit_request] sends the POST first, to the given URL, and at
    most one request more: a PUT, only after the POST was answered 409 with
    a process id, to [<url>/<id>], with the body and the headers of the
    POST.  When [json.dumps] raises nothing is sent at all. *)
Theorem submit_request_sends
    (json_dumps : value -> result string) (http : request -> reply)
    (url : string) (data : value) (headers : list (string * string))
    (sent : list request) :
  exists tr,
    snd (submit_request json_dumps http url data headers sent) = (sent ++ tr)%list
    /\ match json_dumps data with
       | Raise _ => tr = []
       | Ok body =>
           tr = [mkRequest POST url body headers]
           \/ exists r process_id,
                conflict (http (mkRequest POST url body headers)) = Some r
                /\ process_id_of r = Some process_id
                /\ tr = [mkRequest POST url body headers;
                         mkRequest PUT (url ++ "/" ++ py_str process_id) body headers]
       end.
Proof.
  rewrite submit_request_unfold.
  destruct (json_dumps data) as [body|e] eqn:J.
  2:{ exists []. split; [simpl; now rewrite app_nil_r | reflexivity]. }
  cbv zeta.
  assert (One : forall o : outcome bool,
            exists tr,
              snd (o, (sent ++ [mkRequest POST url body headers])%list)
              = (sent ++ tr)%list
              /\ (tr = [mkRequest POST url body headers]
                  \/ exists r process_id,
                       conflict (http (mkRequest POST url body headers)) = Some r
                       /\ process_id_of r = Some process_id
                       /\ tr = [mkRequest POST url body headers;
                                mkRequest PUT (url ++ "/" ++ py_str process_id)
                                          body headers])).
  { intros o. exists [mkRequest POST url body headers]. split; [reflexivity | now left]. }
  destruct (post_error (http (mkRequest POST url body headers)))
    as [[r| | |e]|] eqn:P; try apply One.
  destruct (status_code r =? 409) eqn:S; [|apply One].
  rewrite fallback_unfold, J.
  destruct (json_body r) as [[a|l|d]|] eqn:B; try apply One.
  destruct (dict_get d (PyStr "additionalProperties")) as [props|] eqn:A;
    [|apply One].
  destruct (getitem props (PyStr "processID")) as [pid|e] eqn:I; [|apply One].
  exists [mkRequest POST url body headers;
          mkRequest PUT (url ++ "/" ++ py_str pid) body headers].
  split.
  - cbv zeta.
    destruct (post_error (http (mkRequest PUT (url ++ "/" ++ py_str pid) body headers)));
      cbn [snd]; now rewrite <- app_assoc.
  - right. exists r, pid. split; [|split; [|reflexivity]].
    + unfold conflict. now rewrite P, S.
    + unfold process_id_of. rewrite B. cbn [getitem]. now rewrite A, I.
Qed.

(** X16.  [submit_request] returns [True] in two cases and no other: the
    POST was answered with a status outside 4xx and 5xx; or the POST was
    answered 409 with a process id and the PUT to [<url>/<id>] was answered
    with a status outside 4xx and 5xx. *)
Theorem submit_request_true_iff
    (json_dumps : value -> result string) (http : request -> reply)
    (url : string) (data : value) (headers : list (string * string))
    (sent : list request) :
  fst (submit_request json_dumps http url data headers sent) = Return true
  <-> exists body,
        json_dumps data = Ok body
        /\ (succeeds (http (mkRequest POST url body headers)) = true
            \/ exists r process_id,
                 conflict (http (mkRequest POST url body headers)) = Some r
                 /\ process_id_of r = Some process_id
                 /\ succeeds (http (mkRequest PUT (url ++ "/" ++ py_str process_id)
                                              body headers)) = true).
Proof.
  rewrite submit_request_unfold. split.
  - destruct (json_dumps data) as [body|e] eqn:J; [|discriminate].
    cbv zeta. intros H. exists body. split; [reflexivity|].
    rewrite succeeds_post_error.
    destruct (post_error (http (mkRequest POST url body headers)))
      as [[r| | |e]|] eqn:P; try discriminate; [|now left].
    right. destruct (status_code r =? 409) eqn:S; [|discriminate].
    rewrite fallback_unfold, J in H.
    destruct (json_body r) as [[a|l|d]|] eqn:B; try discriminate.
    destruct (dict_get d (PyStr "additionalProperties")) as [props|] eqn:A;
      [|discriminate].
    destruct (getitem props (PyStr "processID")) as [pid|e] eqn:I.
    + exists r, pid. split; [|split].
      * unfold conflict. now rewrite P, S.
      * unfold process_id_of. rewrite B. cbn [getitem]. now rewrite A, I.
      * rewrite succeeds_post_error. cbv zeta in H.
        destruct (post_error (http (mkRequest PUT (url ++ "/" ++ py_str pid)
                                              body headers)))
          as [e|]; [|reflexivity].
        destruct (fallback_catches e); discriminate.
    + destruct (fallback_catches (Builtin e)); discriminate.
  - intros (body & J & [S | (r & pid & C & I & S)]); rewrite J; cbv zeta.
    + apply succeeds_post_error in S. now rewrite S.
    + destruct (conflict_post_error _ _ C) as [P St]. rewrite P, St.
      cbn [Z.eqb Pos.eqb].
      rewrite fallback_unfold, J. unfold process_id_of in I.
      destruct (json_body r) as [[a|l|d]|]; try discriminate.
      cbn [getitem] in I.
      destruct (dict_get d (PyStr "additionalProperties")) as [props|];
        [|discriminate].
      destruct (getitem props (PyStr "processID")) as [pid'|e]; [|discriminate].
      injection I as ->. cbv zeta. apply succeeds_post_error in S.
      now rewrite S.
Qed.

(** X17.  A POST answered 409 without a usable process id is a plain
    failure: when the body is not JSON, or is an object that lacks
    [additionalProperties] or whose [additionalProperties] object lacks
    [processID], [submit_request] returns [False] and sends no PUT. *)
Theorem conflict_without_id_fails
    (json_dumps : value -> result string) (http : request -> reply)
    (url : string) (data : value) (headers : list (string * string))
    (body : string) (r : response) (sent : list request) :
  json_dumps data = Ok body ->
  conflict (http (mkRequest POST url body headers)) = Some r ->
  names_no_process r ->
  submit_request json_dumps http url data headers sent
  = (Return false, (sent ++ [mkRequest POST url body headers])%list).
Proof.
  intros J C N. destruct (conflict_post_error _ _ C) as [P S].
  rewrite submit_request_unfold, J. cbv zeta. rewrite P, S. cbn [Z.eqb Pos.eqb].
  rewrite fallback_unfold.
  destruct N as [B | [(d & B & A) | (d & p & B & A & I)]]; rewrite B.
  - reflexivity.
  - now rewrite A.
  - rewrite A. cbn [getitem]. now rewrite I.
Qed.

Lemma conflict_without_id_fails_witness :
  submit_request dumps_stub (always (mkResponse 409 "<html>Conflict</html>" None))
    "https://registry/processes" (PyDict []) [] []
  = (Return false, [mkRequest POST "https://registry/processes" "{}" []]).
Proof.
  apply (conflict_without_id_fails dumps_stub
           (always (mkResponse 409 "<html>Conflict</html>" None))
           "https://registry/processes" (PyDict []) [] "{}"
           (mkResponse 409 "<html>Conflict</html>" None) []);
    [reflexivity | reflexivity | left; reflexivity].
Defined.

(** X18.  Failures on the way are reported as [False]: when [json.dumps]
    raises, before anything is sent; when the POST raises in transport
    (anything but an [HTTPError]), after the one request; and when the PUT
    of the fallback raises a [RequestException] or is answered 4xx or 5xx,
    after the two. *)
Theorem transport_failures_return_false
    (json_dumps : value -> result string) (http : request -> reply)
    (url : string) (data : value) (headers : list (string * string))
    (sent : list request) :
  (forall e, json_dumps data = Raise e ->
     submit_request json_dumps http url data headers sent = (Return false, sent))
  /\ (forall body e,
        json_dumps data = Ok body ->
        http (mkRequest POST url body headers) = Failure e ->
        (forall r, e <> HTTPError r) ->
        submit_request json_dumps http url data headers sent
        = (Return false, (sent ++ [mkRequest POST url body headers])%list))
  /\ (forall body r process_id,
        json_dumps data = Ok body ->
        conflict (http (mkRequest POST url body headers)) = Some r ->
        process_id_of r = Some process_id ->
        http (mkRequest PUT (url ++ "/" ++ py_str process_id) body headers)
        = Failure RequestException
        \/ (exists r', http (mkRequest PUT (url ++ "/" ++ py_str process_id)
                                       body headers) = Response r'
                       /\ 400 <= status_code r' < 600) ->
        submit_request json_dumps http url data headers sent
        = (Return false,
           (sent ++ [mkRequest POST url body headers;
                     mkRequest PUT (url ++ "/" ++ py_str process_id) body headers])%list)).
Proof.
  split; [|split].
  - intros e J. now rewrite submit_request_unfold, J.
  - intros body e J H N. rewrite submit_request_unfold, J. cbv zeta.
    unfold post_error. rewrite H. destruct e as [r| | |e]; try reflexivity.
    now destruct (N r).
  - intros body r pid J C I H. destruct (conflict_post_error _ _ C) as [P S].
    rewrite submit_request_unfold, J. cbv zeta. rewrite P, S. cbn [Z.eqb Pos.eqb].
    rewrite fallback_unfold, J. unfold process_id_of in I.
    destruct (json_body r) as [[a|l|d]|]; try discriminate.
    cbn [getitem] in I.
    destruct (dict_get d (PyStr "additionalProperties")) as [props|];
      [|discriminate].
    destruct (getitem props (PyStr "processID")) as [pid'|e]; [|discriminate].
    injection I as ->. cbv zeta. rewrite <- app_assoc. cbn [app].
    destruct H as [H | (r' & H & L & U)]; unfold post_error; rewrite H.
    + reflexivity.
    + apply Z.leb_le in L. apply Z.ltb_lt in U. now rewrite L, U.
Qed.

(** X19.  An exception leaves [submit_request] only out of the 409 branch:
    when the call propagates [e], [json.dumps] had returned, the POST had
    been answered 409, and [e] is none of the classes the inner handler
    names ([KeyError], [RequestException], [ValueError]). *)
Theorem propagates_only_after_conflict
    (json_dumps : value -> result string) (http : request -> reply)
    (url : string) (data : value) (headers : list (string * string))
    (sent : list request) (e : exc) :
  fst (submit_request json_dumps http url data headers sent) = Propagate e ->
  exists body r,
    json_dumps data = Ok body
    /\ conflict (http (mkRequest POST url body headers)) = Some r
    /\ fallback_catches e = false.
Proof.
  rewrite submit_request_unfold.
  destruct (json_dumps data) as [body|e0] eqn:J; [|discriminate].
  cbv zeta. intros H. exists body.
  destruct (post_error (http (mkRequest POST url body headers)))
    as [[r| | |e1]|] eqn:P; try discriminate.
  destruct (status_code r =? 409) eqn:S; [|discriminate].
  exists r. split; [reflexivity|]. split; [unfold conflict; now rewrite P, S|].
  rewrite fallback_unfold, J in H.
  destruct (json_body r) as [[a|l|d]|]; try discriminate.
  - injection H as <-. reflexivity.
  - injection H as <-. reflexivity.
  - destruct (dict_get d (PyStr "additionalProperties")) as [props|];
      [|discriminate].
    destruct (getitem props (PyStr "processID")) as [pid|e1].
    + cbv zeta in H.
      destruct (post_error (http (mkRequest PUT (url ++ "/" ++ py_str pid) body headers)))
        as [e2|]; [|discriminate].
      destruct (fallback_catches e2) eqn:F; [discriminate|].
      now injection H as <-.
    + destruct (fallback_catches (Builtin e1)) eqn:F; [discriminate|].
      now injection H as <-.
Qed.

Lemma propagates_only_after_conflict_witness :
  exists body r,
    dumps_stub (PyDict []) = Ok body
    /\ conflict (always (mkResponse 409 "[]" (Some (PyList [])))
                   (mkRequest POST "https://registry/processes" body [])) = Some r
    /\ fallback_catches (Builtin AttributeError) = false.
Proof.
  exact (propagates_only_after_conflict dumps_stub
           (always (mkResponse 409 "[]" (Some (PyList []))))
           "https://registry/processes" (PyDict []) [] [] (Builtin AttributeError)
           eq_refl).
Defined.

Lemma transport_failures_return_false_witness :
  submit_request (fun _ => Raise TypeError) registry
    "https://registry/processes" (Atom (PyDate 2026 11 4)) [] []
  = (Return false, [])
  /\ submit_request dumps_stub (fun _ => Failure RequestException)
       "https://registry/processes" (PyDict []) [] []
     = (Return false, [mkRequest POST "https://registry/processes" "{}" []]).
Proof.
  destruct (transport_failures_return_false (fun _ => Raise TypeError) registry
              "https://registry/processes" (Atom (PyDate 2026 11 4)) [] [])
    as (A & _).
  destruct (transport_failures_return_false dumps_stub
              (fun _ => Failure RequestException)
              "https://registry/processes" (PyDict []) [] []) as (_ & B & _).
  split.
  - exact (A TypeError eq_refl).
  - apply (B "{}" RequestException eq_refl eq_refl). discriminate.
Defined.

(** The requests of one [submit_request], for the theorems on its callers:
    at most two, all with the given headers, to the URL or below it; and
    when the call returns [True] the last of them was accepted. *)
Lemma submit_request_trace
    (json_dumps : value -> result string) (http : request -> reply)
    (url : string) (data : value) (headers : list (string * string))
    (sent : list request) :
  exists tr,
    snd (submit_request json_dumps http url data headers sent) = (sent ++ tr)%list
    /\ (List.length tr <= 2)%nat
    /\ (forall rq, In rq tr ->
          req_headers rq = headers
          /\ (req_url rq = url \/ exists id, req_url rq = url ++ "/" ++ id))
    /\ (fst (submit_request json_dumps http url data headers sent) = Return true ->
        exists tr' rq, tr = (tr' ++ [rq])%list /\ succeeds (http rq) = true).
Proof.
  rewrite submit_request_unfold.
  destruct (json_dumps data) as [body|e] eqn:J.
  2:{ exists []. cbn [fst snd]. rewrite app_nil_r.
      split; [reflexivity|]. split; [cbn; lia|].
      split; [intros rq [] | discriminate]. }
  cbv zeta. set (post := mkRequest POST url body headers).
  assert (One : forall o : outcome bool,
            (o = Return true -> succeeds (http post) = true) ->
            exists tr,
              snd (o, (sent ++ [post])%list) = (sent ++ tr)%list
              /\ (List.length tr <= 2)%nat
              /\ (forall rq, In rq tr ->
                    req_headers rq = headers
                    /\ (req_url rq = url \/ exists id, req_url rq = url ++ "/" ++ id))
              /\ (fst (o, (sent ++ [post])%list) = Return true ->
                  exists tr' rq, tr = (tr' ++ [rq])%list /\ succeeds (http rq) = true)).
  { intros o A. exists [post]. split; [reflexivity|]. split; [cbn; lia|]. split.
    - intros rq [<- | []]. split; [reflexivity | now left].
    - intros E. exists [], post. split; [reflexivity | exact (A E)]. }
  destruct (post_error (http post)) as [[r| | |e]|] eqn:P;
    try (apply One; discriminate).
  2:{ apply One. intros _. now apply succeeds_post_error. }
  destruct (status_code r =? 409) eqn:S; [|apply One; discriminate].
  rewrite fallback_unfold, J.
  destruct (json_body r) as [[a|l|d]|] eqn:B; try (apply One; discriminate).
  destruct (dict_get d (PyStr "additionalProperties")) as [props|] eqn:A;
    [|apply One; discriminate].
  destruct (getitem props (PyStr "processID")) as [pid|e] eqn:I.
  2:{ apply One. destruct (fallback_catches (Builtin e)); discriminate. }
  cbv zeta. set (put := mkRequest PUT (url ++ "/" ++ py_str pid) body headers).
  exists [post; put]. split; [|split; [cbn; lia|split]].
  - destruct (post_error (http put)); cbn [snd]; now rewrite <- app_assoc.
  - intros rq [<- | [<- | []]]; (split; [reflexivity|]);
      [now left | right; now exists (py_str pid)].
  - intros E. exists [post], put. split; [reflexivity|].
    apply succeeds_post_error.
    destruct (post_error (http put)) as [e|]; [|reflexivity].
    cbn [fst] in E. destruct (fallback_catches e); discriminate.
Qed.

(** ** [deploy_app_pack] *)

Lemma deploy_unfold
    (json_dumps : value -> result string) (http : request -> reply)
    (process_cwl_url app_pack_registry template_file : string)
    (w : Build.world) (d u : dict) (sent : list request) :
  Build.lookup template_file (Build.files w) = Some (PyDict d) ->
  execution_unit d = PyDict u ->
  deploy_app_pack json_dumps http process_cwl_url app_pack_registry template_file
                  w sent
  = let data :=
      if truthy (href_of u)
      then PyDict (dict_set d (PyStr "executionUnit")
                     (PyDict (dict_set u (PyStr "href")
                                (Atom (PyStr process_cwl_url)))))
      else PyDict d in
    match Build.lookup "MAAP_PGT" (Build.environ w) with
    | None | Some EmptyString => (Propagate token_missing, sent)
    | Some token =>
        submit_request json_dumps http app_pack_registry data
                       (request_headers token) sent
    end.
Proof.
  intros L U. unfold deploy_app_pack. rewrite L.
  cbv [nbind nlift dict_method_get nret nraise].
  fold (execution_unit d). rewrite U. fold (href_of u).
  destruct (truthy (href_of u)) eqn:T.
  - assert (G : dict_get d (PyStr "executionUnit") = Some (PyDict u)).
    { unfold execution_unit in U.
      destruct (dict_get d (PyStr "executionUnit")) as [v|]; [now rewrite U|].
      injection U as <-. discriminate. }
    cbn [Build.set_path_value getitem setitem rbind]. rewrite G.
    cbn [rbind].
    destruct (Build.lookup "MAAP_PGT" (Build.environ w)) as [[|c tok]|];
      reflexivity.
  - cbv zeta.
    destruct (Build.lookup "MAAP_PGT" (Build.environ w)) as [[|c tok]|];
      reflexivity.
Qed.

(** X20.  Without the proxy ticket nothing is sent: when [MAAP_PGT] is not
    set, or is set to the empty string, [deploy_app_pack] on a loadable
    template raises the [ValueError] its docstring announces and no request
    leaves. *)
Theorem deploy_needs_token
    (json_dumps : value -> result string) (http : request -> reply)
    (process_cwl_url app_pack_registry template_file : string)
    (w : Build.world) (d u : dict) (sent : list request) :
  Build.lookup template_file (Build.files w) = Some (PyDict d) ->
  execution_unit d = PyDict u ->
  Build.lookup "MAAP_PGT" (Build.environ w) = None
  \/ Build.lookup "MAAP_PGT" (Build.environ w) = Some EmptyString ->
  deploy_app_pack json_dumps http process_cwl_url app_pack_registry template_file
                  w sent
  = (Propagate (Builtin (ValueError "Environment variable `MAAP_PGT` is not set.")),
     sent).
Proof.
  intros L U T. rewrite (deploy_unfold _ _ _ _ _ _ d u _ L U). cbv zeta.
  destruct T as [-> | ->]; reflexivity.
Qed.

Lemma deploy_needs_token_witness :
  deploy_app_pack dumps_stub registry "https://host/process.cwl"
    "https://registry/processes" "templates/ogcapppkg.yml"
    (package_world (PyDict package) [("MAAP_PGT", EmptyString)]) []
  = (Propagate (Builtin (ValueError "Environment variable `MAAP_PGT` is not set.")), []).
Proof.
  apply (deploy_needs_token dumps_stub registry _ _ _ _ package
           [(PyStr "href", Atom (PyStr "placeholder"));
            (PyStr "type", Atom (PyStr "application/cwl"))]);
    [reflexivity | reflexivity | right; reflexivity].
Defined.

(** X21.  With the ticket set, and a template that is a mapping whose
    [executionUnit] is missing or is a mapping, [deploy_app_pack] hands
    [submit_request] the registry URL, the two headers, and the template as
    deployment request.  When [executionUnit] has a true [href], that one
    place holds the process URL and, in a template without aliases (no list
    or dictionary of it is held at two places), every location apart from
    it reads as in the template.  When [executionUnit] is missing, or is a
    mapping whose [href] is missing, [null] or empty, the template goes out
    as it is, without the process URL. *)
Theorem deploy_injects_url
    (json_dumps : value -> result string) (http : request -> reply)
    (process_cwl_url app_pack_registry template_file : string)
    (w : Build.world) (d u : dict) (token : string) (sent : list request) :
  Build.lookup template_file (Build.files w) = Some (PyDict d) ->
  execution_unit d = PyDict u ->
  Build.lookup "MAAP_PGT" (Build.environ w) = Some token ->
  token <> EmptyString ->
  exists data,
    deploy_app_pack json_dumps http process_cwl_url app_pack_registry template_file
                    w sent
    = submit_request json_dumps http app_pack_registry data
        [("proxy-ticket", token); ("Content-Type", "application/json")] sent
    /\ (truthy (href_of u) = true ->
        get_path data [PyStr "executionUnit"; PyStr "href"]
        = Ok (Atom (PyStr process_cwl_url))
        /\ forall q, apart (PyDict d) [PyStr "executionUnit"; PyStr "href"] q = true ->
                     get_path data q = get_path (PyDict d) q)
    /\ (truthy (href_of u) = false -> data = PyDict d).
Proof.
  intros L U T N. rewrite (deploy_unfold _ _ _ _ _ _ d u _ L U), T. cbv zeta.
  eexists. split.
  - destruct token; [congruence|]. reflexivity.
  - split; intros H; rewrite H; [|reflexivity].
    assert (G : dict_get d (PyStr "executionUnit") = Some (PyDict u)).
    { unfold execution_unit in U.
      destruct (dict_get d (PyStr "executionUnit")) as [v|]; [now rewrite U|].
      injection U as <-. discriminate. }
    assert (S : Build.set_path_value (PyDict d) [PyStr "executionUnit"; PyStr "href"]
                  (Atom (PyStr process_cwl_url))
                = Ok (PyDict (dict_set d (PyStr "executionUnit")
                                (PyDict (dict_set u (PyStr "href")
                                           (Atom (PyStr process_cwl_url))))))).
    { cbn [Build.set_path_value getitem setitem rbind]. now rewrite G. }
    split.
    + exact (get_set_same _ _ _ _ S).
    + intros q Q. exact (get_set_apart _ _ _ _ _ S Q).
Qed.

Lemma deploy_injects_url_witness :
  exists data,
    deploy_app_pack dumps_stub registry "https://host/process.cwl"
      "https://registry/processes" "templates/ogcapppkg.yml"
      (package_world (PyDict package) [("MAAP_PGT", "ticket")]) []
    = submit_request dumps_stub registry "https://registry/processes" data
        [("proxy-ticket", "ticket"); ("Content-Type", "application/json")] []
    /\ get_path data [PyStr "executionUnit"; PyStr "href"]
       = Ok (Atom (PyStr "https://host/process.cwl"))
    /\ get_path data [PyStr "executionUnit"; PyStr "type"]
       = Ok (Atom (PyStr "application/cwl")).
Proof.
  destruct (deploy_injects_url dumps_stub registry "https://host/process.cwl"
              "https://registry/processes" "templates/ogcapppkg.yml"
              (package_world (PyDict package) [("MAAP_PGT", "ticket")])
              package
              [(PyStr "href", Atom (PyStr "placeholder"));
               (PyStr "type", Atom (PyStr "application/cwl"))]
              "ticket" [] eq_refl eq_refl eq_refl ltac:(discriminate))
    as (data & R & I & _).
  destruct (I eq_refl) as [H F].
  exists data. split; [exact R|]. split; [exact H|].
  rewrite (F [PyStr "executionUnit"; PyStr "type"] eq_refl). reflexivity.
Defined.

(** X22.  A template that cannot serve stops [deploy_app_pack] before the
    ticket is looked at and before anything is sent: a file that cannot be
    opened raises [OSError]; a template that is no mapping, or whose
    [executionUnit] is there but is no mapping ([null], a string, a list),
    raises [AttributeError]. *)
Theorem deploy_template_defect
    (json_dumps : value -> result string) (http : request -> reply)
    (process_cwl_url app_pack_registry template_file : string)
    (w : Build.world) (e : exn) (sent : list request) :
  template_defect (Build.lookup template_file (Build.files w)) = Some e ->
  deploy_app_pack json_dumps http process_cwl_url app_pack_registry template_file
                  w sent
  = (Propagate (Builtin e), sent).
Proof.
  unfold template_defect, deploy_app_pack.
  destruct (Build.lookup template_file (Build.files w)) as [[a|l|d]|];
    try (intros [= <-]; reflexivity).
  cbv [nbind nlift dict_method_get nret nraise]. fold (execution_unit d).
  destruct (execution_unit d) as [a|l|u]; try discriminate;
    intros [= <-]; reflexivity.
Qed.

Lemma deploy_template_defect_witness :
  deploy_app_pack dumps_stub registry "https://host/process.cwl"
    "https://registry/processes" "templates/ogcapppkg.yml"
    (package_world (PyDict [(PyStr "executionUnit", Atom PyNone)])
                   [("MAAP_PGT", "ticket")]) []
  = (Propagate (Builtin AttributeError), []).
Proof.
  apply deploy_template_defect. reflexivity.
Defined.

(** X23.  Whatever the template and the registry, [deploy_app_pack] sends at
    most two requests, and only with the ticket: each request sent carries
    the value of [MAAP_PGT], which is set and not empty, as [proxy-ticket]
    beside the JSON content type, and goes to the registry URL or below
    it. *)
Theorem deploy_requests_carry_ticket
    (json_dumps : value -> result string) (http : request -> reply)
    (process_cwl_url app_pack_registry template_file : string)
    (w : Build.world) (sent : list request) :
  exists tr,
    snd (deploy_app_pack json_dumps http process_cwl_url app_pack_registry
                         template_file w sent) = (sent ++ tr)%list
    /\ (List.length tr <= 2)%nat
    /\ forall rq, In rq tr ->
         exists token,
           Build.lookup "MAAP_PGT" (Build.environ w) = Some token
           /\ token <> EmptyString
           /\ req_headers rq
              = [("proxy-ticket", token); ("Content-Type", "application/json")]
           /\ (req_url rq = app_pack_registry
               \/ exists id, req_url rq = app_pack_registry ++ "/" ++ id).
Proof.
  assert (Quiet : forall e : exc,
            exists tr,
              snd (Propagate (A:=bool) e, sent) = (sent ++ tr)%list
              /\ (List.length tr <= 2)%nat
              /\ forall rq, In rq tr ->
                   exists token,
                     Build.lookup "MAAP_PGT" (Build.environ w) = Some token
                     /\ token <> EmptyString
                     /\ req_headers rq
                        = [("proxy-ticket", token); ("Content-Type", "application/json")]
                     /\ (req_url rq = app_pack_registry
                         \/ exists id, req_url rq = app_pack_registry ++ "/" ++ id)).
  { intros e. exists []. cbn [snd]. rewrite app_nil_r.
    split; [reflexivity|]. split; [cbn; lia|]. intros rq []. }
  destruct (template_defect (Build.lookup template_file (Build.files w)))
    as [e|] eqn:D.
  { unfold template_defect, deploy_app_pack in *.
    destruct (Build.lookup template_file (Build.files w)) as [[a|l|d]|];
      try apply Quiet.
    cbv [nbind nlift dict_method_get nret nraise]. fold (execution_unit d).
    destruct (execution_unit d) as [a|l|u]; try discriminate; apply Quiet. }
  unfold template_defect in D.
  destruct (Build.lookup template_file (Build.files w)) as [[a|l|d]|] eqn:L;
    try discriminate.
  destruct (execution_unit d) as [a|l|u] eqn:U; try discriminate.
  rewrite (deploy_unfold _ _ _ _ _ _ d u _ L U). cbv zeta.
  destruct (Build.lookup "MAAP_PGT" (Build.environ w)) as [[|c token]|] eqn:T;
    try apply Quiet.
  match goal with
  | |- context [submit_request ?j ?h ?r ?dt ?hd ?s] =>
      destruct (submit_request_trace j h r dt hd s) as (tr & E & Len & H & _)
  end.
  exists tr. split; [exact E|]. split; [exact Len|].
  intros rq R. exists (String c token). destruct (H rq R) as [Hd Url].
  repeat split; [discriminate | exact Hd | exact Url].
Qed.

(** X24.  The script exits with status 0 only after a request that carried
    the ticket was accepted: when [main] ends with 0 the template could be
    opened and is a mapping whose [executionUnit] is missing or a mapping,
    [MAAP_PGT] was set and not empty, and the last request sent, with the
    ticket as [proxy-ticket], was answered with a status outside 4xx and
    5xx. *)
Theorem main_exit_zero
    (json_dumps : value -> result string) (http : request -> reply)
    (process_cwl_url app_pack_register_endpoint app_pack_template_file : string)
    (w : Build.world) (sent : list request) :
  fst (main json_dumps http process_cwl_url app_pack_register_endpoint
            app_pack_template_file w sent) = 0 ->
  exists d u token tr rq,
    Build.lookup app_pack_template_file (Build.files w) = Some (PyDict d)
    /\ execution_unit d = PyDict u
    /\ Build.lookup "MAAP_PGT" (Build.environ w) = Some token
    /\ token <> EmptyString
    /\ snd (main json_dumps http process_cwl_url app_pack_register_endpoint
                 app_pack_template_file w sent) = (sent ++ tr ++ [rq])%list
    /\ req_headers rq
       = [("proxy-ticket", token); ("Content-Type", "application/json")]
    /\ succeeds (http rq) = true.
Proof.
  unfold main.
  destruct (Build.lookup app_pack_template_file (Build.files w))
    as [data|] eqn:L; [|discriminate].
  destruct data as [a|l|d];
    try (unfold deploy_app_pack; rewrite L; discriminate).
  destruct (execution_unit d) as [a|l|u] eqn:U;
    try (unfold deploy_app_pack; rewrite L;
         cbv [nbind nlift dict_method_get nret nraise];
         fold (execution_unit d); rewrite U; discriminate).
  rewrite (deploy_unfold _ _ _ _ _ _ d u _ L U). cbv zeta.
  destruct (Build.lookup "MAAP_PGT" (Build.environ w)) as [[|c token]|] eqn:T;
    try discriminate.
  match goal with
  | |- context [submit_request ?j ?h ?r ?dt ?hd ?s] =>
      destruct (submit_request_trace j h r dt hd s) as (tr & E & _ & H & Last);
      destruct (submit_request j h r dt hd s) as [[[|]|e] sent'] eqn:R
  end; try discriminate.
  intros _. destruct (Last eq_refl) as (tr' & rq & -> & Acc).
  exists d, u, (String c token), tr', rq. cbn [snd] in *.
  split; [reflexivity|]. split; [exact U|]. split; [reflexivity|].
  split; [discriminate|]. split; [exact E|]. split; [|exact Acc].
  apply (H rq). apply in_or_app. right. now left.
Qed.

Lemma main_exit_zero_witness :
  exists d u token tr rq,
    Build.lookup "templates/ogcapppkg.yml"
      (Build.files (package_world (PyDict package) [("MAAP_PGT", "ticket")]))
    = Some (PyDict d)
    /\ execution_unit d = PyDict u
    /\ Build.lookup "MAAP_PGT"
         (Build.environ (package_world (PyDict package) [("MAAP_PGT", "ticket")]))
       = Some token
    /\ token <> EmptyString
    /\ snd (main dumps_stub registry "https://host/process.cwl"
              "https://registry/processes" "templates/ogcapppkg.yml"
              (package_world (PyDict package) [("MAAP_PGT", "ticket")]) [])
       = ([] ++ tr ++ [rq])%list
    /\ req_headers rq
       = [("proxy-ticket", token); ("Content-Type", "application/json")]
    /\ succeeds (registry rq) = true.
Proof.
  exact (main_exit_zero dumps_stub registry "https://host/process.cwl"
           "https://registry/processes" "templates/ogcapppkg.yml"
           (package_world (PyDict package) [("MAAP_PGT", "ticket")]) []
           eq_refl).
Defined.

End DeployProps.
